(** * hand-metadata-db: the HAND catchment loader ([load.py])

    A shallow embedding of [DatabaseLoader] and of the collaborators it
    calls (the name-based UUID of Python's [uuid] module, the object store
    listing, the local directory tree and the SQL engine), followed by the
    properties of the per-catchment load pipeline.

    Conventions of the embedding.
    - A Python [str] is a [string]: the sequence of its UTF-8 bytes, a
      byte of a file name that is not part of a well-formed sequence kept
      as it is (Python holds it as a lone surrogate).  [len] and
      [str.isdigit] work on the code points of the string, the tests
      against ASCII text ([startswith], [endswith], [in], [split]) on its
      bytes.
    - The database is a record of tables, each a list of rows in insertion
      order.  A statement changes the tables the way its SQL text says; the
      engine may refuse any statement (constraint violation, lost
      connection), which is the field [db_accepts] of the environment.
    - [print] appends a line to the console log; lines are constructors of
      [LogLine], one per [print] call site of the source.
    - Exceptions are values of [Exn]; code that can raise returns [Res].
    - The standard library is the one of CPython 3.11 ([urllib.parse],
      [unicodedata] with the tables of Unicode 14.0). *)

From Stdlib Require Import ZArith Ascii String List Lia Bool.
From stdpp Require Import base gmap strings list.

Local Open Scope string_scope.

(* ===================================================================== *)
(** ** Python string operations used by the loader *)
(* ===================================================================== *)

(** Every character (byte) of a string passes a test. *)
Fixpoint all_chars (p : ascii -> bool) (s : string) : bool :=
  match s with
  | EmptyString => true
  | String c s' => p c && all_chars p s'
  end.

Module PyStr.

(** [s.startswith(p)] *)
Fixpoint startswith (s p : string) : bool :=
  match p, s with
  | EmptyString, _ => true
  | String c p', String d s' => if Ascii.eqb c d then startswith s' p' else false
  | String _ _, EmptyString => false
  end.

(** [p in s] (substring test) *)
Fixpoint contains (s p : string) : bool :=
  startswith s p ||
  match s with
  | EmptyString => false
  | String _ s' => contains s' p
  end.

(** [s.endswith(p)] *)
Fixpoint endswith (s p : string) : bool :=
  String.eqb s p ||
  match s with
  | EmptyString => false
  | String _ s' => endswith s' p
  end.

(** [s.lstrip(c)] for a one-character set *)
Fixpoint lstrip (c : ascii) (s : string) : string :=
  match s with
  | String d s' => if Ascii.eqb c d then lstrip c s' else s
  | EmptyString => EmptyString
  end.

(** [s.split(sep)] for a one-character separator: always at least one
    part, empty parts are kept. *)
Fixpoint split (sep : ascii) (s : string) : list string :=
  match s with
  | EmptyString => [EmptyString]
  | String c s' =>
      if Ascii.eqb c sep then EmptyString :: split sep s'
      else match split sep s' with
           | p :: ps => String c p :: ps
           | [] => [String c EmptyString]
           end
  end.

(** [sep.join(parts)] *)
Fixpoint join (sep : string) (parts : list string) : string :=
  match parts with
  | [] => EmptyString
  | [p] => p
  | p :: ps => p ++ sep ++ join sep ps
  end.

Definition byte (c : ascii) : Z := Z.of_N (N_of_ascii c).

(** A continuation byte of UTF-8. *)
Definition is_cont (b : Z) : bool := (0x80 <=? b)%Z && (b <=? 0xBF)%Z.

(** The second byte a three-byte (resp. four-byte) sequence may have after
    the lead byte [b0]: overlong forms, surrogates and values above
    U+10FFFF are not well formed. *)
Definition second_of_3 (b0 b1 : Z) : bool :=
  if (b0 =? 0xE0)%Z then (0xA0 <=? b1)%Z && (b1 <=? 0xBF)%Z
  else if (b0 =? 0xED)%Z then (0x80 <=? b1)%Z && (b1 <=? 0x9F)%Z
  else is_cont b1.

Definition second_of_4 (b0 b1 : Z) : bool :=
  if (b0 =? 0xF0)%Z then (0x90 <=? b1)%Z && (b1 <=? 0xBF)%Z
  else if (b0 =? 0xF4)%Z then (0x80 <=? b1)%Z && (b1 <=? 0x8F)%Z
  else is_cont b1.

(** The code points of a string.  A byte that does not start a well-formed
    UTF-8 sequence is the lone surrogate [0xDC00 + byte] (the
    [surrogateescape] handler of [os.fsdecode]), and decoding goes on with
    the next byte. *)
Fixpoint code_points (s : string) : list Z :=
  match s with
  | EmptyString => []
  | String c0 s1 =>
      let b0 := byte c0 in
      let escaped := (0xDC00 + b0)%Z :: code_points s1 in
      if (b0 <? 0x80)%Z then b0 :: code_points s1
      else
        match s1 with
        | EmptyString => escaped
        | String c1 s2 =>
            let b1 := byte c1 in
            if (0xC2 <=? b0)%Z && (b0 <=? 0xDF)%Z then
              if is_cont b1
              then ((b0 - 0xC0) * 64 + (b1 - 0x80))%Z :: code_points s2
              else escaped
            else
              match s2 with
              | EmptyString => escaped
              | String c2 s3 =>
                  let b2 := byte c2 in
                  if (0xE0 <=? b0)%Z && (b0 <=? 0xEF)%Z then
                    if second_of_3 b0 b1 && is_cont b2
                    then ((b0 - 0xE0) * 4096 + (b1 - 0x80) * 64 + (b2 - 0x80))%Z
                           :: code_points s3
                    else escaped
                  else
                    match s3 with
                    | EmptyString => escaped
                    | String c3 s4 =>
                        let b3 := byte c3 in
                        if (0xF0 <=? b0)%Z && (b0 <=? 0xF4)%Z && second_of_4 b0 b1
                           && is_cont b2 && is_cont b3
                        then ((b0 - 0xF0) * 262144 + (b1 - 0x80) * 4096
                              + (b2 - 0x80) * 64 + (b3 - 0x80))%Z :: code_points s4
                        else escaped
                    end
              end
        end
  end.

(** [len(s)] *)
Definition len (s : string) : nat := length (code_points s).

(** The code points with [Numeric_Type] [Decimal] or [Digit], as closed
    intervals (Unicode 14.0). *)
Definition digit_ranges : list (Z * Z) :=
  [ (48, 57); (178, 179); (185, 185); (1632, 1641); (1776, 1785); (1984, 1993);
    (2406, 2415); (2534, 2543); (2662, 2671); (2790, 2799); (2918, 2927);
    (3046, 3055); (3174, 3183); (3302, 3311); (3430, 3439); (3558, 3567);
    (3664, 3673); (3792, 3801); (3872, 3881); (4160, 4169); (4240, 4249);
    (4969, 4977); (6112, 6121); (6160, 6169); (6470, 6479); (6608, 6618);
    (6784, 6793); (6800, 6809); (6992, 7001); (7088, 7097); (7232, 7241);
    (7248, 7257); (8304, 8304); (8308, 8313); (8320, 8329); (9312, 9320);
    (9332, 9340); (9352, 9360); (9450, 9450); (9461, 9469); (9471, 9471);
    (10102, 10110); (10112, 10120); (10122, 10130); (42528, 42537);
    (43216, 43225); (43264, 43273); (43472, 43481); (43504, 43513);
    (43600, 43609); (44016, 44025); (65296, 65305); (66720, 66729);
    (68160, 68163); (68912, 68921); (69216, 69224); (69714, 69722);
    (69734, 69743); (69872, 69881); (69942, 69951); (70096, 70105);
    (70384, 70393); (70736, 70745); (70864, 70873); (71248, 71257);
    (71360, 71369); (71472, 71481); (71904, 71913); (72016, 72025);
    (72784, 72793); (73040, 73049); (73120, 73129); (92768, 92777);
    (92864, 92873); (93008, 93017); (120782, 120831); (123200, 123209);
    (123632, 123641); (125264, 125273); (127232, 127242); (130032, 130041) ]%Z.

Definition isdigit_char (cp : Z) : bool :=
  existsb (fun r => (fst r <=? cp)%Z && (cp <=? snd r)%Z) digit_ranges.

(** [s.isdigit()]: every character is a digit and there is at least one. *)
Definition isdigit (s : string) : bool :=
  match code_points s with
  | [] => false
  | cps => forallb isdigit_char cps
  end.

(** The text before the first character for which [stop] holds, and the
    rest (starting at that character). *)
Fixpoint break_at (stop : ascii -> bool) (s : string) : string * string :=
  match s with
  | EmptyString => (EmptyString, EmptyString)
  | String c s' =>
      if stop c then (EmptyString, s)
      else let '(a, b) := break_at stop s' in (String c a, b)
  end.

(** [s[n:]] *)
Fixpoint drop_chars (n : nat) (s : string) : string :=
  match n, s with
  | O, _ => s
  | S n', String _ s' => drop_chars n' s'
  | S _, EmptyString => EmptyString
  end.

(** [s.lstrip(chars)] for the set of characters that pass [p] *)
Fixpoint lstrip_set (p : ascii -> bool) (s : string) : string :=
  match s with
  | String c s' => if p c then lstrip_set p s' else s
  | EmptyString => EmptyString
  end.

(** [s.replace(c, "")] for every character [c] that passes [p] *)
Fixpoint remove_chars (p : ascii -> bool) (s : string) : string :=
  match s with
  | String c s' => if p c then remove_chars p s' else String c (remove_chars p s')
  | EmptyString => EmptyString
  end.

(** [c in s] for a character *)
Definition has_char (c : ascii) (s : string) : bool :=
  negb (all_chars (fun x => negb (Ascii.eqb x c)) s).

(** [(s[:i+1], s[i+1:])] for [i = s.rfind(c)], the whole string second
    when [c] does not occur. *)
Fixpoint rbreak_at (c : ascii) (s : string) : string * string :=
  match s with
  | EmptyString => (EmptyString, EmptyString)
  | String d s' =>
      let '(a, b) := rbreak_at c s' in
      if has_char c s' then (String d a, b)
      else if Ascii.eqb d c then (String d EmptyString, s')
      else (EmptyString, s)
  end.

(** [s.lower()] on ASCII text *)
Fixpoint lower (s : string) : string :=
  match s with
  | EmptyString => EmptyString
  | String c s' =>
      let n := nat_of_ascii c in
      String (if (65 <=? n)%nat && (n <=? 90)%nat then ascii_of_nat (n + 32) else c)
             (lower s')
  end.

End PyStr.

(* ===================================================================== *)
(** ** [uuid.uuid5]: SHA-1 and the version-5 UUID *)
(* ===================================================================== *)

Module Uuid.

Local Open Scope Z_scope.

(** 32-bit words are [Z] reduced modulo 2^32. *)
Definition w32 (x : Z) : Z := x mod 2 ^ 32.

Definition rotl32 (n x : Z) : Z :=
  w32 (Z.lor (Z.shiftl x n) (Z.shiftr x (32 - n))).

Definition bytes_of_string (s : string) : list Z :=
  map (fun c => Z.of_N (N_of_ascii c)) (list_ascii_of_string s).

(** Big-endian bytes of [x], [n] of them. *)
Fixpoint be_bytes (n : nat) (x : Z) : list Z :=
  match n with
  | O => []
  | S n' => Z.land (Z.shiftr x (8 * Z.of_nat n')) 255 :: be_bytes n' x
  end.

(** Big-endian integer of a byte list. *)
Definition be_int (bs : list Z) : Z :=
  fold_left (fun acc b => Z.lor (Z.shiftl acc 8) b) bs 0.

(** SHA-1 padding: a [0x80] byte, zeros up to 56 modulo 64, then the bit
    length on 8 bytes. *)
Definition sha1_pad (msg : list Z) : list Z :=
  let len := length msg in
  let zeros := ((55 + 64 - len mod 64) mod 64)%nat in
  msg ++ [128] ++ repeat 0 zeros ++ be_bytes 8 (8 * Z.of_nat len).

(** The words of one 64-byte block. *)
Fixpoint words_of (n : nat) (bs : list Z) : list Z :=
  match n with
  | O => []
  | S n' => be_int (firstn 4 bs) :: words_of n' (skipn 4 bs)
  end.

Definition sha1_f (t : nat) (b c d : Z) : Z :=
  if (t <? 20)%nat then Z.lor (Z.land b c) (Z.land (w32 (Z.lnot b)) d)
  else if (t <? 40)%nat then Z.lxor (Z.lxor b c) d
  else if (t <? 60)%nat then
         Z.lor (Z.lor (Z.land b c) (Z.land b d)) (Z.land c d)
  else Z.lxor (Z.lxor b c) d.

Definition sha1_k (t : nat) : Z :=
  if (t <? 20)%nat then 0x5A827999
  else if (t <? 40)%nat then 0x6ED9EBA1
  else if (t <? 60)%nat then 0x8F1BBCDC
  else 0xCA62C1D6.

Record sha1_state := Sha1State { hA : Z; hB : Z; hC : Z; hD : Z; hE : Z }.

(** The schedule is kept as a window of sixteen words
    [W t .. W (t+15)]; [W (t+16)] is
    [rotl 1 (W (t+13) xor W (t+8) xor W (t+2) xor W t)]. *)
Definition next_window (win : list Z) : list Z :=
  let w i := nth i win 0 in
  tl win ++ [rotl32 1 (Z.lxor (Z.lxor (Z.lxor (w 13%nat) (w 8%nat)) (w 2%nat)) (w 0%nat))].

Fixpoint sha1_rounds (n t : nat) (win : list Z) (s : sha1_state) : sha1_state :=
  match n with
  | O => s
  | S n' =>
      let tmp := w32 (rotl32 5 (hA s) + sha1_f t (hB s) (hC s) (hD s)
                      + hE s + sha1_k t + nth 0 win 0) in
      sha1_rounds n' (S t) (next_window win)
        (Sha1State tmp (hA s) (rotl32 30 (hB s)) (hC s) (hD s))
  end.

Definition sha1_block (s : sha1_state) (block : list Z) : sha1_state :=
  let r := sha1_rounds 80 0 (words_of 16 block) s in
  Sha1State (w32 (hA s + hA r)) (w32 (hB s + hB r)) (w32 (hC s + hC r))
            (w32 (hD s + hD r)) (w32 (hE s + hE r)).

Fixpoint sha1_blocks (n : nat) (s : sha1_state) (bs : list Z) : sha1_state :=
  match n with
  | O => s
  | S n' => sha1_blocks n' (sha1_block s (firstn 64 bs)) (skipn 64 bs)
  end.

Definition sha1_init : sha1_state :=
  Sha1State 0x67452301 0xEFCDAB89 0x98BADCFE 0x10325476 0xC3D2E1F0.

(** [hashlib.sha1(msg).digest()], twenty bytes. *)
Definition sha1 (msg : list Z) : list Z :=
  let padded := sha1_pad msg in
  let s := sha1_blocks (length padded / 64) sha1_init padded in
  be_bytes 4 (hA s) ++ be_bytes 4 (hB s) ++ be_bytes 4 (hC s)
    ++ be_bytes 4 (hD s) ++ be_bytes 4 (hE s).

(** [UUID(bytes=b, version=v)]: the 128-bit integer with the RFC 4122
    variant and the version number written over it. *)
Definition uuid_with_version (version : Z) (bs : list Z) : Z :=
  let i0 := be_int bs in
  let i1 := Z.land i0 (Z.lnot (Z.shiftl 0xc000 48)) in
  let i2 := Z.lor i1 (Z.shiftl 0x8000 48) in
  let i3 := Z.land i2 (Z.lnot (Z.shiftl 0xf000 64)) in
  Z.lor i3 (Z.shiftl version 76).

(** [uuid.NAMESPACE_DNS = UUID('6ba7b810-9dad-11d1-80b4-00c04fd430c8')] *)
Definition NAMESPACE_DNS : Z := 0x6ba7b8109dad11d180b400c04fd430c8.

(** [uuid.uuid5(namespace, name)] *)
Definition uuid5 (namespace : Z) (name : string) : Z :=
  let hash := sha1 (be_bytes 16 namespace ++ bytes_of_string name) in
  uuid_with_version 5 (firstn 16 hash).

Definition hex_digit (d : Z) : ascii :=
  ascii_of_N (Z.to_N (if d <? 10 then 48 + d else 87 + d)).

(** The [n] lowest hexadecimal digits of [x], most significant first. *)
Fixpoint hex (n : nat) (x : Z) : string :=
  match n with
  | O => EmptyString
  | S n' => String (hex_digit (Z.land (Z.shiftr x (4 * Z.of_nat n')) 15)) (hex n' x)
  end.

(** [str(u)] for a UUID: ['%032x' % u] cut 8-4-4-4-12. *)
Definition str (u : Z) : string :=
  let h := hex 32 u in
  (substring 0 8 h ++ "-" ++ substring 8 4 h ++ "-" ++ substring 12 4 h
     ++ "-" ++ substring 16 4 h ++ "-" ++ substring 20 12 h)%string.

(** The version field of a UUID: bits 76..79. *)
Definition version (u : Z) : Z := Z.land (Z.shiftr u 76) 15.


End Uuid.

(* ===================================================================== *)
(** ** Data model: rows, tables, statements *)
(* ===================================================================== *)

(** A Python value bound to a statement parameter.  Floating-point cells
    are carried as the decimal text of the CSV. *)
Inductive PyVal :=
| PNone
| PInt (z : Z)
| PBool (b : bool)
| PStr (s : string).

#[global] Instance PyVal_eq_dec : EqDecision PyVal.
Proof. solve_decision. Defined.

(** [Catchments (catchment_id, hand_version_id, geometry)]; the geometry is
    kept as the well-known text handed to [ST_GeomFromText(_, 5070)]. *)
Record CatchmentsRow := mkCatchment {
  cat_catchment_id : string;
  cat_hand_version_id : string;
  cat_geometry : string }.

(** [Hydrotables]: the two owner columns, the NWM version, and the other
    twenty-nine bound parameters in the order of the INSERT. *)
Record HydrotablesRow := mkHydro {
  hy_catchment_id : string;
  hy_hand_version_id : string;
  hy_nwm_version_id : string;
  hy_fields : list (string * PyVal) }.

(** [HAND_REM_Rasters (rem_raster_id, catchment_id, hand_version_id, raster_path)] *)
Record RemRastersRow := mkRem {
  rem_raster_id : string;
  rem_catchment_id : string;
  rem_hand_version_id : string;
  rem_raster_path : string }.

(** [HAND_Catchment_Rasters (catchment_raster_id, rem_raster_id, raster_path)] *)
Record CatchmentRastersRow := mkCatchmentRaster {
  cr_catchment_raster_id : string;
  cr_rem_raster_id : string;
  cr_raster_path : string }.

(** [NWM_Features]: the conflict key [(nwm_feature_id, nwm_version_id)] and
    the remaining bound parameters. *)
Record NwmFeaturesRow := mkNwmFeature {
  nf_feature_id : PyVal;
  nf_version_id : string;
  nf_fields : list (string * PyVal) }.

#[global] Instance CatchmentsRow_eq_dec : EqDecision CatchmentsRow.
Proof. solve_decision. Defined.
#[global] Instance HydrotablesRow_eq_dec : EqDecision HydrotablesRow.
Proof. solve_decision. Defined.
#[global] Instance RemRastersRow_eq_dec : EqDecision RemRastersRow.
Proof. solve_decision. Defined.
#[global] Instance CatchmentRastersRow_eq_dec : EqDecision CatchmentRastersRow.
Proof. solve_decision. Defined.
#[global] Instance NwmFeaturesRow_eq_dec : EqDecision NwmFeaturesRow.
Proof. solve_decision. Defined.

Record Database := mkDb {
  Catchments : list CatchmentsRow;
  Hydrotables : list HydrotablesRow;
  HAND_REM_Rasters : list RemRastersRow;
  HAND_Catchment_Rasters : list CatchmentRastersRow;
  NWM_Features : list NwmFeaturesRow }.

Definition empty_db : Database := mkDb [] [] [] [] [].

(** The statements the loader sends, one constructor per SQL text. *)
Inductive Statement :=
| InsertCatchment (r : CatchmentsRow)
| InsertHydrotable (r : HydrotablesRow)
| InsertRemRaster (r : RemRastersRow)
| InsertCatchmentRaster (r : CatchmentRastersRow)
| InsertNwmFeature (r : NwmFeaturesRow)   (* ... ON CONFLICT (nwm_feature_id, nwm_version_id) DO NOTHING *)
| DeleteHydrotables (catch_id hand_id : string)
| DeleteRemRasters (catch_id hand_id : string)
| DeleteCatchments (catch_id hand_id : string).

#[global] Instance Statement_eq_dec : EqDecision Statement.
Proof. solve_decision. Defined.

(** [WHERE catchment_id = :catch_id AND hand_version_id = :hand_id] *)
Definition owned_by (catch_id hand_id : string) (cid hv : string) : bool :=
  bool_decide (cid = catch_id) && bool_decide (hv = hand_id).

Definition nwm_conflict (r : NwmFeaturesRow) (x : NwmFeaturesRow) : bool :=
  bool_decide (nf_feature_id x = nf_feature_id r)
  && bool_decide (nf_version_id x = nf_version_id r).

(** The effect of a statement on the tables, with its [rowcount]. *)
Definition apply_stmt (st : Statement) (db : Database) : Database * nat :=
  match st with
  | InsertCatchment r =>
      (mkDb (Catchments db ++ [r]) (Hydrotables db) (HAND_REM_Rasters db)
            (HAND_Catchment_Rasters db) (NWM_Features db), 1)
  | InsertHydrotable r =>
      (mkDb (Catchments db) (Hydrotables db ++ [r]) (HAND_REM_Rasters db)
            (HAND_Catchment_Rasters db) (NWM_Features db), 1)
  | InsertRemRaster r =>
      (mkDb (Catchments db) (Hydrotables db) (HAND_REM_Rasters db ++ [r])
            (HAND_Catchment_Rasters db) (NWM_Features db), 1)
  | InsertCatchmentRaster r =>
      (mkDb (Catchments db) (Hydrotables db) (HAND_REM_Rasters db)
            (HAND_Catchment_Rasters db ++ [r]) (NWM_Features db), 1)
  | InsertNwmFeature r =>
      (mkDb (Catchments db) (Hydrotables db) (HAND_REM_Rasters db)
            (HAND_Catchment_Rasters db) (NWM_Features db ++ [r]), 1)
  | DeleteHydrotables c h =>
      let keep := List.filter (fun r => negb (owned_by c h (hy_catchment_id r) (hy_hand_version_id r)))
                         (Hydrotables db) in
      (mkDb (Catchments db) keep (HAND_REM_Rasters db)
            (HAND_Catchment_Rasters db) (NWM_Features db),
       length (Hydrotables db) - length keep)
  | DeleteRemRasters c h =>
      let keep := List.filter (fun r => negb (owned_by c h (rem_catchment_id r) (rem_hand_version_id r)))
                         (HAND_REM_Rasters db) in
      (mkDb (Catchments db) (Hydrotables db) keep
            (HAND_Catchment_Rasters db) (NWM_Features db),
       length (HAND_REM_Rasters db) - length keep)
  | DeleteCatchments c h =>
      let keep := List.filter (fun r => negb (owned_by c h (cat_catchment_id r) (cat_hand_version_id r)))
                         (Catchments db) in
      (mkDb keep (Hydrotables db) (HAND_REM_Rasters db)
            (HAND_Catchment_Rasters db) (NWM_Features db),
       length (Catchments db) - length keep)
  end.

(** [ON CONFLICT ... DO NOTHING]: the statement is a no-op with rowcount 0
    when a row with the same conflict key is already there. *)
Definition suppressed (st : Statement) (db : Database) : bool :=
  match st with
  | InsertNwmFeature r => existsb (nwm_conflict r) (NWM_Features db)
  | _ => false
  end.

(* ===================================================================== *)
(** ** Exceptions, console log, interpreter state *)
(* ===================================================================== *)

Inductive Exn :=
| DbError (st : Statement)          (* the engine refused the statement *)
| StorageError (location : string)  (* listing a directory or prefix failed *)
| ReadError (location : string)     (* a file could not be fetched or parsed *)
| UnboundLocalError (var : string)
| ValueError (url : string)         (* [urlparse] refused the host of the URL *)
| TypeError (type_name : string)    (* the object does not support the context
                                       manager protocol ([AttributeError]
                                       before Python 3.11) *)
| KeyError (key : string).

Inductive Res (A : Type) :=
| Ok (a : A)
| Raise (e : Exn).
Arguments Ok {A} a.
Arguments Raise {A} e.

(** One constructor per [print] call of [load.py]. *)
Inductive LogLine :=
| LFound (total : nat)
| LProcessing (idx total : nat) (catchment_dir : string)
| LSkipping (catchment_dir : string)
| LErrorProcessing (catchment_dir : string) (e : Exn)
| LCleaningUp (catchment_id : string)
| LLoadingGeometry
| LNoGeometryFiles
| LGeometryFileError (gpkg : string) (e : Exn)
| LLoadingHydrotables
| LNoHydrotableFiles
| LHydrotableError (csv_path : string) (e : Exn)
| LLoadingRemRasters
| LNoRemRasterFiles
| LLoadingCatchmentRasters
| LNoCatchmentRasterFiles
| LRasterError (e : Exn)
| LLoadingNwmFeatures
| LDroppedDuplicates (dropped_count : nat).

(** A Python local variable: unbound until first assigned. *)
Inductive PyVar (A : Type) :=
| Unbound
| Bound (a : A).
Arguments Unbound {A}.
Arguments Bound {A} a.

(** What the loader can observe and change: the tables as the current
    connection sees them, the console, the statements submitted so far,
    and the local variable [catchment_id] of [load_hand_data] (it lives
    across the iterations of its loop). *)
Record State := mkState {
  st_db : Database;
  st_log : list LogLine;
  st_sql : list Statement;
  st_catchment_id : PyVar (option string) }.

Definition initial_state (db : Database) : State := mkState db [] [] Unbound.

Definition M (A : Type) : Type := State -> Res A * State.

Definition ret {A} (a : A) : M A := fun s => (Ok a, s).

Definition bind {A B} (m : M A) (k : A -> M B) : M B :=
  fun s => match m s with
           | (Ok a, s') => k a s'
           | (Raise e, s') => (Raise e, s')
           end.

Definition raise {A} (e : Exn) : M A := fun s => (Raise e, s).

Definition lift {A} (r : Res A) : M A := fun s => (r, s).

Notation "x <- m ;; k" := (bind m (fun x => k))
  (at level 20, m at level 99, k at level 200, only parsing, right associativity).
Notation "m ;; k" := (bind m (fun _ => k))
  (at level 100, k at level 200, only parsing, right associativity).

Definition print (l : LogLine) : M unit :=
  fun s => (Ok tt, mkState (st_db s) (st_log s ++ [l]) (st_sql s) (st_catchment_id s)).

(** [try: body except Exception as e: handler e] *)
Definition try_except {A} (body : M A) (handler : Exn -> M A) : M A :=
  fun s => match body s with
           | (Ok a, s') => (Ok a, s')
           | (Raise e, s') => handler e s'
           end.

(** [with self.engine.begin() as conn: body]: commit when the body ends
    normally, roll the tables back to their state at [begin] when it
    raises; the exception goes on to the caller. *)
Definition with_transaction {A} (body : M A) : M A :=
  fun s => match body s with
           | (Ok a, s') => (Ok a, s')
           | (Raise e, s') =>
               (Raise e, mkState (st_db s) (st_log s') (st_sql s') (st_catchment_id s'))
           end.

(** [for x in xs: body x] *)
Fixpoint for_each {A} (xs : list A) (body : A -> M unit) : M unit :=
  match xs with
  | [] => ret tt
  | x :: xs' => body x ;; for_each xs' body
  end.

(** [with obj as x: body] for an object whose class defines no
    [__enter__]: the interpreter looks the method up on the class before
    anything of the body runs, and raises. *)
Definition with_no_context_manager {A B} (type_name : string) (obj : A) (body : A -> M B)
  : M B :=
  raise (TypeError type_name).

Definition res_bind {A B} (r : Res A) (k : A -> Res B) : Res B :=
  match r with
  | Ok a => k a
  | Raise e => Raise e
  end.

(** A list comprehension whose element expression can raise. *)
Fixpoint res_map {A B} (f : A -> Res B) (l : list A) : Res (list B) :=
  match l with
  | [] => Ok []
  | x :: l' => res_bind (f x) (fun y => res_bind (res_map f l') (fun ys => Ok (y :: ys)))
  end.

(* ===================================================================== *)
(** ** [urllib.parse.urlparse] *)
(* ===================================================================== *)

Module Url.

(** [_WHATWG_C0_CONTROL_OR_SPACE] *)
Definition is_c0_control_or_space (c : ascii) : bool := (nat_of_ascii c <=? 32)%nat.

(** [_UNSAFE_URL_BYTES_TO_REMOVE]: tab, carriage return, line feed *)
Definition is_unsafe (c : ascii) : bool :=
  let n := nat_of_ascii c in Nat.eqb n 9 || Nat.eqb n 13 || Nat.eqb n 10.

Definition is_ascii (c : ascii) : bool := (nat_of_ascii c <? 128)%nat.

(** [c.isascii() and c.isalpha()] *)
Definition is_ascii_alpha (c : ascii) : bool :=
  let n := nat_of_ascii c in
  ((65 <=? n)%nat && (n <=? 90)%nat) || ((97 <=? n)%nat && (n <=? 122)%nat).

(** [c in scheme_chars] *)
Definition is_scheme_char (c : ascii) : bool :=
  let n := nat_of_ascii c in
  is_ascii_alpha c || ((48 <=? n)%nat && (n <=? 57)%nat)
  || Ascii.eqb c "+" || Ascii.eqb c "-" || Ascii.eqb c ".".

Definition uses_params : list string :=
  [ EmptyString; "ftp"; "hdl"; "prospero"; "http"; "imap"; "https"; "shttp"; "rtsp";
    "rtspu"; "sip"; "sips"; "mms"; "sftp"; "tel" ].

(** The scheme of [urlsplit] and the text after its colon; without a
    scheme, the empty string and the whole text. *)
Definition split_scheme (url : string) : string * string :=
  let '(before, rest) := PyStr.break_at (fun c => Ascii.eqb c ":") url in
  match before, rest with
  | String c0 _, String _ after =>
      if is_ascii_alpha c0 && all_chars is_scheme_char before
      then (PyStr.lower before, after)
      else (EmptyString, url)
  | _, _ => (EmptyString, url)
  end.

(** [_checknetloc]: a host that is not ASCII must not turn into one that
    holds a delimiter under NFKC normalisation. *)
Definition checknetloc (normalize_nfkc : string -> string) (netloc : string) : bool :=
  if String.eqb netloc EmptyString || all_chars is_ascii netloc then true
  else
    let n := PyStr.remove_chars
               (fun c => Ascii.eqb c "@" || Ascii.eqb c ":" || Ascii.eqb c "#"
                         || Ascii.eqb c "?") netloc in
    let netloc2 := normalize_nfkc n in
    if String.eqb n netloc2 then true
    else negb (PyStr.has_char "/" netloc2 || PyStr.has_char "?" netloc2
               || PyStr.has_char "#" netloc2 || PyStr.has_char "@" netloc2
               || PyStr.has_char ":" netloc2).

(** [_splitparams(url)[0]] *)
Definition strip_params (url : string) : string :=
  let '(dir, name) := PyStr.rbreak_at "/" url in
  (dir ++ fst (PyStr.break_at (fun c => Ascii.eqb c ";") name))%string.

(** [urlparse(url)]: the scheme, the host ([netloc]) and the path of the
    result.  [normalize_nfkc] is [unicodedata.normalize('NFKC', _)];
    [bracketed_host_ok] says whether [_check_bracketed_netloc] lets a host
    with an address in brackets pass. *)
Definition urlparse (normalize_nfkc : string -> string) (bracketed_host_ok : string -> bool)
  (url0 : string) : Res (string * string * string) :=
  let url := PyStr.lstrip_set is_c0_control_or_space url0 in
  let url := PyStr.remove_chars is_unsafe url in
  let '(scheme, url) := split_scheme url in
  res_bind
    (if PyStr.startswith url "//" then
       let '(netloc, url) :=
         PyStr.break_at (fun c => Ascii.eqb c "/" || Ascii.eqb c "?" || Ascii.eqb c "#")
           (PyStr.drop_chars 2 url) in
       let opening := PyStr.has_char "[" netloc in
       let closing := PyStr.has_char "]" netloc in
       if (opening && negb closing) || (closing && negb opening) then Raise (ValueError url0)
       else if opening && closing && negb (bracketed_host_ok netloc)
            then Raise (ValueError url0)
       else Ok (netloc, url)
     else Ok (EmptyString, url))
    (fun '(netloc, url) =>
       let url := fst (PyStr.break_at (fun c => Ascii.eqb c "#") url) in
       let url := fst (PyStr.break_at (fun c => Ascii.eqb c "?") url) in
       if checknetloc normalize_nfkc netloc then
         Ok (scheme, netloc,
             if existsb (String.eqb scheme) uses_params then strip_params url else url)
       else Raise (ValueError url0)).

End Url.

(* ===================================================================== *)
(** ** The collaborators: storage, file readers, SQL engine *)
(* ===================================================================== *)

(** An entry of the local file system, addressed by its path string. *)
Inductive FsEntry :=
| FsFile
| FsDir (names : list string)    (* what [os.listdir] returns *)
| FsDirNoList.                   (* a directory that [os.listdir] cannot read *)

(** What reading one vector file gives: the fetch or the parse raised, the
    frame is empty, or the frame's [union_all()]. *)
Inductive VectorRead (G : Type) :=
| VError
| VEmpty
| VGeom (g : G).
Arguments VError {G}.
Arguments VEmpty {G}.
Arguments VGeom {G} g.

(** One record of the river-network layer, with the columns
    [load_nwm_features] reads. *)
Record StreamRecord := mkStream {
  sr_ID : PyVal;
  sr_geometry_wkt : string;
  sr_to : PyVal;
  sr_order_ : PyVal;
  sr_Lake : PyVal;
  sr_gages : PyVal;
  sr_Slope : PyVal;
  sr_mainstem : PyVal }.

(** A frame as [gpd.read_file] returns it.  [gdf_getitem] is indexing by a
    name: the records [iterrows] of the result goes over, [None] when the
    indexing raises. *)
Record GeoDataFrame := mkFrame {
  gdf_getitem : string -> option (list StreamRecord) }.

Record Env := mkEnv {
  (** shapely geometries: [a.union(b)] and [g.wkt] *)
  geom : Type;
  geom_union : geom -> geom -> geom;
  geom_wkt : geom -> string;
  (** the local directory tree *)
  local_fs : gmap string FsEntry;
  (** the object keys of a bucket; [None] when the listing call fails *)
  s3_keys : string -> option (list string);
  (** [gpd.read_file] on a geometry file, after [_download_if_s3] *)
  read_vector : string -> VectorRead geom;
  (** [pd.read_csv] (through [_read_csv]); a row maps column names to cells *)
  read_csv : string -> option (list (gmap string PyVal));
  (** [gpd.read_file(path, layer=None)] in [temp_load_gpkg], after the
      download of a remote file; [None] when the fetch or the parse raises *)
  read_gpkg : string -> option GeoDataFrame;
  (** whether the engine accepts a statement on the current tables *)
  db_accepts : Database -> Statement -> bool;
  (** [unicodedata.normalize('NFKC', _)] *)
  normalize_nfkc : string -> string;
  (** whether [urllib.parse] accepts a host that holds an address in
      brackets ([_check_bracketed_netloc], which reads it with [ipaddress]) *)
  bracketed_host_ok : string -> bool }.

(** [DatabaseLoader]: the two version ids ([self.engine] is the
    database of the state). *)
Record DatabaseLoader := mkLoader {
  hand_version_id : string;
  nwm_version_id : string }.


(** [_generate_uuid(self, input_str)] *)
Definition _generate_uuid (self : DatabaseLoader) (input_str : string) : string :=
  Uuid.str (Uuid.uuid5 Uuid.NAMESPACE_DNS input_str).

(** [enumerate(l)] *)
Definition enumerate {A} (l : list A) : list (nat * A) :=
  combine (seq 0 (length l)) l.

(** [is_s3_path] *)
Definition is_s3_path (path : string) : bool := PyStr.startswith path "s3://".

(** [os.path.join(a, b)] (POSIX) *)
Definition path_join (a b : string) : string :=
  if PyStr.startswith b "/" then b
  else if String.eqb a EmptyString || PyStr.endswith a "/" then a ++ b
  else a ++ "/" ++ b.

(** [part.isdigit() and len(part) == 8] *)
Definition is_huc (part : string) : bool :=
  PyStr.isdigit part && Nat.eqb (PyStr.len part) 8.

(** The inner loop of the remote branch of [_get_catchment_dirs]: the
    prefixes one key adds to [dirs]. *)
Definition scan_parts (parts : list string) (dirs : gset string) : gset string :=
  fold_left
    (fun (dirs : gset string) (ip : nat * string) =>
       let '(i, part) := ip in
       if is_huc part && Nat.ltb (i + 1) (length parts)
          && String.eqb (nth (i + 1) parts EmptyString) "branches"
       then
         let catchment_path := PyStr.join "/" (firstn (i + 3) parts) in
         if negb (String.eqb catchment_path EmptyString) then {[ catchment_path ]} ∪ dirs
         else dirs
       else dirs)
    (enumerate (firstn (length parts - 2) parts)) dirs.

Section Loader.

Variable E : Env.
Variable self : DatabaseLoader.

(** [parse_s3_path]: the host and the path of [urlparse], the path
    without its leading slashes. *)
Definition parse_s3_path (s3_uri : string) : Res (string * string) :=
  res_bind (Url.urlparse (normalize_nfkc E) (bracketed_host_ok E) s3_uri)
    (fun parsed => Ok (snd (fst parsed), PyStr.lstrip "/"%char (snd parsed))).

(** [list_s3_objects]: every key of the bucket that starts with the prefix. *)
Definition list_s3_objects (s3_prefix : string) : Res (list string) :=
  res_bind (parse_s3_path s3_prefix) (fun bp =>
    match s3_keys E (fst bp) with
    | None => Raise (StorageError s3_prefix)
    | Some keys => Ok (List.filter (fun k => PyStr.startswith k (snd bp)) keys)
    end).

(** [os.listdir] *)
Definition listdir (p : string) : Res (list string) :=
  match local_fs E !! p with
  | Some (FsDir names) => Ok names
  | _ => Raise (StorageError p)
  end.

(** [os.path.isdir] *)
Definition isdir (p : string) : bool :=
  match local_fs E !! p with
  | Some (FsDir _) | Some FsDirNoList => true
  | _ => false
  end.

(** The local branch of [_get_catchment_dirs], over the names [ds] that
    [os.listdir(base_dir)] returned. *)
Fixpoint local_catchment_dirs (base_dir : string) (ds : list string) : Res (list string) :=
  match ds with
  | [] => Ok []
  | d :: ds' =>
      let huc_path := path_join base_dir d in
      res_bind
        (if isdir huc_path && PyStr.isdigit d && Nat.eqb (PyStr.len d) 8 then
           let branches_path := path_join huc_path "branches" in
           if isdir branches_path then
             res_bind (listdir branches_path) (fun cds =>
               Ok (map (path_join branches_path)
                     (List.filter (fun cd => isdir (path_join branches_path cd)) cds)))
           else Ok []
         else Ok [])
        (fun here =>
           res_bind (local_catchment_dirs base_dir ds') (fun rest => Ok (here ++ rest)%list))
  end.

(** [_get_catchment_dirs] *)
Definition _get_catchment_dirs (base_dir : string) : Res (list string) :=
  if is_s3_path base_dir then
    res_bind (list_s3_objects base_dir) (fun objects =>
      let dirs := fold_left (fun dirs obj => scan_parts (PyStr.split "/" obj) dirs)
                            objects (∅ : gset string) in
      res_bind (parse_s3_path base_dir) (fun bp =>
        Ok (map (fun d => "s3://" ++ fst bp ++ "/" ++ d) (elements dirs))))
  else
    res_bind (listdir base_dir) (local_catchment_dirs base_dir).

(** [_get_files] *)
Definition _get_files (directory extension pattern : string) : Res (list string) :=
  if is_s3_path directory then
    res_bind (list_s3_objects directory) (fun objects =>
      res_map
        (fun key => res_bind (parse_s3_path directory) (fun bp =>
                      Ok ("s3://" ++ fst bp ++ "/" ++ key)))
        (List.filter (fun key => PyStr.endswith key extension && PyStr.contains key pattern)
           objects))
  else
    res_bind (listdir directory) (fun names =>
      Ok (map (path_join directory)
            (List.filter (fun f => PyStr.endswith f extension && PyStr.contains f pattern)
               names))).

(** [_merge_geometries], on the [union_all()] of the new frame *)
Definition _merge_geometries (existing_geom : option (geom E)) (new_union : geom E) : geom E :=
  match existing_geom with
  | None => new_union
  | Some g => geom_union E g new_union
  end.

(** [_read_csv] *)
Definition _read_csv (csv_path : string) : Res (list (gmap string PyVal)) :=
  match read_csv E csv_path with
  | Some df => Ok df
  | None => Raise (ReadError csv_path)
  end.

(** [conn.execute(text(...), params)]: the statement is recorded as
    submitted; a suppressed insert does nothing; otherwise the engine
    accepts it and the tables change, or refuses it and the call raises. *)
Definition execute (st : Statement) : M nat :=
  fun s =>
    let sql := (st_sql s ++ [st])%list in
    if suppressed st (st_db s) then
      (Ok 0, mkState (st_db s) (st_log s) sql (st_catchment_id s))
    else if db_accepts E (st_db s) st then
      let '(db', rowcount) := apply_stmt st (st_db s) in
      (Ok rowcount, mkState db' (st_log s) sql (st_catchment_id s))
    else
      (Raise (DbError st), mkState (st_db s) (st_log s) sql (st_catchment_id s)).

(** The loop of [load_catchment_geometry] over the geometry files. *)
Fixpoint merge_files (gpkg_files : list string) (merged_geom : option (geom E))
  : M (option (geom E)) :=
  match gpkg_files with
  | [] => ret merged_geom
  | gpkg :: rest =>
      match read_vector E gpkg with
      | VError =>
          print (LGeometryFileError gpkg (ReadError gpkg)) ;;
          merge_files rest merged_geom
      | VEmpty => merge_files rest merged_geom
      | VGeom g => merge_files rest (Some (_merge_geometries merged_geom g))
      end
  end.

(** [load_catchment_geometry] *)
Definition load_catchment_geometry (catchment_dir : string) : M (option string) :=
  print LLoadingGeometry ;;
  gpkg_files <- lift (_get_files catchment_dir ".gpkg" "gw_catchments") ;;
  match gpkg_files with
  | [] => print LNoGeometryFiles ;; ret None
  | _ =>
      merged_geom <- merge_files gpkg_files None ;;
      match merged_geom with
      | None => ret None
      | Some g =>
          let catchment_id := _generate_uuid self (geom_wkt E g) in
          execute (InsertCatchment
                     (mkCatchment catchment_id (hand_version_id self) (geom_wkt E g))) ;;
          ret (Some catchment_id)
      end
  end.

(** [safe_get] of [_prepare_hydro_params] *)
Definition safe_get (row : gmap string PyVal) (key : string) (default : PyVal) : PyVal :=
  match row !! key with
  | Some v => v
  | None => default
  end.

(** [_prepare_hydro_params] *)
Definition _prepare_hydro_params (row : gmap string PyVal) (catchment_id : string)
  : HydrotablesRow :=
  mkHydro catchment_id (hand_version_id self) (nwm_version_id self)
    [ ("hydro_id", safe_get row "HydroID" PNone);
      ("feat_id", safe_get row "feature_id" PNone);
      ("order_id", safe_get row "order" (PInt 0));
      ("num_cells", safe_get row "Number of Cells" (PInt 0));
      ("surf_area", safe_get row "SurfaceArea (m2)" PNone);
      ("bed_area", safe_get row "BedArea (m2)" PNone);
      ("top_width", safe_get row "TopWidth (m)" PNone);
      ("length", safe_get row "LENGTHKM" PNone);
      ("area", safe_get row "AREASQKM" PNone);
      ("wet_perim", safe_get row "WettedPerimeter (m)" PNone);
      ("hydraulic_r", safe_get row "HydraulicRadius (m)" PNone);
      ("wet_area", safe_get row "WetArea (m2)" PNone);
      ("volume", safe_get row "Volume (m3)" PNone);
      ("slope", safe_get row "SLOPE" PNone);
      ("manning_n", safe_get row "ManningN" PNone);
      ("stage", safe_get row "stage" PNone);
      ("discharge", safe_get row "discharge_cms" PNone);
      ("def_discharge", safe_get row "default_discharge_cms" PNone);
      ("def_volume", safe_get row "default_Volume (m3)" PNone);
      ("def_wet_area", safe_get row "default_WetArea (m2)" PNone);
      ("def_hydraulic_r", safe_get row "default_HydraulicRadius (m)" PNone);
      ("def_manning_n", safe_get row "default_ManningN" PNone);
      ("bath_source", safe_get row "Bathymetry_source" PNone);
      ("subdiv_applied", safe_get row "subdiv_applied" (PBool false));
      ("overbank_n", safe_get row "overbank_n" PNone);
      ("channel_n", safe_get row "channel_n" PNone);
      ("subdiv_discharge", safe_get row "subdiv_discharge_cms" PNone);
      ("calb_applied", safe_get row "calb_applied" (PBool false));
      ("lake_id", safe_get row "LakeID" PNone) ].

(** [_insert_hydro_records] *)
Definition _insert_hydro_records (df : list (gmap string PyVal)) (catchment_id : string)
  : M unit :=
  for_each df (fun row =>
    execute (InsertHydrotable (_prepare_hydro_params row catchment_id)) ;; ret tt).

(** [load_hydrotables] *)
Definition load_hydrotables (catchment_dir catchment_id : string) : M unit :=
  print LLoadingHydrotables ;;
  csv_files <- lift (_get_files catchment_dir ".csv" "hydroTable_") ;;
  match csv_files with
  | [] => print LNoHydrotableFiles ;; ret tt
  | _ =>
      for_each csv_files (fun csv_path =>
        try_except
          (df <- lift (_read_csv csv_path) ;;
           _insert_hydro_records df catchment_id)
          (fun e => print (LHydrotableError csv_path e) ;; raise e))
  end.

(** [_insert_rem_rasters] *)
Fixpoint _insert_rem_rasters (files : list string) (catchment_id : string)
  (rem_raster_ids : list string) : M (list string) :=
  match files with
  | [] => ret rem_raster_ids
  | file_path :: rest =>
      let file_id := _generate_uuid self file_path in
      execute (InsertRemRaster
                 (mkRem file_id catchment_id (hand_version_id self) file_path)) ;;
      _insert_rem_rasters rest catchment_id (rem_raster_ids ++ [file_id])
  end.

(** [_insert_catchment_rasters] *)
Definition _insert_catchment_rasters (files : list string) (rem_raster_ids : list string)
  : M unit :=
  for_each files (fun file_path =>
    let catchment_raster_id := _generate_uuid self file_path in
    match rem_raster_ids with
    | rem_id :: _ =>
        execute (InsertCatchmentRaster
                   (mkCatchmentRaster catchment_raster_id rem_id file_path)) ;;
        ret tt
    | [] => ret tt
    end).

(** [load_rasters] *)
Definition load_rasters (catchment_dir catchment_id : string) : M unit :=
  print LLoadingRemRasters ;;
  rem_files <- lift (_get_files catchment_dir ".tif" "rem_zeroed_") ;;
  match rem_files with
  | [] => print LNoRemRasterFiles ;; ret tt
  | _ =>
      print LLoadingCatchmentRasters ;;
      catchment_files <- lift (_get_files catchment_dir ".tif" "gw_catchments") ;;
      try_except
        (rem_raster_ids <- _insert_rem_rasters rem_files catchment_id [] ;;
         match catchment_files with
         | [] => print LNoCatchmentRasterFiles
         | _ => _insert_catchment_rasters catchment_files rem_raster_ids
         end)
        (fun e => print (LRasterError e) ;; raise e)
  end.

(** [_cleanup_catchment] *)
Definition _cleanup_catchment (catchment_id : option string) : M unit :=
  match catchment_id with
  | None => ret tt
  | Some cid =>
      print (LCleaningUp cid) ;;
      with_transaction
        (execute (DeleteHydrotables cid (hand_version_id self)) ;;
         execute (DeleteRemRasters cid (hand_version_id self)) ;;
         execute (DeleteCatchments cid (hand_version_id self)) ;;
         ret tt)
  end.

(** Assignment to, and use of, the local [catchment_id] of [load_hand_data]. *)
Definition set_catchment_id (v : option string) : M unit :=
  fun s => (Ok tt, mkState (st_db s) (st_log s) (st_sql s) (Bound v)).

Definition get_catchment_id : M (option string) :=
  fun s => match st_catchment_id s with
           | Bound v => (Ok v, s)
           | Unbound => (Raise (UnboundLocalError "catchment_id"), s)
           end.

(** The body of the [with] block of [load_hand_data]; its [continue]
    leaves the block normally. *)
Definition catchment_transaction (catchment_dir : string) : M unit :=
  catchment_id <- load_catchment_geometry catchment_dir ;;
  set_catchment_id catchment_id ;;
  match catchment_id with
  | None => print (LSkipping catchment_dir)
  | Some cid =>
      load_hydrotables catchment_dir cid ;;
      load_rasters catchment_dir cid
  end.

(** One iteration of the loop of [load_hand_data]. *)
Definition process_catchment (idx total : nat) (catchment_dir : string) : M unit :=
  print (LProcessing idx total catchment_dir) ;;
  try_except
    (with_transaction (catchment_transaction catchment_dir))
    (fun e =>
       print (LErrorProcessing catchment_dir e) ;;
       catchment_id <- get_catchment_id ;;
       _cleanup_catchment catchment_id).

Fixpoint process_catchments (idx total : nat) (catchment_dirs : list string) : M unit :=
  match catchment_dirs with
  | [] => ret tt
  | catchment_dir :: rest =>
      process_catchment idx total catchment_dir ;;
      process_catchments (S idx) total rest
  end.

(** [load_hand_data]; its local [catchment_id] starts unbound. *)
Definition load_hand_data (hand_dir : string) : M unit :=
  fun s =>
    (catchment_dirs <- lift (_get_catchment_dirs hand_dir) ;;
     print (LFound (length catchment_dirs)) ;;
     process_catchments 1 (length catchment_dirs) catchment_dirs)
      (mkState (st_db s) (st_log s) (st_sql s) Unbound).

(** The bound parameters of the [NWM_Features] insert. *)
Definition stream_params (row : StreamRecord) : NwmFeaturesRow :=
  mkNwmFeature (sr_ID row) (nwm_version_id self)
    [ ("geom", PStr (sr_geometry_wkt row));
      ("to_feature", sr_to row);
      ("order", sr_order_ row);
      ("lake", sr_Lake row);
      ("gages", sr_gages row);
      ("slope", sr_Slope row);
      ("mainstem", sr_mainstem row) ].

(** The loop of [load_nwm_features] over [gdf.iterrows()], threading
    [dropped_count]. *)
Fixpoint insert_streams (rows : list StreamRecord) (dropped_count : nat) : M nat :=
  match rows with
  | [] => ret dropped_count
  | row :: rest =>
      rowcount <- execute (InsertNwmFeature (stream_params row)) ;;
      insert_streams rest (if Nat.eqb rowcount 0 then S dropped_count else dropped_count)
  end.

(** [temp_load_gpkg]: a plain function (no [@contextmanager], no [yield]);
    both of its branches return the frame [gpd.read_file] gives. *)
Definition temp_load_gpkg (gpkg_uri : string) : Res GeoDataFrame :=
  match read_gpkg E gpkg_uri with
  | Some gdf => Ok gdf
  | None => Raise (ReadError gpkg_uri)
  end.

(** [load_nwm_features]; the value returned is the count it prints.  The
    [with] statement is given the frame [temp_load_gpkg] returns. *)
Definition load_nwm_features (gpkg_path : string) : M nat :=
  print LLoadingNwmFeatures ;;
  frame <- lift (temp_load_gpkg gpkg_path) ;;
  with_no_context_manager "GeoDataFrame" frame (fun gdf =>
    match gdf_getitem gdf "nwm_streams" with
    | None => raise (KeyError "nwm_streams")
    | Some gdf =>
        dropped_count <- with_transaction (insert_streams gdf 0) ;;
        print (LDroppedDuplicates dropped_count) ;;
        ret dropped_count
    end).

End Loader.

(* ===================================================================== *)
(** ** Vocabulary of the properties *)
(* ===================================================================== *)

(** The rows one catchment owns under one hand version, table by table.
    A catchment-raster row carries no owner column: it belongs to the
    catchment of the REM raster row it links to. *)
Definition catchment_rows (cid hv : string) (db : Database) : list CatchmentsRow :=
  List.filter (fun r => owned_by cid hv (cat_catchment_id r) (cat_hand_version_id r))
    (Catchments db).

Definition hydrotable_rows (cid hv : string) (db : Database) : list HydrotablesRow :=
  List.filter (fun r => owned_by cid hv (hy_catchment_id r) (hy_hand_version_id r))
    (Hydrotables db).

Definition rem_raster_rows (cid hv : string) (db : Database) : list RemRastersRow :=
  List.filter (fun r => owned_by cid hv (rem_catchment_id r) (rem_hand_version_id r))
    (HAND_REM_Rasters db).

Definition catchment_raster_rows (cid hv : string) (db : Database) : list CatchmentRastersRow :=
  List.filter
    (fun r => existsb (fun m => bool_decide (rem_raster_id m = cr_rem_raster_id r))
                (rem_raster_rows cid hv db))
    (HAND_Catchment_Rasters db).

Definition visible_rows (cid hv : string) (db : Database) : nat :=
  length (catchment_rows cid hv db) + length (hydrotable_rows cid hv db)
  + length (rem_raster_rows cid hv db) + length (catchment_raster_rows cid hv db).

(** The tables after the three deletes of [_cleanup_catchment]. *)
Definition purge (cid hv : string) (db : Database) : Database :=
  fst (apply_stmt (DeleteCatchments cid hv)
         (fst (apply_stmt (DeleteRemRasters cid hv)
                 (fst (apply_stmt (DeleteHydrotables cid hv) db))))).

(** The engine accepts every statement of a class, whatever the tables. *)
Definition always_accepts (E : Env) (P : Statement -> bool) : Prop :=
  forall db st, P st = true -> db_accepts E db st = true.

Definition is_raster_insert (st : Statement) : bool :=
  match st with
  | InsertRemRaster _ | InsertCatchmentRaster _ => true
  | _ => false
  end.

Definition is_nwm_insert (st : Statement) : bool :=
  match st with
  | InsertNwmFeature _ => true
  | _ => false
  end.

(** The criterion of the specification on the segments of a path: some
    segment is an 8-digit string, the next one is [branches], and one more
    follows; [d] is the path up to and including that last one. *)
Definition qualifies (parts : list string) (d : string) : Prop :=
  exists i huc unit,
    nth_error parts i = Some huc /\ is_huc huc = true
    /\ nth_error parts (i + 1) = Some "branches"
    /\ nth_error parts (i + 2) = Some unit
    /\ d = PyStr.join "/" (firstn (i + 3) parts).

(** What the local branch of [_get_catchment_dirs] looks at: a directory
    [base_dir/d/branches/cd] whose [d] is an 8-digit name listed in
    [base_dir]. *)
Definition local_unit (E : Env) (base_dir : string) (names : list string) (p : string) : Prop :=
  exists d cd cds,
    In d names /\ is_huc d = true
    /\ isdir E (path_join base_dir d) = true
    /\ isdir E (path_join (path_join base_dir d) "branches") = true
    /\ listdir E (path_join (path_join base_dir d) "branches") = Ok cds
    /\ In cd cds
    /\ isdir E (path_join (path_join (path_join base_dir d) "branches") cd) = true
    /\ p = path_join (path_join (path_join base_dir d) "branches") cd.

(** Every [branches] directory the local walk lists can be listed. *)
Definition branches_listable (E : Env) (base_dir : string) (names : list string) : Prop :=
  forall d,
    In d names -> is_huc d = true ->
    isdir E (path_join base_dir d) = true ->
    isdir E (path_join (path_join base_dir d) "branches") = true ->
    exists cds, listdir E (path_join (path_join base_dir d) "branches") = Ok cds.

(** Submitting a list of statements one after the other. *)
Fixpoint execute_all (E : Env) (sts : list Statement) : M unit :=
  match sts with
  | [] => ret tt
  | st :: rest => execute E st ;; execute_all E rest
  end.

(** The rows [load_rasters] writes. *)
Definition rem_rows_of (self : DatabaseLoader) (catchment_id : string) (files : list string)
  : list RemRastersRow :=
  map (fun f => mkRem (_generate_uuid self f) catchment_id (hand_version_id self) f) files.

Definition catchment_raster_rows_of (self : DatabaseLoader) (rem_id : string)
  (files : list string) : list CatchmentRastersRow :=
  map (fun f => mkCatchmentRaster (_generate_uuid self f) rem_id f) files.

(** The tables after a list of statements, all of them carried out. *)
Definition apply_all (sts : list Statement) (db : Database) : Database :=
  fold_left (fun db st => fst (apply_stmt st db)) sts db.


(** The state with more lines on the console. *)
Definition logged (s : State) (lines : list LogLine) : State :=
  mkState (st_db s) (st_log s ++ lines) (st_sql s) (st_catchment_id s).

(** The statements [load_rasters] submits for the REM files [rem_files]
    and the catchment-raster files [catchment_files]. *)
Definition raster_statements (self : DatabaseLoader) (catchment_id : string)
  (rem_files catchment_files : list string) : list Statement :=
  (map InsertRemRaster (rem_rows_of self catchment_id rem_files)
   ++ map InsertCatchmentRaster
        (catchment_raster_rows_of self (_generate_uuid self (hd EmptyString rem_files))
           catchment_files))%list.


(** The geometry the loop of [load_catchment_geometry] ends with, and the
    lines it prints for the files it could not read. *)
Fixpoint merged_geometry (E : Env) (gpkg_files : list string) (acc : option (geom E))
  : option (geom E) :=
  match gpkg_files with
  | [] => acc
  | gpkg :: rest =>
      match read_vector E gpkg with
      | VGeom g => merged_geometry E rest (Some (_merge_geometries E acc g))
      | _ => merged_geometry E rest acc
      end
  end.

Fixpoint geometry_error_lines (E : Env) (gpkg_files : list string) : list LogLine :=
  match gpkg_files with
  | [] => []
  | gpkg :: rest =>
      match read_vector E gpkg with
      | VError => LGeometryFileError gpkg (ReadError gpkg) :: geometry_error_lines E rest
      | _ => geometry_error_lines E rest
      end
  end.

(** The state with the local [catchment_id] assigned. *)
Definition assigned (s : State) (v : option string) : State :=
  mkState (st_db s) (st_log s) (st_sql s) (Bound v).

(** Two frames: the local variable is untouched; the [Catchments] and
    [Hydrotables] tables are untouched. *)
Definition keeps_catchment_id (s s' : State) : Prop :=
  st_catchment_id s' = st_catchment_id s.


(** A relation between the state before and after a computation that every
    run of it respects. *)
Definition respects (R : State -> State -> Prop) {A} (m : M A) : Prop :=
  forall s r s', m s = (r, s') -> R s s'.

(* ===================================================================== *)
(** ** Example inputs *)
(* ===================================================================== *)

(** Modelled from the spec: the primary keys of the persisted schema
    ([Catchments.catchment_id], [HAND_REM_Rasters.rem_raster_id],
    [HAND_Catchment_Rasters.catchment_raster_id]); the schema file is not
    part of the source.  An insert that repeats a key is refused, every
    other statement is accepted. *)
Definition primary_key_engine (db : Database) (st : Statement) : bool :=
  match st with
  | InsertCatchment r =>
      negb (existsb (fun x => bool_decide (cat_catchment_id x = cat_catchment_id r))
              (Catchments db))
  | InsertRemRaster r =>
      negb (existsb (fun x => bool_decide (rem_raster_id x = rem_raster_id r))
              (HAND_REM_Rasters db))
  | InsertCatchmentRaster r =>
      negb (existsb (fun x => bool_decide (cr_catchment_raster_id x = cr_catchment_raster_id r))
              (HAND_Catchment_Rasters db))
  | _ => true
  end.

Definition permissive_engine (db : Database) (st : Statement) : bool := true.

(** A local tree.  [/data] is the tree of the discovery example;
    [/nested] holds a region directory one level below the root; [/two]
    holds two units; the single directories are units with something
    missing or broken. *)
Definition example_fs : gmap string FsEntry :=
  list_to_map
    [ ("/data", FsDir ["12345678"]);
      ("/data/12345678", FsDir ["branches"; "nope"]);
      ("/data/12345678/branches", FsDir ["unitA"]);
      ("/data/12345678/branches/unitA",
        FsDir ["gw_catchments_0.gpkg"; "hydroTable_0.csv"; "rem_zeroed_0.tif";
               "gw_catchments_0.tif"]);
      ("/data/12345678/nope", FsDir ["unitB"]);
      ("/data/12345678/nope/unitB", FsDir ["gw_catchments_0.gpkg"]);
      ("/nested", FsDir ["x"]);
      ("/nested/x", FsDir ["12345678"]);
      ("/nested/x/12345678", FsDir ["branches"]);
      ("/nested/x/12345678/branches", FsDir ["unitA"]);
      ("/nested/x/12345678/branches/unitA", FsDir ["gw_catchments_0.gpkg"]);
      ("/two", FsDir ["12345678"]);
      ("/two/12345678", FsDir ["branches"]);
      ("/two/12345678/branches", FsDir ["u1"; "u2"]);
      ("/two/12345678/branches/u1",
        FsDir ["gw_catchments_0.gpkg"; "hydroTable_0.csv"; "rem_zeroed_0.tif";
               "gw_catchments_0.tif"]);
      ("/two/12345678/branches/u2", FsDir ["gw_catchments_0.gpkg"; "hydroTable_0.csv"]);
      ("/norem", FsDir ["gw_catchments_0.tif"]);
      ("/nogeom", FsDir ["notes.txt"]);
      ("/emptygeom", FsDir ["gw_catchments_empty.gpkg"; "gw_catchments_corrupt.gpkg"]);
      ("/nohydro", FsDir ["gw_catchments_0.gpkg"; "rem_zeroed_0.tif"; "gw_catchments_0.tif"]);
      ("/badhydro", FsDir ["gw_catchments_0.gpkg"; "hydroTable_corrupt.csv"]) ].

(** The object keys of two buckets: [bucket] mirrors [/data], [nested]
    mirrors [/nested]. *)
Definition example_keys (bucket : string) : option (list string) :=
  if String.eqb bucket "bucket" then
    Some [ "12345678/branches/unitA/gw_catchments_0.gpkg";
           "12345678/branches/unitA/hydroTable_0.csv";
           "12345678/branches/unitA/rem_zeroed_0.tif";
           "12345678/branches/unitA/gw_catchments_0.tif";
           "12345678/nope/unitB/gw_catchments_0.gpkg" ]
  else if String.eqb bucket "nested" then
    Some [ "x/12345678/branches/unitA/gw_catchments_0.gpkg" ]
  else None.

Definition example_csv_rows : list (gmap string PyVal) :=
  [ {[ "HydroID" := PInt 1; "stage" := PStr "0.0" ]};
    {[ "HydroID" := PInt 1; "stage" := PStr "0.3" ]};
    {[ "HydroID" := PInt 1; "stage" := PStr "0.6" ]} ].

Definition example_streams : list StreamRecord :=
  [ mkStream (PInt 101) "LINESTRING(0 0, 1 1)" (PInt 102) (PInt 1) (PInt 0) PNone (PStr "0.01") (PInt 7);
    mkStream (PInt 102) "LINESTRING(1 1, 2 2)" (PInt 0) (PInt 2) (PInt 0) PNone (PStr "0.02") (PInt 7);
    mkStream (PInt 101) "LINESTRING(0 0, 1 1)" (PInt 102) (PInt 1) (PInt 0) PNone (PStr "0.01") (PInt 7) ].

(** A frame whose indexing by ["nwm_streams"] gives the example records. *)
Definition example_frame : GeoDataFrame :=
  mkFrame (fun name => if String.eqb name "nwm_streams" then Some example_streams else None).

(** Geometries are strings here; a geometry file holds one polygon named
    after its path, unless its name says it is empty or corrupt.  The
    hosts of the examples are ASCII names without brackets, for which
    [urlparse] consults neither the normalisation nor the address check. *)
Definition example_env (engine : Database -> Statement -> bool) : Env :=
  mkEnv string (fun a b => a ++ " U " ++ b) (fun g => g)
    example_fs example_keys
    (fun p => if PyStr.contains p "corrupt" then VError
              else if PyStr.contains p "empty" then VEmpty
              else VGeom ("POLYGON(" ++ p ++ ")"))
    (fun p => if PyStr.contains p "corrupt" then None else Some example_csv_rows)
    (fun p => if PyStr.contains p "corrupt" then None else Some example_frame)
    engine
    (fun s => s) (fun _ => false).

Definition example_loader : DatabaseLoader := mkLoader "v3.0" "3.0".

(** The catchment row of unit [u1] (resp. [u2]) of [/two]. *)
Definition example_u1 : CatchmentsRow :=
  let wkt := "POLYGON(/two/12345678/branches/u1/gw_catchments_0.gpkg)" in
  mkCatchment (_generate_uuid example_loader wkt) "v3.0" wkt.

Definition example_u2 : CatchmentsRow :=
  let wkt := "POLYGON(/two/12345678/branches/u2/gw_catchments_0.gpkg)" in
  mkCatchment (_generate_uuid example_loader wkt) "v3.0" wkt.


(* ===================================================================== *)
(** ** Vocabulary of the further properties *)
(* ===================================================================== *)

(** Characters [urlparse] leaves alone inside a path: not a query or
    fragment mark, not a control character. *)
Definition key_char_ok (c : ascii) : bool :=
  negb (Ascii.eqb c "?") && negb (Ascii.eqb c "#") && Nat.leb 32 (nat_of_ascii c).

(** Characters of a host name that [urlparse] leaves alone: ASCII, and
    neither the end of the host nor a bracket of an address literal. *)
Definition bucket_char_ok (c : ascii) : bool :=
  key_char_ok c && Url.is_ascii c && negb (Ascii.eqb c "/") && negb (Ascii.eqb c "[")
  && negb (Ascii.eqb c "]").

(** [f"s3://{bucket}/{key}"] *)
Definition s3_uri (bucket key : string) : string :=
  "s3://" ++ bucket ++ "/" ++ key.

(** The geometries of the files that read as non-empty frames, in order. *)
Fixpoint readable_geoms (E : Env) (gpkg_files : list string) : list (geom E) :=
  match gpkg_files with
  | [] => []
  | gpkg :: rest =>
      match read_vector E gpkg with
      | VGeom g => g :: readable_geoms E rest
      | _ => readable_geoms E rest
      end
  end.

(** The rows of all rating tables of a unit, file after file. *)
Fixpoint all_csv_rows (E : Env) (csv_files : list string) : list (gmap string PyVal) :=
  match csv_files with
  | [] => []
  | csv_path :: rest =>
      match read_csv E csv_path with
      | Some df => (df ++ all_csv_rows E rest)%list
      | None => all_csv_rows E rest
      end
  end.

Definition is_hydrotable_insert (st : Statement) : bool :=
  match st with
  | InsertHydrotable _ => true
  | _ => false
  end.

Definition is_delete (st : Statement) : bool :=
  match st with
  | DeleteHydrotables _ _ | DeleteRemRasters _ _ | DeleteCatchments _ _ => true
  | _ => false
  end.

(** The statements [load_hand_data] can submit for a loader: inserts of
    rows stamped with its hand version, catchment-raster inserts, and
    deletes scoped to its hand version. *)
Definition by_loader (self : DatabaseLoader) (st : Statement) : bool :=
  match st with
  | InsertCatchment r => bool_decide (cat_hand_version_id r = hand_version_id self)
  | InsertHydrotable r => bool_decide (hy_hand_version_id r = hand_version_id self)
  | InsertRemRaster r => bool_decide (rem_hand_version_id r = hand_version_id self)
  | InsertCatchmentRaster _ => true
  | InsertNwmFeature _ => false
  | DeleteHydrotables _ h | DeleteRemRasters _ h | DeleteCatchments _ h =>
      bool_decide (h = hand_version_id self)
  end.

(** The statements submitted between two states all pass a test. *)
Definition submitted_only (P : Statement -> bool) (s s' : State) : Prop :=
  exists l, st_sql s' = (st_sql s ++ l)%list /\ forallb P l = true.

(** The console only grew. *)
Definition log_extends (s s' : State) : Prop :=
  exists l, st_log s' = (st_log s ++ l)%list.

(** Rows of every other hand version, and the feature table, are as they
    were; [HAND_Catchment_Rasters] lost nothing. *)
Definition other_versions_kept (hv : string) (s s' : State) : Prop :=
  (forall h, h <> hv ->
     List.filter (fun r => bool_decide (cat_hand_version_id r = h)) (Catchments (st_db s'))
     = List.filter (fun r => bool_decide (cat_hand_version_id r = h)) (Catchments (st_db s))
     /\ List.filter (fun r => bool_decide (hy_hand_version_id r = h)) (Hydrotables (st_db s'))
        = List.filter (fun r => bool_decide (hy_hand_version_id r = h)) (Hydrotables (st_db s))
     /\ List.filter (fun r => bool_decide (rem_hand_version_id r = h))
          (HAND_REM_Rasters (st_db s'))
        = List.filter (fun r => bool_decide (rem_hand_version_id r = h))
            (HAND_REM_Rasters (st_db s)))
  /\ NWM_Features (st_db s') = NWM_Features (st_db s)
  /\ (forall r, In r (HAND_Catchment_Rasters (st_db s)) ->
                 In r (HAND_Catchment_Rasters (st_db s'))).

(** Only the [Hydrotables] table may differ, and only by rows added at its
    end. *)
Definition only_appends_hydrotables (s s' : State) : Prop :=
  Catchments (st_db s') = Catchments (st_db s)
  /\ HAND_REM_Rasters (st_db s') = HAND_REM_Rasters (st_db s)
  /\ HAND_Catchment_Rasters (st_db s') = HAND_Catchment_Rasters (st_db s)
  /\ NWM_Features (st_db s') = NWM_Features (st_db s)
  /\ exists added, Hydrotables (st_db s') = (Hydrotables (st_db s) ++ added)%list.

(** Only the two raster tables may differ, and only by rows added at
    their end. *)
Definition only_appends_rasters (s s' : State) : Prop :=
  Catchments (st_db s') = Catchments (st_db s)
  /\ Hydrotables (st_db s') = Hydrotables (st_db s)
  /\ NWM_Features (st_db s') = NWM_Features (st_db s)
  /\ (exists added, HAND_REM_Rasters (st_db s') = (HAND_REM_Rasters (st_db s) ++ added)%list)
  /\ (exists added, HAND_Catchment_Rasters (st_db s')
                    = (HAND_Catchment_Rasters (st_db s) ++ added)%list).

(** Once the local [catchment_id] is bound it stays bound. *)
Definition stays_bound (s s' : State) : Prop :=
  st_catchment_id s <> Unbound -> st_catchment_id s' <> Unbound.

(** The state after a rollback: the tables of [s], everything else of [s']. *)
Definition rolled_back (s s' : State) : State :=
  mkState (st_db s) (st_log s') (st_sql s') (st_catchment_id s').


(** An environment whose bucket [flat] holds an object directly under a
    [branches] prefix. *)
Definition flat_env : Env :=
  mkEnv string (fun a b => a ++ " U " ++ b) (fun g => g) ∅
    (fun bucket => if String.eqb bucket "flat"
                   then Some ["12345678/branches/readme.txt"] else None)
    (fun _ => VError) (fun _ => None) (fun _ => None) permissive_engine
    (fun s => s) (fun _ => false).

(* ===================================================================== *)
(** ** The identity generator *)
(* ===================================================================== *)

Local Open Scope list_scope.

Example sha1_abc :
  Uuid.hex 40 (Uuid.be_int (Uuid.sha1 (Uuid.bytes_of_string "abc")))
  = "a9993e364706816aba3e25717850c26c9cd0d89d".
Proof. vm_compute. reflexivity. Qed.

Example uuid5_python_org :
  Uuid.str (Uuid.uuid5 Uuid.NAMESPACE_DNS "python.org")
  = "886313e1-3b8a-5372-9b90-0c9aee199e5d".
Proof. vm_compute. reflexivity. Qed.









(* ===================================================================== *)
(** ** Reasoning about the interpreter *)
(* ===================================================================== *)

(** Combinators for [respects]. *)
Section Respects.

Variable R : State -> State -> Prop.
Hypothesis R_refl : forall s, R s s.
Hypothesis R_trans : forall a b c, R a b -> R b c -> R a c.

Lemma respects_ret {A} (a : A) : respects R (ret a).
Proof. intros s r s' H. inversion H; subst. apply R_refl. Qed.

Lemma respects_raise {A} (e : Exn) : respects R (@raise A e).
Proof. intros s r s' H. inversion H; subst. apply R_refl. Qed.

Lemma respects_lift {A} (x : Res A) : respects R (lift x).
Proof. intros s r s' H. inversion H; subst. apply R_refl. Qed.

Lemma respects_bind {A B} (m : M A) (k : A -> M B) :
  respects R m -> (forall a, respects R (k a)) -> respects R (bind m k).
Proof.
  intros Hm Hk s r s' H. unfold bind in H.
  destruct (m s) as [[a | e] s1] eqn:Em.
  - eapply R_trans; [eapply Hm, Em | eapply Hk, H].
  - inversion H; subst. eapply Hm, Em.
Qed.

Lemma respects_try_except {A} (m : M A) (h : Exn -> M A) :
  respects R m -> (forall e, respects R (h e)) -> respects R (try_except m h).
Proof.
  intros Hm Hh s r s' H. unfold try_except in H.
  destruct (m s) as [[a | e] s1] eqn:Em.
  - inversion H; subst. eapply Hm, Em.
  - eapply R_trans; [eapply Hm, Em | eapply Hh, H].
Qed.

Lemma respects_for_each {A} (xs : list A) (body : A -> M unit) :
  (forall x, respects R (body x)) -> respects R (for_each xs body).
Proof.
  intros Hb. induction xs as [| x xs IH]; cbn [for_each].
  - apply respects_ret.
  - apply respects_bind; [apply Hb | intros _; apply IH].
Qed.

(** The loader's steps, given that printing and the statements of a
    class respect the relation. *)
Variable E : Env.
Variable self : DatabaseLoader.
Hypothesis R_print : forall l, respects R (print l).

Lemma respects_execute_all (sts : list Statement) :
  (forall st, In st sts -> respects R (execute E st)) -> respects R (execute_all E sts).
Proof.
  induction sts as [| st sts IH]; intros Hs; cbn [execute_all].
  - apply respects_ret.
  - apply respects_bind; [apply Hs; left; reflexivity |].
    intros _. apply IH. intros st' Hin. apply Hs. right. exact Hin.
Qed.

Lemma respects_load_hydrotables (dir cid : string) :
  (forall r, respects R (execute E (InsertHydrotable r))) ->
  respects R (load_hydrotables E self dir cid).
Proof.
  intros Hx. unfold load_hydrotables.
  apply respects_bind; [apply R_print | intros _].
  apply respects_bind; [apply respects_lift | intros files].
  assert (Hloop : respects R
    (for_each files (fun csv_path =>
       try_except (bind (lift (_read_csv E csv_path))
                        (fun df => _insert_hydro_records E self df cid))
                  (fun e => bind (print (LHydrotableError csv_path e))
                                 (fun _ => raise e))))).
  { apply respects_for_each. intros csv.
    apply respects_try_except.
    - apply respects_bind; [apply respects_lift | intros df].
      unfold _insert_hydro_records. apply respects_for_each. intros row.
      apply respects_bind; [apply Hx | intros _; apply respects_ret].
    - intros e. apply respects_bind; [apply R_print | intros _; apply respects_raise]. }
  destruct files; [| exact Hloop].
  apply respects_bind; [apply R_print | intros _; apply respects_ret].
Qed.

Lemma respects_insert_rem_rasters (files : list string) (cid : string) (acc : list string) :
  (forall r, respects R (execute E (InsertRemRaster r))) ->
  respects R (_insert_rem_rasters E self files cid acc).
Proof.
  intros Hx. revert acc.
  induction files as [| f files IH]; intros acc; cbn [_insert_rem_rasters].
  - apply respects_ret.
  - apply respects_bind; [apply Hx | intros _; apply IH].
Qed.

Lemma respects_insert_catchment_rasters (files ids : list string) :
  (forall r, respects R (execute E (InsertCatchmentRaster r))) ->
  respects R (_insert_catchment_rasters E self files ids).
Proof.
  intros Hx. unfold _insert_catchment_rasters.
  apply respects_for_each. intros f. destruct ids.
  - apply respects_ret.
  - apply respects_bind; [apply Hx | intros _; apply respects_ret].
Qed.

Lemma respects_load_rasters (dir cid : string) :
  (forall st, is_raster_insert st = true -> respects R (execute E st)) ->
  respects R (load_rasters E self dir cid).
Proof.
  intros Hx. unfold load_rasters.
  apply respects_bind; [apply R_print | intros _].
  apply respects_bind; [apply respects_lift | intros rem_files].
  assert (Hmain : respects R
    (bind (print LLoadingCatchmentRasters) (fun _ =>
     bind (lift (_get_files E dir ".tif" "gw_catchments")) (fun catchment_files =>
     try_except
       (bind (_insert_rem_rasters E self rem_files cid []) (fun rem_raster_ids =>
          match catchment_files with
          | [] => print LNoCatchmentRasterFiles
          | _ => _insert_catchment_rasters E self catchment_files rem_raster_ids
          end))
       (fun e => bind (print (LRasterError e)) (fun _ => raise e)))))).
  { apply respects_bind; [apply R_print | intros _].
    apply respects_bind; [apply respects_lift | intros cfs].
    apply respects_try_except.
    - apply respects_bind.
      + apply respects_insert_rem_rasters. intros r. apply Hx. reflexivity.
      + intros ids. destruct cfs; [apply R_print |].
        apply respects_insert_catchment_rasters. intros r. apply Hx. reflexivity.
    - intros e. apply respects_bind; [apply R_print | intros _; apply respects_raise]. }
  destruct rem_files; [| exact Hmain].
  apply respects_bind; [apply R_print | intros _; apply respects_ret].
Qed.

End Respects.

(** *** Running lists of statements *)

Section Statements.

Variable E : Env.
Variable self : DatabaseLoader.

Lemma print_eq (l : LogLine) (s : State) : print l s = (Ok tt, logged s [l]).
Proof. reflexivity. Qed.

Lemma logged_app (s : State) (a b : list LogLine) :
  logged (logged s a) b = logged s (a ++ b).
Proof. unfold logged; cbn. rewrite <- app_assoc. reflexivity. Qed.

Lemma logged_nil (s : State) : logged s [] = s.
Proof. destruct s. unfold logged; cbn. rewrite app_nil_r. reflexivity. Qed.

Lemma execute_all_app (a b : list Statement) (s : State) :
  execute_all E (a ++ b) s = bind (execute_all E a) (fun _ => execute_all E b) s.
Proof.
  revert s. induction a as [| st a IH]; intros s; cbn [execute_all app].
  - reflexivity.
  - unfold bind. destruct (execute E st s) as [[n | e] s1]; [| reflexivity].
    rewrite IH. reflexivity.
Qed.

Lemma insert_rem_rasters_eq (files : list string) (cid : string) (acc : list string)
  (s : State) :
  _insert_rem_rasters E self files cid acc s
  = match execute_all E (map InsertRemRaster (rem_rows_of self cid files)) s with
    | (Ok _, s') => (Ok (acc ++ map (_generate_uuid self) files)%list, s')
    | (Raise e, s') => (Raise e, s')
    end.
Proof.
  revert acc s. induction files as [| f files IH]; intros acc s.
  - cbn. rewrite app_nil_r. reflexivity.
  - cbn [_insert_rem_rasters rem_rows_of map execute_all]. unfold bind.
    destruct (execute E _ s) as [[n | e] s1]; [| reflexivity].
    rewrite IH. unfold rem_rows_of. rewrite <- app_assoc. reflexivity.
Qed.

Lemma insert_catchment_rasters_eq (files : list string) (id : string) (ids : list string)
  (s : State) :
  _insert_catchment_rasters E self files (id :: ids) s
  = execute_all E (map InsertCatchmentRaster (catchment_raster_rows_of self id files)) s.
Proof.
  unfold _insert_catchment_rasters. revert s.
  induction files as [| f files IH]; intros s.
  - reflexivity.
  - cbn [for_each catchment_raster_rows_of map execute_all]. unfold bind, ret.
    destruct (execute E _ s) as [[n | e] s1]; [| reflexivity].
    apply IH.
Qed.

(** What [load_rasters] does once both listings returned and at least one
    REM file was found. *)
Lemma load_rasters_run (dir cid f : string) (rest cfs : list string) (s : State) :
  _get_files E dir ".tif" "rem_zeroed_" = Ok (f :: rest) ->
  _get_files E dir ".tif" "gw_catchments" = Ok cfs ->
  load_rasters E self dir cid s
  = match execute_all E (raster_statements self cid (f :: rest) cfs)
            (logged s [LLoadingRemRasters; LLoadingCatchmentRasters]) with
    | (Ok _, s2) =>
        (Ok tt, logged s2 match cfs with [] => [LNoCatchmentRasterFiles] | _ => [] end)
    | (Raise e, s2) => (Raise e, logged s2 [LRasterError e])
    end.
Proof.
  intros Hrem Hcr. unfold load_rasters, raster_statements.
  unfold bind at 1 2. rewrite print_eq. unfold lift at 1. rewrite Hrem.
  unfold bind at 1 2. rewrite print_eq, logged_app. unfold lift. rewrite Hcr.
  unfold try_except, bind at 1. rewrite insert_rem_rasters_eq.
  rewrite execute_all_app. unfold bind at 2.
  cbn [app hd].
  destruct (execute_all E (map InsertRemRaster _) _) as [[[] | e] s1].
  - destruct cfs as [| c cfs].
    + cbn [catchment_raster_rows_of map execute_all]. unfold ret.
      rewrite print_eq. reflexivity.
    + cbn [map]. rewrite insert_catchment_rasters_eq.
      destruct (execute_all E _ s1) as [[[] | e] s2].
      * rewrite logged_nil. reflexivity.
      * unfold bind, raise. rewrite print_eq. reflexivity.
  - unfold bind, raise. rewrite print_eq. reflexivity.
Qed.

End Statements.

(** *** Outcome of a list of statements that cannot be suppressed *)

Section Outcome.

Variable E : Env.
Variable self : DatabaseLoader.

Lemma apply_all_app (a b : list Statement) (db : Database) :
  apply_all (a ++ b) db = apply_all b (apply_all a db).
Proof. unfold apply_all. apply fold_left_app. Qed.

Lemma apply_all_rem (rows : list RemRastersRow) (db : Database) :
  apply_all (map InsertRemRaster rows) db
  = mkDb (Catchments db) (Hydrotables db) (HAND_REM_Rasters db ++ rows)
         (HAND_Catchment_Rasters db) (NWM_Features db).
Proof.
  revert db. induction rows as [| r rows IH]; intros db.
  - destruct db; cbn. rewrite app_nil_r. reflexivity.
  - cbn [map]. change (apply_all (?x :: ?l) db) with (apply_all l (fst (apply_stmt x db))).
    rewrite IH. cbn. rewrite <- app_assoc. reflexivity.
Qed.

Lemma apply_all_catchment_rasters (rows : list CatchmentRastersRow) (db : Database) :
  apply_all (map InsertCatchmentRaster rows) db
  = mkDb (Catchments db) (Hydrotables db) (HAND_REM_Rasters db)
         (HAND_Catchment_Rasters db ++ rows) (NWM_Features db).
Proof.
  revert db. induction rows as [| r rows IH]; intros db.
  - destruct db; cbn. rewrite app_nil_r. reflexivity.
  - cbn [map]. change (apply_all (?x :: ?l) db) with (apply_all l (fst (apply_stmt x db))).
    rewrite IH. cbn. rewrite <- app_assoc. reflexivity.
Qed.

Lemma apply_all_raster_statements (cid : string) (rem_files cfs : list string) (db : Database) :
  apply_all (raster_statements self cid rem_files cfs) db
  = mkDb (Catchments db) (Hydrotables db)
         (HAND_REM_Rasters db ++ rem_rows_of self cid rem_files)
         (HAND_Catchment_Rasters db
            ++ catchment_raster_rows_of self (_generate_uuid self (hd EmptyString rem_files)) cfs)
         (NWM_Features db).
Proof.
  unfold raster_statements.
  rewrite apply_all_app, apply_all_rem, apply_all_catchment_rasters. reflexivity.
Qed.

Lemma suppressed_plain (st : Statement) (db : Database) :
  is_nwm_insert st = false -> suppressed st db = false.
Proof. destruct st; cbn; congruence. Qed.

Lemma execute_accepted (st : Statement) (s : State) :
  is_nwm_insert st = false ->
  db_accepts E (st_db s) st = true ->
  execute E st s
  = (Ok (snd (apply_stmt st (st_db s))),
     mkState (fst (apply_stmt st (st_db s))) (st_log s) (st_sql s ++ [st])
             (st_catchment_id s)).
Proof.
  intros Hp Ha. unfold execute. rewrite (suppressed_plain _ _ Hp), Ha.
  destruct (apply_stmt st (st_db s)). reflexivity.
Qed.

Lemma execute_refused (st : Statement) (s : State) :
  is_nwm_insert st = false ->
  db_accepts E (st_db s) st = false ->
  execute E st s
  = (Raise (DbError st),
     mkState (st_db s) (st_log s) (st_sql s ++ [st]) (st_catchment_id s)).
Proof.
  intros Hp Ha. unfold execute. rewrite (suppressed_plain _ _ Hp), Ha. reflexivity.
Qed.

(** Either every statement went through, or the run stopped at the first
    one the engine refused. *)
Lemma execute_all_outcome (sts : list Statement) (s : State) (r : Res unit) (s' : State) :
  (forall st, In st sts -> is_nwm_insert st = false) ->
  execute_all E sts s = (r, s') ->
  st_log s' = st_log s /\ st_catchment_id s' = st_catchment_id s /\
  ((r = Ok tt /\ st_sql s' = st_sql s ++ sts /\ st_db s' = apply_all sts (st_db s))
   \/ (exists pre st post,
         sts = pre ++ st :: post /\ r = Raise (DbError st)
         /\ st_sql s' = st_sql s ++ pre ++ [st]
         /\ st_db s' = apply_all pre (st_db s))).
Proof.
  revert s. induction sts as [| st sts IH]; intros s Hp H.
  - cbn in H. inversion H; subst.
    split; [reflexivity |]. split; [reflexivity |].
    left. rewrite app_nil_r. repeat split.
  - cbn [execute_all] in H. unfold bind in H.
    assert (Hst : is_nwm_insert st = false) by (apply Hp; left; reflexivity).
    destruct (db_accepts E (st_db s) st) eqn:Ha.
    + rewrite (execute_accepted _ _ Hst Ha) in H.
      apply IH in H; [| intros x Hx; apply Hp; right; exact Hx].
      cbn [st_log st_sql st_db st_catchment_id] in H.
      destruct H as (Hl & Hv & [(Hr & Hs & Hd) | (pre & x & post & He & Hr & Hs & Hd)]).
      * repeat split; try assumption. left. repeat split; try assumption.
        rewrite Hs, <- app_assoc. reflexivity.
      * repeat split; try assumption. right. exists (st :: pre), x, post.
        repeat split; try assumption.
        -- rewrite He. reflexivity.
        -- rewrite Hs, <- app_assoc. reflexivity.
    + rewrite (execute_refused _ _ Hst Ha) in H. inversion H; subst. cbn.
      repeat split; try reflexivity. right. exists [], st, sts.
      repeat split; reflexivity.
Qed.

Lemma execute_all_accepted (sts : list Statement) (s : State) :
  (forall st, In st sts -> is_nwm_insert st = false) ->
  (forall db st, In st sts -> db_accepts E db st = true) ->
  execute_all E sts s
  = (Ok tt, mkState (apply_all sts (st_db s)) (st_log s) (st_sql s ++ sts)
              (st_catchment_id s)).
Proof.
  revert s. induction sts as [| st sts IH]; intros s Hp Ha.
  - cbn. rewrite app_nil_r. destruct s; reflexivity.
  - cbn [execute_all]. unfold bind.
    rewrite execute_accepted; [| apply Hp; left; reflexivity | apply Ha; left; reflexivity].
    rewrite IH; [| intros x Hx; apply Hp; right; exact Hx
                 | intros db x Hx; apply Ha; right; exact Hx].
    cbn. rewrite <- app_assoc. reflexivity.
Qed.




Lemma raster_statements_plain (cid : string) (rem_files cfs : list string) (st : Statement) :
  In st (raster_statements self cid rem_files cfs) -> is_raster_insert st = true.
Proof.
  unfold raster_statements. rewrite in_app_iff, !in_map_iff.
  intros [(r & <- & _) | (r & <- & _)]; reflexivity.
Qed.

End Outcome.

(* ===================================================================== *)
(** ** Raster references *)
(* ===================================================================== *)





(** C9.  With no REM file, [load_rasters] returns at once: nothing is
    submitted and no table changes, whatever catchment-raster files the
    unit holds.  And whenever [load_rasters] submits an insert into
    [HAND_Catchment_Rasters], the unit has a first REM file, the row links
    to it, and that REM row is already in [HAND_REM_Rasters]. *)
Theorem catchment_rasters_need_a_rem_raster (E : Env) (self : DatabaseLoader)
  (dir cid : string) (s : State) :
  (_get_files E dir ".tif" "rem_zeroed_" = Ok [] ->
   load_rasters E self dir cid s
   = (Ok tt, logged s [LLoadingRemRasters; LNoRemRasterFiles]))
  /\ (forall r s' row,
        load_rasters E self dir cid s = (r, s') ->
        In (InsertCatchmentRaster row) (skipn (length (st_sql s)) (st_sql s')) ->
        exists f rest,
          _get_files E dir ".tif" "rem_zeroed_" = Ok (f :: rest)
          /\ cr_rem_raster_id row = _generate_uuid self f
          /\ In (mkRem (_generate_uuid self f) cid (hand_version_id self) f)
                (HAND_REM_Rasters (st_db s'))).
Proof.
  split.
  - intros Hrem. unfold load_rasters. unfold bind at 1 2. rewrite print_eq.
    unfold lift. rewrite Hrem. unfold bind, ret. rewrite print_eq, logged_app.
    reflexivity.
  - intros r s' row Hrun Hin.
    destruct (_get_files E dir ".tif" "rem_zeroed_") as [[| f rest] | e] eqn:Hrem.
    + (* no REM file: nothing submitted *)
      unfold load_rasters in Hrun. unfold bind at 1 2 in Hrun. rewrite print_eq in Hrun.
      unfold lift in Hrun. rewrite Hrem in Hrun. unfold bind, ret in Hrun.
      rewrite print_eq in Hrun. inversion Hrun; subst. cbn in Hin.
      rewrite skipn_all in Hin. destruct Hin.
    + destruct (_get_files E dir ".tif" "gw_catchments") as [cfs | e] eqn:Hcr.
      * rewrite (load_rasters_run E self dir cid f rest cfs s Hrem Hcr) in Hrun.
        destruct (execute_all E _ _) as [r0 s2] eqn:Hx.
        apply execute_all_outcome in Hx;
          [| intros st Hst; apply raster_statements_plain in Hst;
             destruct st; cbn in *; congruence].
        destruct Hx as (_ & _ & Hx).
        assert (Hs' : st_sql s' = st_sql s2 /\ st_db s' = st_db s2).
        { destruct r0 as [[] | e]; inversion Hrun; subst; split; reflexivity. }
        destruct Hs' as [Hsql Hdb]. rewrite Hsql in Hin. rewrite Hdb.
        exists f, rest. split; [reflexivity |].
        assert (Hlink : forall x, In (InsertCatchmentRaster x)
                                     (raster_statements self cid (f :: rest) cfs) ->
                                  cr_rem_raster_id x = _generate_uuid self f).
        { intros x Hx'. unfold raster_statements in Hx'.
          rewrite in_app_iff, !in_map_iff in Hx'.
          destruct Hx' as [(y & Hy & _) | (y & Hy & Hy')]; [discriminate |].
          inversion Hy; subst. unfold catchment_raster_rows_of in Hy'.
          apply in_map_iff in Hy'. destruct Hy' as (p & <- & _). reflexivity. }
        destruct Hx as [(_ & Hs & Hd) | (pre & st & post & He & _ & Hs & Hd)].
        -- rewrite Hs in Hin. cbn [logged st_sql] in Hin.
           rewrite skipn_app, skipn_all, Nat.sub_diag, skipn_O in Hin. cbn [app] in Hin.
           split; [apply Hlink, Hin |].
           rewrite Hd, apply_all_raster_statements. cbn.
           apply in_or_app. right. left. reflexivity.
        -- rewrite Hs in Hin. cbn [logged st_sql] in Hin.
           rewrite skipn_app, skipn_all, Nat.sub_diag, skipn_O in Hin. cbn [app] in Hin.
           assert (Hin' : In (InsertCatchmentRaster row)
                             (raster_statements self cid (f :: rest) cfs)).
           { rewrite He. rewrite in_app_iff in Hin. rewrite in_app_iff.
             destruct Hin as [Hin | [Hin | []]]; [left; exact Hin | right; left; exact Hin]. }
           split; [apply Hlink, Hin' |].
           rewrite Hd. cbn [logged st_db].
           unfold raster_statements in He.
           apply app_eq_app in He. destruct He as (l & [[H1 H2] | [H1 H2]]).
           ++ (* the refused statement is one of the REM inserts *)
              destruct l as [| x l].
              ** cbn in H2. rewrite app_nil_r in H1. rewrite <- H1, apply_all_rem. cbn.
                 apply in_or_app. right. left. reflexivity.
              ** cbn in H2. inversion H2; subst x.
                 exfalso. rewrite in_app_iff in Hin.
                 assert (Hall : forall x, In x (pre ++ [st]) ->
                                          is_raster_insert x = true /\
                                          forall y, x <> InsertCatchmentRaster y).
                 { intros x Hx'.
                   assert (Hx'' : In x (map InsertRemRaster (rem_rows_of self cid (f :: rest)))).
                   { rewrite H1. rewrite in_app_iff in Hx'. rewrite in_app_iff.
                     destruct Hx' as [Hx' | [Hx' | []]];
                       [left; exact Hx' | right; left; exact Hx']. }
                   apply in_map_iff in Hx''. destruct Hx'' as (y & <- & _).
                   split; [reflexivity | discriminate]. }
                 destruct (Hall (InsertCatchmentRaster row)) as [_ Hne].
                 { rewrite in_app_iff. exact Hin. }
                 apply (Hne row). reflexivity.
           ++ (* every REM insert went through *)
              rewrite H1, apply_all_app, apply_all_rem.
              apply map_eq_app in H2.
              destruct H2 as (l1 & l2 & _ & Hl1 & _). rewrite <- Hl1.
              rewrite apply_all_catchment_rasters. cbn.
              apply in_or_app. right. left. reflexivity.
      * (* the second listing raised: nothing submitted *)
        unfold load_rasters in Hrun. unfold bind at 1 2 in Hrun. rewrite print_eq in Hrun.
        unfold lift at 1 in Hrun. rewrite Hrem in Hrun.
        unfold bind at 1 2 in Hrun. rewrite print_eq in Hrun.
        unfold lift in Hrun. rewrite Hcr in Hrun. inversion Hrun; subst. cbn in Hin.
        rewrite skipn_all in Hin. destruct Hin.
    + unfold load_rasters in Hrun. unfold bind at 1 2 in Hrun. rewrite print_eq in Hrun.
      unfold lift in Hrun. rewrite Hrem in Hrun. inversion Hrun; subst. cbn in Hin.
      rewrite skipn_all in Hin. destruct Hin.
Qed.

Lemma catchment_rasters_need_a_rem_raster_witness :
  _get_files (example_env permissive_engine) "/norem" ".tif" "rem_zeroed_" = Ok []
  /\ load_rasters (example_env permissive_engine) example_loader "/norem" "c1"
       (initial_state empty_db)
     = (Ok tt, logged (initial_state empty_db) [LLoadingRemRasters; LNoRemRasterFiles]).
Proof.
  split; [vm_compute; reflexivity |].
  apply (catchment_rasters_need_a_rem_raster (example_env permissive_engine) example_loader
           "/norem" "c1" (initial_state empty_db)).
  vm_compute; reflexivity.
Defined.

(* ===================================================================== *)
(** ** The geometry step and the units it skips *)
(* ===================================================================== *)

Section Geometry.

Variable E : Env.
Variable self : DatabaseLoader.

Lemma merge_files_eq (files : list string) (acc : option (geom E)) (s : State) :
  merge_files E files acc s
  = (Ok (merged_geometry E files acc), logged s (geometry_error_lines E files)).
Proof.
  revert acc s. induction files as [| f files IH]; intros acc s.
  - cbn. rewrite logged_nil. reflexivity.
  - cbn [merge_files merged_geometry geometry_error_lines].
    destruct (read_vector E f).
    + unfold bind. rewrite print_eq, IH, logged_app. reflexivity.
    + apply IH.
    + apply IH.
Qed.


(** What [load_catchment_geometry] does once the listing returned. *)
Lemma load_catchment_geometry_run (dir : string) (files : list string) (s : State) :
  _get_files E dir ".gpkg" "gw_catchments" = Ok files ->
  load_catchment_geometry E self dir s
  = match files with
    | [] => (Ok None, logged s [LLoadingGeometry; LNoGeometryFiles])
    | _ =>
        let s1 := logged s (LLoadingGeometry :: geometry_error_lines E files) in
        match merged_geometry E files None with
        | None => (Ok None, s1)
        | Some g =>
            let cid := _generate_uuid self (geom_wkt E g) in
            match execute E (InsertCatchment
                               (mkCatchment cid (hand_version_id self) (geom_wkt E g))) s1 with
            | (Ok _, s2) => (Ok (Some cid), s2)
            | (Raise e, s2) => (Raise e, s2)
            end
        end
    end.
Proof.
  intros Hls. unfold load_catchment_geometry.
  unfold bind at 1 2. rewrite print_eq. unfold lift. rewrite Hls.
  destruct files as [| f files].
  - unfold bind, ret. rewrite print_eq, logged_app. reflexivity.
  - unfold bind at 1. rewrite merge_files_eq, logged_app. cbn [app].
    destruct (merged_geometry E (f :: files) None) as [g |]; [| reflexivity].
    unfold bind, ret. cbv zeta.
    destruct (execute E _ _) as [[n | e] s2]; reflexivity.
Qed.


End Geometry.



(* ===================================================================== *)
(** ** Frames of the hydrotable and raster steps *)
(* ===================================================================== *)

Section Frames.

Variable E : Env.
Variable self : DatabaseLoader.

Lemma execute_keeps_catchment_id (st : Statement) :
  respects keeps_catchment_id (execute E st).
Proof.
  intros s r s' H. unfold execute in H. unfold keeps_catchment_id.
  destruct (suppressed st (st_db s)); [inversion H; reflexivity |].
  destruct (db_accepts E (st_db s) st); [| inversion H; reflexivity].
  destruct (apply_stmt st (st_db s)). inversion H; reflexivity.
Qed.

Lemma print_keeps_catchment_id (l : LogLine) : respects keeps_catchment_id (print l).
Proof. intros s r s' H. inversion H; reflexivity. Qed.

Lemma keeps_catchment_id_trans (a b c : State) :
  keeps_catchment_id a b -> keeps_catchment_id b c -> keeps_catchment_id a c.
Proof. unfold keeps_catchment_id. congruence. Qed.

Lemma load_hydrotables_keeps_catchment_id (dir cid : string) :
  respects keeps_catchment_id (load_hydrotables E self dir cid).
Proof.
  apply respects_load_hydrotables.
  - reflexivity.
  - apply keeps_catchment_id_trans.
  - apply print_keeps_catchment_id.
  - intros r. apply execute_keeps_catchment_id.
Qed.

Lemma load_rasters_keeps_catchment_id (dir cid : string) :
  respects keeps_catchment_id (load_rasters E self dir cid).
Proof.
  apply respects_load_rasters.
  - reflexivity.
  - apply keeps_catchment_id_trans.
  - apply print_keeps_catchment_id.
  - intros st _. apply execute_keeps_catchment_id.
Qed.


(** With no rating-table file, [load_hydrotables] prints two lines and
    returns. *)
Lemma load_hydrotables_no_files (dir cid : string) (s : State) :
  _get_files E dir ".csv" "hydroTable_" = Ok [] ->
  load_hydrotables E self dir cid s
  = (Ok tt, logged s [LLoadingHydrotables; LNoHydrotableFiles]).
Proof.
  intros Hls. unfold load_hydrotables. unfold bind at 1 2. rewrite print_eq.
  unfold lift. rewrite Hls. unfold bind, ret. rewrite print_eq, logged_app.
  reflexivity.
Qed.

End Frames.



(* ===================================================================== *)
(** ** Atomicity of one catchment's load *)
(* ===================================================================== *)

Section Cleanup.

Variable E : Env.
Variable self : DatabaseLoader.

Lemma filter_filter_negb {A} (p : A -> bool) (l : list A) :
  List.filter p (List.filter (fun x => negb (p x)) l) = [].
Proof.
  induction l as [| x l IH]; cbn; [reflexivity |].
  destruct (p x) eqn:Hp; cbn; [exact IH |]. rewrite Hp. exact IH.
Qed.

Lemma filter_false {A} (l : list A) : List.filter (fun _ => false) l = [].
Proof. induction l; cbn; auto. Qed.

(** After the three deletes nothing of the catchment is left. *)
Lemma visible_rows_purge (cid hv : string) (db : Database) :
  visible_rows cid hv (purge cid hv db) = 0.
Proof.
  unfold visible_rows, catchment_rows, hydrotable_rows, catchment_raster_rows.
  assert (Hrem : rem_raster_rows cid hv (purge cid hv db) = []).
  { unfold rem_raster_rows, purge. cbn.
    apply (filter_filter_negb
             (fun r => owned_by cid hv (rem_catchment_id r) (rem_hand_version_id r))). }
  rewrite Hrem. cbn [existsb]. rewrite filter_false.
  unfold purge. cbn.
  rewrite (filter_filter_negb
             (fun r => owned_by cid hv (cat_catchment_id r) (cat_hand_version_id r))).
  rewrite (filter_filter_negb
             (fun r => owned_by cid hv (hy_catchment_id r) (hy_hand_version_id r))).
  reflexivity.
Qed.

(** [_cleanup_catchment] on an identity: all three deletes go through and
    the tables are purged, or one is refused, the cleanup transaction is
    rolled back and the exception leaves. *)
Lemma cleanup_catchment_outcome (cid : string) (s : State) (r : Res unit) (s' : State) :
  _cleanup_catchment E self (Some cid) s = (r, s') ->
  st_catchment_id s' = st_catchment_id s
  /\ st_log s' = st_log s ++ [LCleaningUp cid]
  /\ ((r = Ok tt
       /\ st_db s' = purge cid (hand_version_id self) (st_db s)
       /\ st_sql s' = st_sql s ++ [DeleteHydrotables cid (hand_version_id self);
                                   DeleteRemRasters cid (hand_version_id self);
                                   DeleteCatchments cid (hand_version_id self)])
      \/ (exists st, r = Raise (DbError st) /\ st_db s' = st_db s)).
Proof.
  intros H. unfold _cleanup_catchment in H. unfold bind at 1 in H.
  rewrite print_eq in H. unfold with_transaction in H.
  change (bind (execute E ?a) (fun _ => bind (execute E ?b)
            (fun _ => bind (execute E ?c) (fun _ => ret tt))))
    with (execute_all E [a; b; c]) in H.
  destruct (execute_all E _ _) as [r0 s0] eqn:Hx.
  apply execute_all_outcome in Hx.
  2:{ intros st [<- | [<- | [<- | []]]]; reflexivity. }
  destruct Hx as (Hl & Hv & [(Hr & Hs & Hd) | (pre & st & post & _ & Hr & _ & _)]); subst r0.
  - inversion H; subst. cbn [logged st_log st_catchment_id st_db st_sql] in *.
    repeat split; try assumption. left. repeat split; assumption.
  - inversion H; subst. cbn [logged st_log st_catchment_id st_db st_sql] in *.
    repeat split; try assumption. right. exists st. split; reflexivity.
Qed.

End Cleanup.

(** C1.  A unit whose geometry step returned the identity [cid] and whose
    hydrotable or raster step then raised: the transaction is rolled back,
    the error is printed, and the cleanup runs on [cid].  Afterwards the
    tables are those from before the unit, or those tables purged of
    [cid] under the loader's hand version: no row the aborted transaction
    wrote is visible.  When the cleanup went through, no [Catchments],
    [Hydrotables], [HAND_REM_Rasters] or linked [HAND_Catchment_Rasters]
    row of the catchment is visible; in every case no more of them than
    before the unit, so none when there was none. *)
Theorem aborted_load_leaves_no_rows (E : Env) (self : DatabaseLoader)
  (idx total : nat) (dir cid : string) (s s1 : State) (e : Exn) (s2 : State) :
  load_catchment_geometry E self dir (logged s [LProcessing idx total dir])
    = (Ok (Some cid), s1) ->
  bind (load_hydrotables E self dir cid) (fun _ => load_rasters E self dir cid)
       (assigned s1 (Some cid)) = (Raise e, s2) ->
  exists r s',
    process_catchment E self idx total dir s = (r, s')
    /\ st_log s' = st_log s2 ++ [LErrorProcessing dir e; LCleaningUp cid]
    /\ (st_db s' = st_db s \/ st_db s' = purge cid (hand_version_id self) (st_db s))
    /\ (r = Ok tt -> visible_rows cid (hand_version_id self) (st_db s') = 0)
    /\ (forall e', r = Raise e' -> st_db s' = st_db s)
    /\ visible_rows cid (hand_version_id self) (st_db s')
       <= visible_rows cid (hand_version_id self) (st_db s).
Proof.
  intros Hgeom Hfail.
  assert (Hvar : st_catchment_id s2 = Bound (Some cid)).
  { assert (Hk : respects keeps_catchment_id
                   (bind (load_hydrotables E self dir cid)
                         (fun _ => load_rasters E self dir cid))).
    { apply respects_bind.
      - apply keeps_catchment_id_trans.
      - apply load_hydrotables_keeps_catchment_id.
      - intros _. apply load_rasters_keeps_catchment_id. }
    apply Hk in Hfail. exact Hfail. }
  destruct (_cleanup_catchment E self (Some cid)
              (mkState (st_db s) (st_log s2 ++ [LErrorProcessing dir e]) (st_sql s2)
                       (st_catchment_id s2))) as [r s'] eqn:Hclean.
  assert (Hproc : process_catchment E self idx total dir s = (r, s')).
  { unfold process_catchment. unfold bind at 1. rewrite print_eq.
    unfold try_except, with_transaction, catchment_transaction.
    unfold bind at 1. rewrite Hgeom. unfold bind at 1, set_catchment_id at 1.
    change (mkState (st_db s1) (st_log s1) (st_sql s1) (Bound (Some cid)))
      with (assigned s1 (Some cid)).
    rewrite Hfail. cbn [logged st_db].
    unfold bind at 1. rewrite print_eq. unfold logged at 1.
    cbn [st_db st_log st_sql st_catchment_id].
    unfold bind at 1, get_catchment_id. cbn [st_catchment_id].
    rewrite Hvar. rewrite Hvar in Hclean. exact Hclean. }
  exists r, s'. split; [exact Hproc |].
  apply cleanup_catchment_outcome in Hclean.
  cbn [st_db st_log st_sql st_catchment_id] in Hclean.
  destruct Hclean as (_ & Hlog & [(Hr & Hdb & _) | (st & Hr & Hdb)]).
  - split; [rewrite Hlog, <- app_assoc; reflexivity |].
    split; [right; exact Hdb |].
    split; [intros _; rewrite Hdb; apply visible_rows_purge |].
    split; [intros e' He'; congruence |].
    rewrite Hdb, visible_rows_purge. lia.
  - split; [rewrite Hlog, <- app_assoc; reflexivity |].
    split; [left; exact Hdb |].
    split; [intros Hok; congruence |].
    split; [intros e' _; exact Hdb |].
    rewrite Hdb. lia.
Qed.

Lemma aborted_load_leaves_no_rows_witness :
  exists s',
    process_catchment (example_env primary_key_engine) example_loader 1 1 "/badhydro"
      (initial_state empty_db) = (Ok tt, s')
    /\ visible_rows (_generate_uuid example_loader "POLYGON(/badhydro/gw_catchments_0.gpkg)")
         "v3.0" (st_db s') = 0.
Proof.
  pose (E := example_env primary_key_engine).
  pose (cid := _generate_uuid example_loader "POLYGON(/badhydro/gw_catchments_0.gpkg)").
  pose (s0 := logged (initial_state empty_db) [LProcessing 1 1 "/badhydro"]).
  pose (s1 := snd (load_catchment_geometry E example_loader "/badhydro" s0)).
  pose (s2 := snd (bind (load_hydrotables E example_loader "/badhydro" cid)
                        (fun _ => load_rasters E example_loader "/badhydro" cid)
                        (assigned s1 (Some cid)))).
  destruct (aborted_load_leaves_no_rows E example_loader 1 1 "/badhydro" cid
              (initial_state empty_db) s1
              (ReadError "/badhydro/hydroTable_corrupt.csv") s2)
    as (r & s' & Hp & _ & _ & Hz & _).
  - vm_compute; reflexivity.
  - vm_compute; reflexivity.
  - assert (Hr : r = Ok tt).
    { apply (f_equal fst) in Hp. cbn [fst] in Hp. rewrite <- Hp. vm_compute. reflexivity. }
    subst r. exists s'. split; [exact Hp | apply Hz; reflexivity].
Defined.

(* ===================================================================== *)
(** ** River-network features *)
(* ===================================================================== *)

(** C8 (the code departs from the claim).  [load_nwm_features] hands the
    frame that [temp_load_gpkg] returns to a [with] statement.  A frame is
    no context manager, so every call raises: with the error of the
    reader when the file cannot be read, with [TypeError] when it can.
    The loop over the records is never reached: the call submits no
    statement, leaves every table as it was and prints no count of dropped
    duplicates.  In the example the file is readable and holds one feature
    twice; loading it twice raises twice and [NWM_Features] stays empty. *)
Theorem load_nwm_features_never_inserts (E : Env) (self : DatabaseLoader)
  (gpkg_path : string) (s : State) :
  (exists e s',
     load_nwm_features E self gpkg_path s = (Raise e, s')
     /\ e = match read_gpkg E gpkg_path with
            | Some _ => TypeError "GeoDataFrame"
            | None => ReadError gpkg_path
            end
     /\ st_db s' = st_db s
     /\ st_sql s' = st_sql s
     /\ st_log s' = st_log s ++ [LLoadingNwmFeatures])
  /\ (let E := example_env primary_key_engine in
      let first := load_nwm_features E example_loader "nwm_flows.gpkg"
                     (initial_state empty_db) in
      let second := load_nwm_features E example_loader "nwm_flows.gpkg" (snd first) in
      (exists frame,
         read_gpkg E "nwm_flows.gpkg" = Some frame
         /\ gdf_getitem frame "nwm_streams" = Some example_streams)
      /\ nth_error example_streams 0 = nth_error example_streams 2
      /\ fst first = Raise (TypeError "GeoDataFrame")
      /\ fst second = Raise (TypeError "GeoDataFrame")
      /\ NWM_Features (st_db (snd second)) = []
      /\ st_sql (snd second) = []
      /\ st_log (snd second) = [LLoadingNwmFeatures; LLoadingNwmFeatures]).
Proof.
  split.
  - exists match read_gpkg E gpkg_path with
           | Some _ => TypeError "GeoDataFrame"
           | None => ReadError gpkg_path
           end, (logged s [LLoadingNwmFeatures]).
    split; [| repeat split].
    unfold load_nwm_features. unfold bind at 1. rewrite print_eq.
    unfold bind, lift, temp_load_gpkg, with_no_context_manager, raise.
    destruct (read_gpkg E gpkg_path); reflexivity.
  - cbv zeta. split; [eexists; split; vm_compute; reflexivity |].
    repeat split; vm_compute; reflexivity.
Qed.

(* ===================================================================== *)
(** ** Discovery of catchment units *)
(* ===================================================================== *)

Section Discovery.

Variable E : Env.

Lemma append_nonempty_r (a b : string) : b <> EmptyString -> (a ++ b)%string <> EmptyString.
Proof. destruct a; cbn; [auto | discriminate]. Qed.

Lemma join_nonempty (sep p : string) (l : list string) :
  In p l -> p <> EmptyString -> PyStr.join sep l <> EmptyString.
Proof.
  induction l as [| q l IH]; intros Hin Hp; [destruct Hin |].
  cbn [PyStr.join]. destruct l as [| q' l].
  - destruct Hin as [-> | []]. exact Hp.
  - destruct Hin as [-> | Hin].
    + destruct p; [congruence | discriminate].
    + apply append_nonempty_r, append_nonempty_r, IH; assumption.
Qed.

Lemma is_huc_nonempty (p : string) : is_huc p = true -> p <> EmptyString.
Proof. intros H ->. discriminate. Qed.

Lemma in_combine_seq {A} (l : list A) (n i : nat) (x : A) :
  In (i, x) (combine (seq n (length l)) l) <-> n <= i /\ nth_error l (i - n) = Some x.
Proof.
  revert n. induction l as [| y l IH]; intros n; cbn [length seq combine In].
  - split; [intros [] | intros [_ H]]. destruct (i - n); discriminate.
  - rewrite IH. split.
    + intros [H | [Hle H]].
      * inversion H; subst. split; [lia |]. rewrite Nat.sub_diag. reflexivity.
      * split; [lia |]. replace (i - n) with (S (i - S n)) by lia. exact H.
    + intros [Hle H]. destruct (Nat.eq_dec i n) as [-> | Hne].
      * left. rewrite Nat.sub_diag in H. cbn in H. congruence.
      * right. split; [lia |]. replace (i - n) with (S (i - S n)) in H by lia. exact H.
Qed.

Lemma in_enumerate {A} (l : list A) (i : nat) (x : A) :
  In (i, x) (enumerate l) <-> nth_error l i = Some x.
Proof.
  unfold enumerate. rewrite in_combine_seq, Nat.sub_0_r. split; [tauto |].
  intros H. split; [lia | exact H].
Qed.

Lemma nth_error_firstn_Some {A} (l : list A) (k i : nat) (x : A) :
  nth_error (firstn k l) i = Some x <-> i < k /\ nth_error l i = Some x.
Proof.
  revert k i. induction l as [| y l IH]; intros k i.
  - rewrite firstn_nil. split; [| tauto]. destruct i; discriminate.
  - destruct k; cbn [firstn].
    + split; [destruct i; discriminate | lia].
    + destruct i; cbn [nth_error].
      * split; [intros H; split; [lia | exact H] | tauto].
      * rewrite IH. split; intros [H1 H2]; (split; [lia | exact H2]).
Qed.

Lemma fold_left_union_spec {A} (f : gset string -> A -> gset string)
  (Q : A -> string -> Prop) :
  (forall acc a d, d ∈ f acc a <-> d ∈ acc \/ Q a d) ->
  forall l acc d, d ∈ fold_left f l acc <-> d ∈ acc \/ exists a, In a l /\ Q a d.
Proof.
  intros Hf. induction l as [| a l IH]; intros acc d; cbn [fold_left In].
  - split; [tauto | intros [H | (a & [] & _)]; exact H].
  - rewrite IH, Hf. split.
    + intros [[H | H] | (b & Hb & HQ)].
      * left; exact H.
      * right. exists a. split; [left; reflexivity | exact H].
      * right. exists b. split; [right; exact Hb | exact HQ].
    + intros [H | (b & [<- | Hb] & HQ)].
      * left; left; exact H.
      * left; right; exact HQ.
      * right. exists b. split; assumption.
Qed.

(** The inner loop adds exactly the prefixes the criterion names. *)
Lemma scan_parts_spec (parts : list string) (dirs : gset string) (d : string) :
  d ∈ scan_parts parts dirs <-> d ∈ dirs \/ qualifies parts d.
Proof.
  unfold scan_parts.
  rewrite (fold_left_union_spec _
    (fun (ip : nat * string) d =>
       is_huc (snd ip) = true /\ fst ip + 1 < length parts
       /\ nth (fst ip + 1) parts EmptyString = "branches"%string
       /\ d = PyStr.join "/" (firstn (fst ip + 3) parts)
       /\ d <> EmptyString)).
  - apply or_iff_compat_l. split.
    + intros ([i part] & Hin & Hhuc & Hlt & Hbr & Hd & _). cbn [fst snd] in *.
      apply in_enumerate, nth_error_firstn_Some in Hin. destruct Hin as [Hi Hnth].
      exists i, part, (nth (i + 2) parts EmptyString).
      split; [exact Hnth |]. split; [exact Hhuc |].
      split; [rewrite <- Hbr; apply nth_error_nth'; exact Hlt |].
      split; [apply nth_error_nth'; lia | exact Hd].
    + intros (i & huc & unit & Hnth & Hhuc & Hbr & Hunit & Hd).
      assert (Hlen : i + 2 < length parts) by (apply nth_error_Some; congruence).
      exists (i, huc). cbn [fst snd].
      split; [apply in_enumerate, nth_error_firstn_Some; split; [lia | exact Hnth] |].
      split; [exact Hhuc |]. split; [lia |].
      split; [apply nth_error_nth; exact Hbr |]. split; [exact Hd |].
      subst d. apply (join_nonempty _ huc); [| apply is_huc_nonempty, Hhuc].
      apply (nth_error_In _ i), nth_error_firstn_Some. split; [lia | exact Hnth].
  - intros acc [i part] x. cbn [fst snd].
    destruct (is_huc part) eqn:Hhuc; cbn [andb].
    2:{ split; [tauto | intros [H | [H _]]; [exact H | discriminate]]. }
    destruct (Nat.ltb (i + 1) (length parts)) eqn:Hlt; cbn [andb].
    2:{ apply Nat.ltb_ge in Hlt. split; [tauto | intros [H | (_ & H & _)]; [exact H | lia]]. }
    apply Nat.ltb_lt in Hlt.
    destruct (String.eqb (nth (i + 1) parts EmptyString) "branches") eqn:Hbr.
    2:{ apply String.eqb_neq in Hbr.
        split; [tauto | intros [H | (_ & _ & H & _)]; [exact H | contradiction]]. }
    apply String.eqb_eq in Hbr.
    destruct (String.eqb (PyStr.join "/" (firstn (i + 3) parts)) EmptyString) eqn:Hcp; cbn [negb].
    + apply String.eqb_eq in Hcp.
      split; [tauto | intros [H | (_ & _ & _ & H1 & H2)]; [exact H | congruence]].
    + apply String.eqb_neq in Hcp. rewrite elem_of_union, elem_of_singleton.
      split.
      * intros [-> | H]; [right; repeat split; assumption | left; exact H].
      * intros [H | (_ & _ & _ & H & _)]; [right; exact H | left; exact H].
Qed.

(** The remote branch: a prefix is returned exactly when some listed key
    qualifies for it. *)
Lemma remote_dirs_spec (objects : list string) (d : string) :
  d ∈ fold_left (fun (dirs : gset string) obj => scan_parts (PyStr.split "/" obj) dirs)
        objects (∅ : gset string)
  <-> exists key, In key objects /\ qualifies (PyStr.split "/" key) d.
Proof.
  rewrite (fold_left_union_spec _ (fun obj d => qualifies (PyStr.split "/" obj) d)).
  - split; [intros [H | H]; [| exact H] | intros H; right; exact H].
    apply not_elem_of_empty in H. destruct H.
  - intros acc a x. apply scan_parts_spec.
Qed.

Lemma local_unit_cons (base_dir d : string) (ds : list string) (p : string) :
  local_unit E base_dir (d :: ds) p
  <-> (is_huc d = true
       /\ isdir E (path_join base_dir d) = true
       /\ isdir E (path_join (path_join base_dir d) "branches") = true
       /\ exists cd cds,
            listdir E (path_join (path_join base_dir d) "branches") = Ok cds /\ In cd cds
            /\ isdir E (path_join (path_join (path_join base_dir d) "branches") cd) = true
            /\ p = path_join (path_join (path_join base_dir d) "branches") cd)
      \/ local_unit E base_dir ds p.
Proof.
  unfold local_unit. split.
  - intros (d' & cd & cds & [<- | H0] & H1 & H2 & H3 & H4 & H5 & H6 & H7).
    + left. split; [exact H1 |]. split; [exact H2 |]. split; [exact H3 |].
      exists cd, cds. repeat split; assumption.
    + right. exists d', cd, cds. repeat split; assumption.
  - intros [(H1 & H2 & H3 & cd & cds & H4 & H5 & H6 & H7) | (d' & cd & cds & H0 & H)].
    + exists d, cd, cds. split; [left; reflexivity |]. repeat split; assumption.
    + exists d', cd, cds. split; [right; exact H0 | exact H].
Qed.

Lemma branches_listable_cons (base_dir d : string) (ds : list string) :
  branches_listable E base_dir (d :: ds)
  <-> (is_huc d = true ->
       isdir E (path_join base_dir d) = true ->
       isdir E (path_join (path_join base_dir d) "branches") = true ->
       exists cds, listdir E (path_join (path_join base_dir d) "branches") = Ok cds)
      /\ branches_listable E base_dir ds.
Proof.
  unfold branches_listable. split.
  - intros H. split; [apply H; left; reflexivity |].
    intros d' Hin. apply H. right. exact Hin.
  - intros [Hd Hds] d' [<- | Hin]; [exact Hd | apply Hds, Hin].
Qed.

(** The local branch once the root was listed: it returns exactly when
    every [branches] directory it looks into can be listed, and then it
    returns exactly the directories two levels below an 8-digit child of
    the root. *)
Lemma local_catchment_dirs_spec (base_dir : string) (ds : list string) :
  ((exists units, local_catchment_dirs E base_dir ds = Ok units)
   <-> branches_listable E base_dir ds)
  /\ (forall units,
        local_catchment_dirs E base_dir ds = Ok units ->
        forall p, In p units <-> local_unit E base_dir ds p).
Proof.
  induction ds as [| d ds [IHret IHspec]].
  - split.
    + split; [intros _ d [] | intros _; exists []; reflexivity].
    + intros units H p. inversion H; subst.
      split; [intros [] | intros (d & _ & _ & [] & _)].
  - cbn [local_catchment_dirs].
    set (huc_path := path_join base_dir d).
    set (branches_path := path_join huc_path "branches").
    replace (isdir E huc_path && PyStr.isdigit d && Nat.eqb (PyStr.len d) 8)
      with (isdir E huc_path && is_huc d)
      by (unfold is_huc; rewrite andb_assoc; reflexivity).
    (* a name the walk passes over *)
    assert (Hskip :
      (is_huc d = true -> isdir E huc_path = true -> isdir E branches_path = true -> False) ->
      ((exists units,
          res_bind (local_catchment_dirs E base_dir ds) (fun rest => Ok ([] ++ rest)) = Ok units)
       <-> branches_listable E base_dir (d :: ds))
      /\ (forall units,
            res_bind (local_catchment_dirs E base_dir ds) (fun rest => Ok ([] ++ rest))
            = Ok units ->
            forall p, In p units <-> local_unit E base_dir (d :: ds) p)).
    { intros Hno. split.
      - rewrite branches_listable_cons, <- IHret. fold huc_path branches_path.
        destruct (local_catchment_dirs E base_dir ds) as [rest | e]; cbn [res_bind app].
        + split; [intros _; split; [intros A B C; destruct (Hno A B C) | eexists; reflexivity]
                 | intros _; eexists; reflexivity].
        + split; [intros (u & Hu); discriminate | intros [_ (u & Hu)]; discriminate].
      - intros units H p.
        destruct (local_catchment_dirs E base_dir ds) as [rest | e] eqn:Hrest;
          cbn [res_bind app] in H; [| discriminate].
        inversion H; subst units. rewrite local_unit_cons, (IHspec rest eq_refl).
        fold huc_path branches_path.
        split; [intros Hp; right; exact Hp | intros [(A & B & C & _) | Hp]; [| exact Hp]].
        destruct (Hno A B C). }
    destruct (isdir E huc_path) eqn:Hhuc; cbn [andb].
    2:{ cbn [res_bind]. apply Hskip. intros _ H _. discriminate. }
    destruct (is_huc d) eqn:Hd.
    2:{ cbn [res_bind]. apply Hskip. intros H _ _. discriminate. }
    destruct (isdir E branches_path) eqn:Hbr.
    2:{ cbn [res_bind]. apply Hskip. intros _ _ H. discriminate. }
    destruct (listdir E branches_path) as [cds | e] eqn:Hcds; cbn [res_bind].
    + (* the [branches] directory was listed *)
      split.
      * rewrite branches_listable_cons, <- IHret. fold huc_path branches_path.
        destruct (local_catchment_dirs E base_dir ds) as [rest | e]; cbn [res_bind].
        -- split; [intros _; split; [intros _ _ _; exists cds; exact Hcds
                                    | eexists; reflexivity]
                  | intros _; eexists; reflexivity].
        -- split; [intros (u & Hu); discriminate | intros [_ (u & Hu)]; discriminate].
      * intros units H p.
        destruct (local_catchment_dirs E base_dir ds) as [rest | e] eqn:Hrest;
          cbn [res_bind] in H; [| discriminate].
        inversion H; subst units.
        rewrite in_app_iff, local_unit_cons, (IHspec rest eq_refl), in_map_iff.
        fold huc_path branches_path. apply or_iff_compat_r. split.
        -- intros (cd & <- & Hin). apply filter_In in Hin. destruct Hin as [Hin Hcd].
           split; [exact Hd |]. split; [exact Hhuc |]. split; [exact Hbr |].
           exists cd, cds. repeat split; assumption.
        -- intros (_ & _ & _ & cd & cds' & Hl & Hin & Hcd & ->).
           exists cd. split; [reflexivity |]. apply filter_In.
           split; [congruence | exact Hcd].
    + (* the [branches] directory could not be listed: the walk raises *)
      split.
      * rewrite branches_listable_cons. fold huc_path branches_path.
        split; [intros (u & Hu); discriminate |].
        intros [H _]. destruct (H Hd Hhuc Hbr) as (cds & Hcds'). congruence.
      * intros units H. discriminate.
Qed.

End Discovery.

(** C4, as amended.  On the remote backend every listed key is scanned
    and a prefix is returned exactly when, in some key, a segment is an
    8-digit string, the next segment is [branches] and one more segment
    follows; the prefix ends with that segment.  On the local backend the
    walk is not recursive: it looks at the names listed in the root
    itself, returns exactly when every [branches] directory of an 8-digit
    directory among them can be listed, and the units are then exactly the
    directories [base_dir/d/branches/cd] with [d] such a directory.  An
    8-digit string is eight characters that are all digits for
    [str.isdigit].  In the example tree only [unitA] is found, under both
    backends. *)
Theorem discovery_by_backend (E : Env) (base_dir : string) :
  (is_s3_path base_dir = true ->
   forall objects,
     list_s3_objects E base_dir = Ok objects ->
     exists bucket prefix units,
       parse_s3_path E base_dir = Ok (bucket, prefix)
       /\ _get_catchment_dirs E base_dir = Ok units
       /\ forall p,
            In p units <->
            exists key d,
              In key objects /\ qualifies (PyStr.split "/" key) d
              /\ p = ("s3://" ++ bucket ++ "/" ++ d)%string)
  /\ (is_s3_path base_dir = false ->
      forall names,
        listdir E base_dir = Ok names ->
        ((exists units, _get_catchment_dirs E base_dir = Ok units)
         <-> branches_listable E base_dir names)
        /\ (forall units,
              _get_catchment_dirs E base_dir = Ok units ->
              forall p, In p units <-> local_unit E base_dir names p))
  /\ (forall huc, is_huc huc = true <-> PyStr.isdigit huc = true /\ PyStr.len huc = 8)
  /\ is_huc "12345678" = true
  /\ _get_catchment_dirs (example_env permissive_engine) "/data"
     = Ok ["/data/12345678/branches/unitA"%string]
  /\ _get_catchment_dirs (example_env permissive_engine) "s3://bucket"
     = Ok ["s3://bucket/12345678/branches/unitA"%string].
Proof.
  split; [| split; [| split; [| split; [| split]; vm_compute; reflexivity]]].
  - intros Hs3 objects Hls. unfold _get_catchment_dirs. rewrite Hs3, Hls.
    cbn [res_bind]. unfold list_s3_objects in Hls.
    destruct (parse_s3_path E base_dir) as [[bucket prefix] | e]; [| discriminate].
    cbn [res_bind fst]. exists bucket, prefix. eexists.
    split; [reflexivity |]. split; [reflexivity |].
    intros p. rewrite in_map_iff. split.
    + intros (d & <- & Hd). apply list_elem_of_In, elem_of_elements in Hd.
      apply remote_dirs_spec in Hd. destruct Hd as (key & Hkey & Hq).
      exists key, d. repeat split; assumption.
    + intros (key & d & Hkey & Hq & ->). exists d. split; [reflexivity |].
      apply list_elem_of_In, elem_of_elements, remote_dirs_spec.
      exists key. split; assumption.
  - intros Hs3 names Hls. unfold _get_catchment_dirs. rewrite Hs3, Hls.
    cbn [res_bind]. apply local_catchment_dirs_spec.
  - intros huc. unfold is_huc. rewrite andb_true_iff, Nat.eqb_eq. reflexivity.
Qed.

Lemma discovery_by_backend_witness :
  is_s3_path "s3://nested" = true
  /\ list_s3_objects (example_env permissive_engine) "s3://nested"
     = Ok ["x/12345678/branches/unitA/gw_catchments_0.gpkg"%string]
  /\ exists units,
       _get_catchment_dirs (example_env permissive_engine) "s3://nested" = Ok units
       /\ In "s3://nested/x/12345678/branches/unitA"%string units.
Proof.
  split; [reflexivity |]. split; [vm_compute; reflexivity |].
  destruct (proj1 (discovery_by_backend (example_env permissive_engine) "s3://nested")
              eq_refl ["x/12345678/branches/unitA/gw_catchments_0.gpkg"%string])
    as (bucket & prefix & units & Hparse & Hrun & Hspec).
  - vm_compute; reflexivity.
  - exists units. split; [exact Hrun |]. apply Hspec.
    assert (Hb : bucket = "nested"%string).
    { assert (H : parse_s3_path (example_env permissive_engine) "s3://nested"
                  = Ok ("nested"%string, EmptyString)) by (vm_compute; reflexivity).
      rewrite H in Hparse. inversion Hparse. reflexivity. }
    subst bucket.
    exists "x/12345678/branches/unitA/gw_catchments_0.gpkg"%string,
           "x/12345678/branches/unitA"%string.
    split; [left; reflexivity |]. split; [| reflexivity].
    exists 1, "12345678"%string, "unitA"%string. repeat split.
Defined.

(** C4 as stated fails on the local backend: the directory
    [/nested/x/12345678/branches/unitA] lies under the root [/nested] and
    its segments meet the criterion, yet the local walk returns nothing,
    while the remote scan of the mirrored bucket returns the unit. *)
Lemma local_discovery_is_not_recursive :
  isdir (example_env permissive_engine) "/nested/x/12345678/branches/unitA" = true
  /\ qualifies (PyStr.split "/" "/nested/x/12345678/branches/unitA")
       "/nested/x/12345678/branches/unitA"
  /\ _get_catchment_dirs (example_env permissive_engine) "/nested" = Ok []
  /\ _get_catchment_dirs (example_env permissive_engine) "s3://nested"
     = Ok ["s3://nested/x/12345678/branches/unitA"%string].
Proof.
  split; [vm_compute; reflexivity |]. split; [| split; vm_compute; reflexivity].
  exists 3, "12345678"%string, "unitA"%string. repeat split.
Qed.

(* ===================================================================== *)
(** ** The batch loop *)
(* ===================================================================== *)

(** C2 (the code departs from the claim).  Running the loader a second
    time over the same two units: the engine refuses the first unit's
    [Catchments] insert as a duplicate key, the handler prints the error
    and then reads the local [catchment_id], which was never assigned;
    [load_hand_data] ends with that exception and the second unit is never
    attempted. *)
Theorem rerun_stops_at_the_first_unit :
  let E := example_env primary_key_engine in
  let first_run := load_hand_data E example_loader "/two" (initial_state empty_db) in
  let second_run :=
    load_hand_data E example_loader "/two" (initial_state (st_db (snd first_run))) in
  fst first_run = Ok tt
  /\ Catchments (st_db (snd first_run)) = [example_u1; example_u2]
  /\ fst second_run = Raise (UnboundLocalError "catchment_id")
  /\ st_log (snd second_run)
     = [LFound 2; LProcessing 1 2 "/two/12345678/branches/u1"; LLoadingGeometry;
        LErrorProcessing "/two/12345678/branches/u1" (DbError (InsertCatchment example_u1))]
  /\ ~ In (LProcessing 2 2 "/two/12345678/branches/u2") (st_log (snd second_run)).
Proof.
  cbv zeta.
  split; [vm_compute; reflexivity |]. split; [vm_compute; reflexivity |].
  split; [vm_compute; reflexivity |].
  assert (Hlog : st_log (snd (load_hand_data (example_env primary_key_engine)
                   example_loader "/two"
                   (initial_state (st_db (snd (load_hand_data
                      (example_env primary_key_engine) example_loader "/two"
                      (initial_state empty_db)))))))
     = [LFound 2; LProcessing 1 2 "/two/12345678/branches/u1"; LLoadingGeometry;
        LErrorProcessing "/two/12345678/branches/u1"
          (DbError (InsertCatchment example_u1))])
    by (vm_compute; reflexivity).
  split; [exact Hlog |]. rewrite Hlog.
  intros [H | [H | [H | [H | []]]]]; discriminate.
Qed.

(** C3 (the code departs from the claim).  Two units, the second of which
    is already in [Catchments]: the first unit is loaded and committed;
    the second unit's insert is refused before [catchment_id] is
    reassigned, so the cleanup runs on the first unit's identity and
    deletes its committed [Hydrotables], [HAND_REM_Rasters] and
    [Catchments] rows, which belong to another catchment than the failed
    one. *)
Theorem cleanup_deletes_the_previous_catchment :
  let E := example_env primary_key_engine in
  let u1 := cat_catchment_id example_u1 in
  let run := load_hand_data E example_loader "/two"
               (initial_state (mkDb [example_u2] [] [] [] [])) in
  fst run = Ok tt
  /\ In (InsertCatchment example_u1) (st_sql (snd run))
  /\ In (LErrorProcessing "/two/12345678/branches/u2" (DbError (InsertCatchment example_u2)))
        (st_log (snd run))
  /\ last (st_log (snd run)) = Some (LCleaningUp u1)
  /\ skipn (length (st_sql (snd run)) - 3) (st_sql (snd run))
     = [DeleteHydrotables u1 "v3.0"; DeleteRemRasters u1 "v3.0"; DeleteCatchments u1 "v3.0"]
  /\ u1 <> cat_catchment_id example_u2
  /\ Catchments (st_db (snd run)) = [example_u2]
  /\ Hydrotables (st_db (snd run)) = []
  /\ HAND_REM_Rasters (st_db (snd run)) = []
  /\ length (HAND_Catchment_Rasters (st_db (snd run))) = 1.
Proof.
  cbv zeta.
  split; [vm_compute; reflexivity |].
  split.
  { assert (H : hd_error (st_sql (snd (load_hand_data (example_env primary_key_engine)
                  example_loader "/two" (initial_state (mkDb [example_u2] [] [] [] [])))))
                = Some (InsertCatchment example_u1)) by (vm_compute; reflexivity).
    destruct (st_sql _); [discriminate |]. inversion H. left. reflexivity. }
  split.
  { assert (H : nth_error (st_log (snd (load_hand_data (example_env primary_key_engine)
                  example_loader "/two" (initial_state (mkDb [example_u2] [] [] [] []))))) 8
                = Some (LErrorProcessing "/two/12345678/branches/u2"
                          (DbError (InsertCatchment example_u2))))
      by (vm_compute; reflexivity).
    eapply nth_error_In, H. }
  split; [vm_compute; reflexivity |].
  split; [vm_compute; reflexivity |].
  split; [vm_compute; discriminate |].
  repeat split; vm_compute; reflexivity.
Qed.

(** The three deletes of the cleanup touch only the rows of the identity
    and hand version they are given. *)
Lemma purge_keeps_other_rows (cid hv : string) (db : Database) :
  (forall r, In r (Catchments db) ->
             owned_by cid hv (cat_catchment_id r) (cat_hand_version_id r) = false ->
             In r (Catchments (purge cid hv db)))
  /\ (forall r, In r (Hydrotables db) ->
                owned_by cid hv (hy_catchment_id r) (hy_hand_version_id r) = false ->
                In r (Hydrotables (purge cid hv db)))
  /\ (forall r, In r (HAND_REM_Rasters db) ->
                owned_by cid hv (rem_catchment_id r) (rem_hand_version_id r) = false ->
                In r (HAND_REM_Rasters (purge cid hv db)))
  /\ HAND_Catchment_Rasters (purge cid hv db) = HAND_Catchment_Rasters db
  /\ NWM_Features (purge cid hv db) = NWM_Features db.
Proof.
  unfold purge. cbn.
  repeat split; intros r Hin Hown; apply filter_In; (split; [exact Hin | rewrite Hown; reflexivity]).
Qed.

(* ===================================================================== *)
(** ** Storage addressing and file listing *)
(* ===================================================================== *)

Section Strings.

Lemma append_cons (c : ascii) (a b : string) :
  (String c a ++ b)%string = String c (a ++ b)%string.
Proof. reflexivity. Qed.

Lemma append_nil_l (b : string) : (EmptyString ++ b)%string = b.
Proof. reflexivity. Qed.

Lemma startswith_app (p s : string) : PyStr.startswith (p ++ s)%string p = true.
Proof.
  induction p as [| c p IH]; [destruct s; reflexivity |].
  rewrite append_cons. cbn [PyStr.startswith]. rewrite Ascii.eqb_refl. exact IH.
Qed.

Lemma startswith_app_l (a b p : string) :
  PyStr.startswith a p = true -> PyStr.startswith (a ++ b)%string p = true.
Proof.
  revert a. induction p as [| c p IH]; intros a H.
  - destruct (a ++ b)%string; reflexivity.
  - destruct a as [| d a]; [discriminate |]. rewrite append_cons.
    cbn [PyStr.startswith] in *.
    destruct (Ascii.eqb c d); [apply IH, H | discriminate].
Qed.

Lemma endswith_app (a b e : string) :
  PyStr.endswith b e = true -> PyStr.endswith (a ++ b)%string e = true.
Proof.
  intros H. induction a as [| c a IH]; [exact H |].
  rewrite append_cons. cbn [PyStr.endswith]. rewrite IH. apply orb_true_r.
Qed.

Lemma contains_app_r (a b p : string) :
  PyStr.contains b p = true -> PyStr.contains (a ++ b)%string p = true.
Proof.
  intros H. induction a as [| c a IH]; [exact H |].
  rewrite append_cons. cbn [PyStr.contains]. rewrite IH. apply orb_true_r.
Qed.

Lemma contains_app_l (a b p : string) :
  PyStr.contains a p = true -> PyStr.contains (a ++ b)%string p = true.
Proof.
  induction a as [| c a IH]; intros H.
  - cbn in H. rewrite orb_false_r in H. destruct p; [| discriminate].
    destruct b; reflexivity.
  - rewrite append_cons. change (PyStr.contains (String c (a ++ b)) p)
      with (PyStr.startswith (String c (a ++ b)) p || PyStr.contains (a ++ b) p).
    change (PyStr.contains (String c a) p)
      with (PyStr.startswith (String c a) p || PyStr.contains a p) in H.
    apply orb_true_iff in H. apply orb_true_iff. destruct H as [H | H].
    + left. apply (startswith_app_l (String c a) b p H).
    + right. apply IH, H.
Qed.

Lemma all_chars_impl (p q : ascii -> bool) (s : string) :
  (forall c, p c = true -> q c = true) -> all_chars p s = true -> all_chars q s = true.
Proof.
  intros Hpq. induction s as [| c s IH]; cbn; [reflexivity |].
  intros H. apply andb_true_iff in H. destruct H as [H1 H2].
  rewrite (Hpq c H1), (IH H2). reflexivity.
Qed.

Lemma break_at_stop (stop : ascii -> bool) (a : string) (c : ascii) (b : string) :
  all_chars (fun x => negb (stop x)) a = true -> stop c = true ->
  PyStr.break_at stop (a ++ String c b)%string = (a, String c b).
Proof.
  intros Ha Hc. induction a as [| x a IH]; rewrite ?append_cons, ?append_nil_l;
    cbn [PyStr.break_at].
  - rewrite Hc. reflexivity.
  - cbn in Ha. apply andb_true_iff in Ha. destruct Ha as [Hx Ha].
    apply negb_true_iff in Hx. rewrite Hx, (IH Ha). reflexivity.
Qed.

Lemma break_at_none (stop : ascii -> bool) (a : string) :
  all_chars (fun x => negb (stop x)) a = true ->
  PyStr.break_at stop a = (a, EmptyString).
Proof.
  induction a as [| x a IH]; cbn; [reflexivity |].
  intros Ha. apply andb_true_iff in Ha. destruct Ha as [Hx Ha].
  apply negb_true_iff in Hx. rewrite Hx, (IH Ha). reflexivity.
Qed.

Lemma lstrip_no_lead (c : ascii) (s : string) :
  PyStr.startswith s (String c EmptyString) = false -> PyStr.lstrip c s = s.
Proof.
  destruct s as [| d s]; [reflexivity |]. cbn.
  destruct (Ascii.eqb c d); [| reflexivity]. destruct s; discriminate.
Qed.

Lemma append_inj_l (a b c : string) : (a ++ b)%string = (a ++ c)%string -> b = c.
Proof.
  induction a as [| x a IH]; rewrite ?append_cons, ?append_nil_l; [auto |].
  intros H. inversion H. auto.
Qed.

(** Text that holds no stop character is passed over. *)
Lemma break_at_app (stop : ascii -> bool) (a b : string) :
  all_chars (fun x => negb (stop x)) a = true ->
  fst (PyStr.break_at stop (a ++ b)%string) = (a ++ fst (PyStr.break_at stop b))%string.
Proof.
  intros Ha. induction a as [| x a IH]; rewrite ?append_cons, ?append_nil_l; [reflexivity |].
  cbn in Ha. apply andb_true_iff in Ha. destruct Ha as [Hx Ha].
  apply negb_true_iff in Hx. cbn [PyStr.break_at]. rewrite Hx.
  specialize (IH Ha). destruct (PyStr.break_at stop (a ++ b)) as [u v].
  cbn [fst] in *. rewrite IH. reflexivity.
Qed.

Lemma remove_chars_app (p : ascii -> bool) (a b : string) :
  PyStr.remove_chars p (a ++ b)%string
  = (PyStr.remove_chars p a ++ PyStr.remove_chars p b)%string.
Proof.
  induction a as [| x a IH]; rewrite ?append_cons, ?append_nil_l; [reflexivity |].
  cbn [PyStr.remove_chars]. destruct (p x); rewrite IH; reflexivity.
Qed.

Lemma remove_chars_none (p : ascii -> bool) (a : string) :
  all_chars (fun x => negb (p x)) a = true -> PyStr.remove_chars p a = a.
Proof.
  induction a as [| x a IH]; cbn; [reflexivity |].
  intros Ha. apply andb_true_iff in Ha. destruct Ha as [Hx Ha].
  apply negb_true_iff in Hx. rewrite Hx, (IH Ha). reflexivity.
Qed.

Lemma has_char_none (c : ascii) (a : string) :
  all_chars (fun x => negb (Ascii.eqb x c)) a = true -> PyStr.has_char c a = false.
Proof. unfold PyStr.has_char. intros ->. reflexivity. Qed.

Lemma res_map_in {A B} (f : A -> Res B) (l : list A) (ys : list B) (y : B) :
  res_map f l = Ok ys -> In y ys -> exists x, In x l /\ f x = Ok y.
Proof.
  revert ys. induction l as [| x l IH]; intros ys H Hin; cbn [res_map] in H.
  - inversion H; subst. destruct Hin.
  - destruct (f x) as [y0 |] eqn:Hx; cbn [res_bind] in H; [| discriminate].
    destruct (res_map f l) as [ys0 |]; cbn [res_bind] in H; [| discriminate].
    inversion H; subst ys. destruct Hin as [<- | Hin].
    + exists x. split; [left; reflexivity | exact Hx].
    + destruct (IH ys0 eq_refl Hin) as (x' & Hx' & Hf). exists x'. split; [right |]; assumption.
Qed.


End Strings.

Lemma key_char_safe (c : ascii) : key_char_ok c = true -> negb (Url.is_unsafe c) = true.
Proof.
  unfold key_char_ok, Url.is_unsafe. intros H.
  apply andb_true_iff in H. destruct H as [_ H]. apply Nat.leb_le in H.
  apply negb_true_iff. cbv zeta.
  destruct (Nat.eqb_spec (nat_of_ascii c) 9); [lia |].
  destruct (Nat.eqb_spec (nat_of_ascii c) 13); [lia |].
  destruct (Nat.eqb_spec (nat_of_ascii c) 10); [lia | reflexivity].
Qed.

Lemma key_char_facts (c : ascii) :
  key_char_ok c = true ->
  negb (Ascii.eqb c "?") = true /\ negb (Ascii.eqb c "#") = true.
Proof.
  unfold key_char_ok. intros H.
  apply andb_true_iff in H. destruct H as [H _].
  apply andb_true_iff in H. exact H.
Qed.

Lemma bucket_char_facts (c : ascii) :
  bucket_char_ok c = true ->
  key_char_ok c = true
  /\ Url.is_ascii c = true
  /\ negb (Ascii.eqb c "/" || Ascii.eqb c "?" || Ascii.eqb c "#")%char = true
  /\ negb (Ascii.eqb c "[") = true /\ negb (Ascii.eqb c "]") = true.
Proof.
  unfold bucket_char_ok. intros H.
  apply andb_true_iff in H. destruct H as [H Hclose].
  apply andb_true_iff in H. destruct H as [H Hopen].
  apply andb_true_iff in H. destruct H as [H Hslash].
  apply andb_true_iff in H. destruct H as [Hkey Hascii].
  repeat split; try assumption.
  destruct (key_char_facts c Hkey) as [Hq Hh].
  apply negb_true_iff in Hq, Hh, Hslash. rewrite Hq, Hh, Hslash. reflexivity.
Qed.

(** [urlparse] on [s3://bucket/tail] for a plain bucket name: the scheme
    is [s3], the host is the bucket, and the path is the rest up to the
    first [#] or [?], tabs and line ends taken out. *)
Lemma urlparse_s3 (normalize_nfkc : string -> string) (bracketed_host_ok : string -> bool)
  (bucket tail : string) :
  all_chars bucket_char_ok bucket = true ->
  Url.urlparse normalize_nfkc bracketed_host_ok (s3_uri bucket tail)
  = Ok ("s3"%string, bucket,
        fst (PyStr.break_at (fun c => Ascii.eqb c "?")
               (fst (PyStr.break_at (fun c => Ascii.eqb c "#")
                       (String "/" (PyStr.remove_chars Url.is_unsafe tail)))))).
Proof.
  intros Hb.
  assert (H1 : all_chars (fun c => negb (Url.is_unsafe c)) bucket = true).
  { apply (all_chars_impl bucket_char_ok); [| exact Hb].
    intros c Hc. apply key_char_safe, bucket_char_facts, Hc. }
  assert (H2 : all_chars (fun c => negb (Ascii.eqb c "/" || Ascii.eqb c "?" || Ascii.eqb c "#"))
                 bucket = true).
  { apply (all_chars_impl bucket_char_ok); [| exact Hb].
    intros c Hc. apply bucket_char_facts, Hc. }
  assert (H3 : PyStr.has_char "[" bucket = false).
  { apply has_char_none, (all_chars_impl bucket_char_ok); [| exact Hb].
    intros c Hc. apply bucket_char_facts, Hc. }
  assert (H4 : PyStr.has_char "]" bucket = false).
  { apply has_char_none, (all_chars_impl bucket_char_ok); [| exact Hb].
    intros c Hc. apply bucket_char_facts, Hc. }
  assert (H5 : all_chars Url.is_ascii bucket = true).
  { apply (all_chars_impl bucket_char_ok); [| exact Hb].
    intros c Hc. apply bucket_char_facts, Hc. }
  unfold Url.urlparse, s3_uri. rewrite !append_cons, !append_nil_l.
  cbn [PyStr.lstrip_set]. change (Url.is_c0_control_or_space "s") with false. cbv iota.
  cbn [PyStr.remove_chars].
  change (Url.is_unsafe "s") with false. change (Url.is_unsafe "3") with false.
  change (Url.is_unsafe ":") with false. change (Url.is_unsafe "/") with false. cbv iota.
  rewrite remove_chars_app, (remove_chars_none _ _ H1).
  cbn [PyStr.remove_chars]. change (Url.is_unsafe "/") with false. cbv iota.
  change (Url.split_scheme (String "s" (String "3" (String ":" ?r)))) with ("s3"%string, r).
  cbn [PyStr.startswith]. rewrite !Ascii.eqb_refl. cbn [PyStr.drop_chars].
  rewrite (break_at_stop _ bucket "/" _ H2 eq_refl).
  rewrite H3, H4. cbn [andb orb negb].
  replace (PyStr.startswith (bucket ++ String "/" (PyStr.remove_chars Url.is_unsafe tail))
             EmptyString) with true by (destruct (bucket ++ _)%string; reflexivity).
  cbn [res_bind]. unfold Url.checknetloc. rewrite H5, orb_true_r.
  reflexivity.
Qed.



(** [parse_s3_path] undoes [f"s3://{bucket}/{key}"]: for an ASCII bucket
    name without [/ ? # [ ]] and a key without [? #] (neither with control
    characters), the URI is recognised as remote and parses back to the
    bucket and to the key stripped of leading slashes, which is the key
    itself when it starts with none. *)
Theorem parse_s3_path_of_uri (E : Env) (bucket key : string) :
  all_chars bucket_char_ok bucket = true ->
  all_chars key_char_ok key = true ->
  is_s3_path (s3_uri bucket key) = true
  /\ parse_s3_path E (s3_uri bucket key) = Ok (bucket, PyStr.lstrip "/"%char key)
  /\ (PyStr.startswith key "/" = false ->
      parse_s3_path E (s3_uri bucket key) = Ok (bucket, key)).
Proof.
  intros Hb Hk.
  assert (Hparse : parse_s3_path E (s3_uri bucket key)
                   = Ok (bucket, PyStr.lstrip "/"%char key)).
  { unfold parse_s3_path.
    assert (H1 : all_chars (fun c => negb (Url.is_unsafe c)) key = true)
      by (apply (all_chars_impl key_char_ok); [apply key_char_safe | exact Hk]).
    assert (H2 : all_chars (fun c => negb (Ascii.eqb c "#")) (String "/" key) = true).
    { cbn [all_chars]. apply andb_true_iff. split; [reflexivity |].
      apply (all_chars_impl key_char_ok); [| exact Hk]. intros c Hc. apply key_char_facts, Hc. }
    assert (H3 : all_chars (fun c => negb (Ascii.eqb c "?")) (String "/" key) = true).
    { cbn [all_chars]. apply andb_true_iff. split; [reflexivity |].
      apply (all_chars_impl key_char_ok); [| exact Hk]. intros c Hc. apply key_char_facts, Hc. }
    rewrite (urlparse_s3 _ _ bucket key Hb), (remove_chars_none _ _ H1).
    rewrite (break_at_none _ _ H2). cbn [fst]. rewrite (break_at_none _ _ H3).
    cbn [res_bind fst snd PyStr.lstrip]. rewrite Ascii.eqb_refl. reflexivity. }
  split; [apply startswith_app |]. split; [exact Hparse |].
  intros Hlead. rewrite Hparse, lstrip_no_lead; [reflexivity | exact Hlead].
Qed.

Lemma parse_s3_path_of_uri_witness :
  parse_s3_path (example_env permissive_engine) (s3_uri "bucket" "12345678/branches/unitA")
  = Ok ("bucket"%string, "12345678/branches/unitA"%string).
Proof.
  apply (parse_s3_path_of_uri (example_env permissive_engine) "bucket"
           "12345678/branches/unitA"); reflexivity.
Defined.

(** A key that holds a [?] or a [#] does not come back: for an ASCII
    bucket name without [/ ? # [ ]] and control characters,
    [parse_s3_path] cuts the key at the first such mark, whatever follows
    it. *)
Theorem parse_s3_path_cuts_at_mark (E : Env) (bucket a : string) (c : ascii) (b : string) :
  all_chars bucket_char_ok bucket = true ->
  all_chars key_char_ok a = true ->
  (Ascii.eqb c "?" || Ascii.eqb c "#")%char = true ->
  parse_s3_path E (s3_uri bucket (a ++ String c b))
  = Ok (bucket, PyStr.lstrip "/"%char a).
Proof.
  intros Hb Ha Hc. unfold parse_s3_path.
  assert (H1 : all_chars (fun c => negb (Url.is_unsafe c)) a = true)
    by (apply (all_chars_impl key_char_ok); [apply key_char_safe | exact Ha]).
  assert (H2 : all_chars (fun c => negb (Ascii.eqb c "#")) (String "/" a) = true).
  { cbn [all_chars]. apply andb_true_iff. split; [reflexivity |].
    apply (all_chars_impl key_char_ok); [| exact Ha]. intros x Hx. apply key_char_facts, Hx. }
  assert (H3 : all_chars (fun c => negb (Ascii.eqb c "?")) (String "/" a) = true).
  { cbn [all_chars]. apply andb_true_iff. split; [reflexivity |].
    apply (all_chars_impl key_char_ok); [| exact Ha]. intros x Hx. apply key_char_facts, Hx. }
  rewrite (urlparse_s3 _ _ bucket _ Hb), remove_chars_app, (remove_chars_none _ _ H1).
  rewrite <- (append_cons "/" a).
  apply orb_true_iff in Hc. destruct Hc as [Hc | Hc]; apply Ascii.eqb_eq in Hc; subst c.
  - (* a question mark: the fragment is cut first, then the query *)
    cbn [PyStr.remove_chars]. change (Url.is_unsafe "?") with false. cbv iota.
    rewrite (break_at_app _ _ _ H2). cbn [PyStr.break_at].
    change (Ascii.eqb "?" "#") with false. cbv iota.
    destruct (PyStr.break_at (fun c => Ascii.eqb c "#") (PyStr.remove_chars Url.is_unsafe b))
      as [u v]. cbn [fst].
    rewrite (break_at_stop _ _ "?" u H3 eq_refl).
    cbn [res_bind fst snd PyStr.lstrip]. rewrite Ascii.eqb_refl. reflexivity.
  - cbn [PyStr.remove_chars]. change (Url.is_unsafe "#") with false. cbv iota.
    rewrite (break_at_stop _ _ "#" _ H2 eq_refl). cbn [fst].
    rewrite (break_at_none _ _ H3).
    cbn [res_bind fst snd PyStr.lstrip]. rewrite Ascii.eqb_refl. reflexivity.
Qed.

Lemma parse_s3_path_cuts_at_mark_witness :
  parse_s3_path (example_env permissive_engine)
    (s3_uri "bucket" "units/a#1/rem_zeroed_0.tif")
  = Ok ("bucket"%string, "units/a"%string).
Proof.
  apply (parse_s3_path_cuts_at_mark (example_env permissive_engine) "bucket" "units/a"
           "#"%char "1/rem_zeroed_0.tif"); reflexivity.
Defined.

(** Whatever [_get_files] returns matches the filter: each path ends with
    the extension and contains the pattern, on both backends. *)
Theorem get_files_match_filter (E : Env) (directory extension pattern : string)
  (files : list string) (p : string) :
  _get_files E directory extension pattern = Ok files ->
  In p files ->
  PyStr.endswith p extension = true /\ PyStr.contains p pattern = true.
Proof.
  unfold _get_files. intros H Hin.
  destruct (is_s3_path directory).
  - destruct (list_s3_objects E directory) as [objects | e]; [| discriminate].
    cbn [res_bind] in H. destruct (res_map_in _ _ _ _ H Hin) as (key & Hkey & Hp).
    destruct (parse_s3_path E directory) as [bp | e]; cbn [res_bind] in Hp; [| discriminate].
    inversion Hp; subst p. apply filter_In in Hkey.
    destruct Hkey as [_ Hf]. apply andb_true_iff in Hf. destruct Hf as [He Hc].
    split.
    + apply endswith_app, endswith_app, endswith_app, He.
    + apply contains_app_r, contains_app_r, contains_app_r, Hc.
  - destruct (listdir E directory) as [names | e]; [| discriminate].
    cbn [res_bind] in H. inversion H; subst. apply in_map_iff in Hin.
    destruct Hin as (f & <- & Hf). apply filter_In in Hf.
    destruct Hf as [_ Hf]. apply andb_true_iff in Hf. destruct Hf as [He Hc].
    unfold path_join. destruct (PyStr.startswith f "/"); [split; assumption |].
    destruct (String.eqb directory EmptyString || PyStr.endswith directory "/").
    + split; [apply endswith_app, He | apply contains_app_r, Hc].
    + split; [apply endswith_app, endswith_app, He
             | apply contains_app_r, contains_app_r, Hc].
Qed.

Lemma get_files_match_filter_witness :
  PyStr.endswith "/data/12345678/branches/unitA/rem_zeroed_0.tif" ".tif" = true
  /\ PyStr.contains "/data/12345678/branches/unitA/rem_zeroed_0.tif" "rem_zeroed_" = true.
Proof.
  apply (get_files_match_filter (example_env permissive_engine)
           "/data/12345678/branches/unitA" ".tif" "rem_zeroed_"
           ["/data/12345678/branches/unitA/rem_zeroed_0.tif"%string]).
  - vm_compute; reflexivity.
  - left; reflexivity.
Defined.



Section Units.

Variable E : Env.

Lemma join_cons_char (c : ascii) (sep p : string) (l : list string) :
  PyStr.join sep (String c p :: l) = String c (PyStr.join sep (p :: l)).
Proof. destruct l; reflexivity. Qed.

Lemma split_nonempty (sep : ascii) (s : string) : PyStr.split sep s <> [].
Proof.
  induction s as [| c s IH]; cbn; [discriminate |].
  destruct (Ascii.eqb c sep); [discriminate |].
  destruct (PyStr.split sep s); [contradiction | discriminate].
Qed.

(** Joining the first segments of a split string gives a prefix of it. *)
Lemma join_firstn_split_prefix (sep : ascii) (s : string) (k : nat) :
  PyStr.startswith s (PyStr.join (String sep EmptyString) (firstn k (PyStr.split sep s)))
  = true.
Proof.
  revert k. induction s as [| c s IH]; intros k.
  - destruct k; [reflexivity |]. cbn [PyStr.split firstn]. rewrite firstn_nil. reflexivity.
  - cbn [PyStr.split]. destruct (Ascii.eqb c sep) eqn:Hc.
    + apply Ascii.eqb_eq in Hc. subst c. destruct k; [reflexivity |].
      cbn [firstn PyStr.join].
      specialize (IH k). destruct (firstn k (PyStr.split sep s)) as [| q l] eqn:Hl.
      * reflexivity.
      * rewrite append_nil_l, append_cons, append_nil_l. cbn [PyStr.startswith].
        rewrite Ascii.eqb_refl. exact IH.
    + destruct (PyStr.split sep s) as [| p ps] eqn:Hs;
        [exfalso; exact (split_nonempty sep s Hs) |].
      destruct k; [reflexivity |]. cbn [firstn]. rewrite join_cons_char.
      cbn [PyStr.startswith]. rewrite Ascii.eqb_refl. apply (IH (S k)).
Qed.

Lemma qualifies_prefix (key d : string) :
  qualifies (PyStr.split "/" key) d -> PyStr.startswith key d = true.
Proof.
  intros (i & huc & unit & _ & _ & _ & _ & ->). apply join_firstn_split_prefix.
Qed.

Lemma NoDup_map_inj {A B} (f : A -> B) (l : list A) :
  (forall x y, f x = f y -> x = y) -> NoDup l -> NoDup (map f l).
Proof.
  intros Hinj. induction 1 as [| x l Hx Hnd IH]; cbn [map]; constructor.
  - rewrite list_elem_of_In, in_map_iff. intros (y & Hy & Hin).
    apply Hinj in Hy. subst y. apply Hx. apply list_elem_of_In. exact Hin.
  - exact IH.
Qed.

(** The units the remote branch returns are pairwise distinct, and each is
    [s3://bucket/d] for a [d] that is a prefix of a listed key whose
    segments meet the criterion. *)
Theorem remote_units_distinct_prefixes (base_dir : string) (objects units : list string) :
  is_s3_path base_dir = true ->
  list_s3_objects E base_dir = Ok objects ->
  _get_catchment_dirs E base_dir = Ok units ->
  NoDup units
  /\ exists bucket prefix,
       parse_s3_path E base_dir = Ok (bucket, prefix)
       /\ forall p,
            In p units ->
            exists key d,
              In key objects /\ qualifies (PyStr.split "/" key) d
              /\ PyStr.startswith key d = true
              /\ p = s3_uri bucket d.
Proof.
  intros Hs3 Hls Hrun. unfold _get_catchment_dirs in Hrun. rewrite Hs3, Hls in Hrun.
  cbn [res_bind] in Hrun.
  destruct (parse_s3_path E base_dir) as [[bucket prefix] | e]; [| discriminate].
  cbn [res_bind fst] in Hrun. inversion Hrun; subst units. split.
  - apply NoDup_map_inj; [| apply NoDup_elements].
    intros x y H. apply append_inj_l, append_inj_l, append_inj_l in H. exact H.
  - exists bucket, prefix. split; [reflexivity |].
    intros p Hp. apply in_map_iff in Hp. destruct Hp as (d & <- & Hd).
    apply list_elem_of_In, elem_of_elements, remote_dirs_spec in Hd.
    destruct Hd as (key & Hkey & Hq). exists key, d.
    split; [exact Hkey |]. split; [exact Hq |]. split; [apply qualifies_prefix, Hq |].
    reflexivity.
Qed.

End Units.

Lemma remote_units_distinct_prefixes_witness :
  NoDup ["s3://bucket/12345678/branches/unitA"%string].
Proof.
  apply (remote_units_distinct_prefixes (example_env permissive_engine) "s3://bucket"
           [ "12345678/branches/unitA/gw_catchments_0.gpkg"%string;
             "12345678/branches/unitA/hydroTable_0.csv"%string;
             "12345678/branches/unitA/rem_zeroed_0.tif"%string;
             "12345678/branches/unitA/gw_catchments_0.tif"%string;
             "12345678/nope/unitB/gw_catchments_0.gpkg"%string ]).
  - reflexivity.
  - vm_compute; reflexivity.
  - vm_compute; reflexivity.
Defined.


Section UnitKinds.

Variable E : Env.

Lemma split_no_sep (sep : ascii) (a : string) :
  all_chars (fun c => negb (Ascii.eqb c sep)) a = true -> PyStr.split sep a = [a].
Proof.
  induction a as [| c a IH]; cbn [all_chars PyStr.split]; [reflexivity |].
  intros H. apply andb_true_iff in H. destruct H as [Hc Ha].
  apply negb_true_iff in Hc. rewrite Hc, (IH Ha). reflexivity.
Qed.

Lemma split_app_sep (sep : ascii) (a b : string) :
  all_chars (fun c => negb (Ascii.eqb c sep)) a = true ->
  PyStr.split sep (a ++ String sep b)%string = a :: PyStr.split sep b.
Proof.
  induction a as [| c a IH]; rewrite ?append_cons, ?append_nil_l;
    cbn [all_chars PyStr.split].
  - intros _. rewrite Ascii.eqb_refl. reflexivity.
  - intros H. apply andb_true_iff in H. destruct H as [Hc Ha].
    apply negb_true_iff in Hc. rewrite Hc, (IH Ha). reflexivity.
Qed.

Lemma isdigit_char_no_slash (cp : Z) : PyStr.isdigit_char cp = true -> cp <> 47%Z.
Proof.
  unfold PyStr.isdigit_char. rewrite existsb_exists. intros (r & Hin & Hr) ->.
  assert (Hall : forallb (fun r => (48 <=? fst r)%Z) PyStr.digit_ranges = true)
    by (vm_compute; reflexivity).
  rewrite forallb_forall in Hall. apply Hall in Hin.
  apply andb_true_iff in Hr. destruct Hr as [Hr _]. lia.
Qed.

Lemma second_of_3_cont (b0 b : Z) : PyStr.second_of_3 b0 b = true -> PyStr.is_cont b = true.
Proof.
  unfold PyStr.second_of_3, PyStr.is_cont.
  destruct (b0 =? 224)%Z; [| destruct (b0 =? 237)%Z]; intros H; try exact H;
    apply andb_true_iff in H; destruct H as [H1 H2]; apply andb_true_iff; split; lia.
Qed.

Lemma second_of_4_cont (b0 b : Z) : PyStr.second_of_4 b0 b = true -> PyStr.is_cont b = true.
Proof.
  unfold PyStr.second_of_4, PyStr.is_cont.
  destruct (b0 =? 240)%Z; [| destruct (b0 =? 244)%Z]; intros H; try exact H;
    apply andb_true_iff in H; destruct H as [H1 H2]; apply andb_true_iff; split; lia.
Qed.

(** A continuation byte is no slash. *)
Lemma cont_tail (c : ascii) (s : string) :
  PyStr.is_cont (PyStr.byte c) = true ->
  all_chars (fun c => negb (Ascii.eqb c "/")) (String c s) = false ->
  all_chars (fun c => negb (Ascii.eqb c "/")) s = false.
Proof.
  intros Hc Ha. cbn [all_chars] in Ha.
  destruct (Ascii.eqb_spec c "/"%char) as [-> | _]; [discriminate | exact Ha].
Qed.

(** A slash among the bytes of a string is a slash among its code points. *)
Lemma code_points_slash (n : nat) (s : string) :
  String.length s <= n ->
  all_chars (fun c => negb (Ascii.eqb c "/")) s = false ->
  In 47%Z (PyStr.code_points s).
Proof.
  revert s. induction n as [| n IH]; intros s Hlen Hs.
  - destruct s; [discriminate | cbn in Hlen; lia].
  - destruct s as [| c0 s1]; [discriminate |].
    cbn [String.length] in Hlen. cbn [all_chars] in Hs.
    destruct (Ascii.eqb_spec c0 "/"%char) as [-> | Hc0]; [left; reflexivity |].
    cbn [negb andb] in Hs.
    assert (IH1 : In 47%Z (PyStr.code_points s1)) by (apply IH; [lia | exact Hs]).
    cbn [PyStr.code_points]. cbv zeta.
    destruct (PyStr.byte c0 <? 128)%Z; [right; exact IH1 |].
    destruct s1 as [| c1 s2]; [right; exact IH1 |].
    cbn [String.length] in Hlen.
    destruct ((194 <=? PyStr.byte c0)%Z && (PyStr.byte c0 <=? 223)%Z).
    { destruct (PyStr.is_cont (PyStr.byte c1)) eqn:H1; [| right; exact IH1].
      right. apply IH; [lia | exact (cont_tail _ _ H1 Hs)]. }
    destruct s2 as [| c2 s3]; [right; exact IH1 |].
    cbn [String.length] in Hlen.
    destruct ((224 <=? PyStr.byte c0)%Z && (PyStr.byte c0 <=? 239)%Z).
    { destruct (PyStr.second_of_3 (PyStr.byte c0) (PyStr.byte c1)) eqn:H1;
        [| right; exact IH1].
      destruct (PyStr.is_cont (PyStr.byte c2)) eqn:H2; [| right; exact IH1].
      cbn [andb]. right. apply IH; [lia |].
      exact (cont_tail _ _ H2 (cont_tail _ _ (second_of_3_cont _ _ H1) Hs)). }
    destruct s3 as [| c3 s4]; [right; exact IH1 |].
    cbn [String.length] in Hlen.
    destruct ((240 <=? PyStr.byte c0)%Z && (PyStr.byte c0 <=? 244)%Z); [| right; exact IH1].
    destruct (PyStr.second_of_4 (PyStr.byte c0) (PyStr.byte c1)) eqn:H1; [| right; exact IH1].
    destruct (PyStr.is_cont (PyStr.byte c2)) eqn:H2; [| right; exact IH1].
    destruct (PyStr.is_cont (PyStr.byte c3)) eqn:H3; [| right; exact IH1].
    cbn [andb]. right. apply IH; [lia |].
    exact (cont_tail _ _ H3 (cont_tail _ _ H2 (cont_tail _ _ (second_of_4_cont _ _ H1) Hs))).
Qed.

Lemma huc_has_no_slash (huc : string) :
  is_huc huc = true -> all_chars (fun c => negb (Ascii.eqb c "/")) huc = true.
Proof.
  unfold is_huc, PyStr.isdigit. intros H. apply andb_true_iff in H. destruct H as [H _].
  destruct (all_chars (fun c => negb (Ascii.eqb c "/")) huc) eqn:Ha; [reflexivity |].
  apply (code_points_slash (String.length huc)) in Ha; [| lia].
  destruct (PyStr.code_points huc) as [| cp cps] eqn:Hcp; [destruct Ha |].
  rewrite forallb_forall in H. apply H in Ha. apply isdigit_char_no_slash in Ha. congruence.
Qed.

(** On the remote backend an object stored directly under
    [<8 digits>/branches/] is itself returned as a catchment unit: nothing
    tells a file from a directory there. *)
Theorem remote_object_under_branches_is_a_unit (base_dir huc name : string)
  (objects : list string) :
  is_s3_path base_dir = true ->
  list_s3_objects E base_dir = Ok objects ->
  is_huc huc = true ->
  all_chars (fun c => negb (Ascii.eqb c "/")) name = true ->
  In (huc ++ "/branches/" ++ name)%string objects ->
  exists units bucket prefix,
    parse_s3_path E base_dir = Ok (bucket, prefix)
    /\ _get_catchment_dirs E base_dir = Ok units
    /\ In (s3_uri bucket (huc ++ "/branches/" ++ name)) units.
Proof.
  intros Hs3 Hls Hhuc Hname Hin. unfold _get_catchment_dirs. rewrite Hs3, Hls.
  cbn [res_bind]. unfold list_s3_objects in Hls.
  destruct (parse_s3_path E base_dir) as [[bucket prefix] | e]; [| discriminate].
  cbn [res_bind fst]. eexists _, bucket, prefix.
  split; [reflexivity |]. split; [reflexivity |].
  apply in_map_iff. exists (huc ++ "/branches/" ++ name)%string. split; [reflexivity |].
  apply list_elem_of_In, elem_of_elements, remote_dirs_spec.
  exists (huc ++ "/branches/" ++ name)%string. split; [exact Hin |].
  assert (Hsplit : PyStr.split "/" (huc ++ "/branches/" ++ name)
                   = [huc; "branches"%string; name]).
  { change (huc ++ "/branches/" ++ name)%string
      with (huc ++ String "/" ("branches" ++ String "/" name))%string.
    rewrite split_app_sep by (apply huc_has_no_slash, Hhuc).
    rewrite split_app_sep by reflexivity.
    rewrite split_no_sep by exact Hname. reflexivity. }
  rewrite Hsplit. exists 0, huc, name. repeat split. exact Hhuc.
Qed.

End UnitKinds.

Lemma remote_object_under_branches_is_a_unit_witness :
  exists units,
    _get_catchment_dirs flat_env "s3://flat" = Ok units
    /\ In "s3://flat/12345678/branches/readme.txt"%string units.
Proof.
  destruct (remote_object_under_branches_is_a_unit flat_env "s3://flat" "12345678"
              "readme.txt" ["12345678/branches/readme.txt"%string])
    as (units & bucket & prefix & Hparse & Hrun & Hin).
  - reflexivity.
  - vm_compute; reflexivity.
  - vm_compute; reflexivity.
  - reflexivity.
  - left; reflexivity.
  - exists units. split; [exact Hrun |].
    assert (H : parse_s3_path flat_env "s3://flat" = Ok ("flat"%string, EmptyString))
      by (vm_compute; reflexivity).
    rewrite H in Hparse. inversion Hparse; subst bucket. exact Hin.
Defined.

(* ===================================================================== *)
(** ** Merging geometries *)
(* ===================================================================== *)

Section Merging.

Variable E : Env.
Variable self : DatabaseLoader.

Lemma merged_geometry_readable (files : list string) (acc : option (geom E)) :
  merged_geometry E files acc
  = fold_left (fun a g => Some (_merge_geometries E a g)) (readable_geoms E files) acc.
Proof.
  revert acc. induction files as [| f files IH]; intros acc; [reflexivity |].
  cbn [merged_geometry readable_geoms]. destruct (read_vector E f); cbn [fold_left]; apply IH.
Qed.

Lemma fold_merge_some (gs : list (geom E)) (a : geom E) :
  fold_left (fun a g => Some (_merge_geometries E a g)) gs (Some a)
  = Some (fold_left (geom_union E) gs a).
Proof. revert a. induction gs as [| g gs IH]; intros a; [reflexivity | apply IH]. Qed.

(** The geometry step, once the listing returned: files that are empty or
    cannot be read are passed over; with no other file the step returns
    [None] and submits nothing; otherwise the geometry is the union, from
    left to right, of the remaining files, the identity is the UUID of its
    WKT, and exactly one insert is submitted, which either appends the row
    or, when refused, raises and leaves the tables as they were. *)
Theorem load_catchment_geometry_outcomes (dir : string) (files : list string) (s : State) :
  _get_files E dir ".gpkg" "gw_catchments" = Ok files ->
  match readable_geoms E files with
  | [] =>
      exists lines,
        load_catchment_geometry E self dir s = (Ok None, logged s lines)
  | g :: gs =>
      let wkt := geom_wkt E (fold_left (geom_union E) gs g) in
      let row := mkCatchment (_generate_uuid self wkt) (hand_version_id self) wkt in
      exists r s',
        load_catchment_geometry E self dir s = (r, s')
        /\ st_sql s' = st_sql s ++ [InsertCatchment row]
        /\ st_catchment_id s' = st_catchment_id s
        /\ (if db_accepts E (st_db s) (InsertCatchment row)
            then r = Ok (Some (_generate_uuid self wkt))
                 /\ Catchments (st_db s') = Catchments (st_db s) ++ [row]
                 /\ Hydrotables (st_db s') = Hydrotables (st_db s)
                 /\ HAND_REM_Rasters (st_db s') = HAND_REM_Rasters (st_db s)
                 /\ HAND_Catchment_Rasters (st_db s') = HAND_Catchment_Rasters (st_db s)
                 /\ NWM_Features (st_db s') = NWM_Features (st_db s)
            else r = Raise (DbError (InsertCatchment row)) /\ st_db s' = st_db s)
  end.
Proof.
  intros Hls. rewrite (load_catchment_geometry_run E self dir files s Hls).
  pose proof (merged_geometry_readable files None) as Hm.
  destruct (readable_geoms E files) as [| g gs] eqn:Hg.
  - cbn [fold_left] in Hm. destruct files as [| f files]; [eexists; reflexivity |].
    cbv zeta. rewrite Hm. eexists. reflexivity.
  - cbn [fold_left _merge_geometries] in Hm. rewrite fold_merge_some in Hm.
    destruct files as [| f files]; [discriminate |].
    cbv zeta. rewrite Hm. unfold execute.
    cbn [suppressed logged st_db st_log st_sql st_catchment_id].
    destruct (db_accepts E (st_db s) _); cbn [apply_stmt].
    + eexists _, _. split; [reflexivity |]. cbn [st_sql st_catchment_id st_db].
      repeat split.
    + eexists _, _. split; [reflexivity |]. cbn [st_sql st_catchment_id st_db].
      repeat split.
Qed.

End Merging.

Lemma load_catchment_geometry_outcomes_witness :
  exists r s',
    load_catchment_geometry (example_env primary_key_engine) example_loader
      "/two/12345678/branches/u1" (initial_state (mkDb [example_u1] [] [] [] [])) = (r, s')
    /\ r = Raise (DbError (InsertCatchment example_u1))
    /\ st_db s' = mkDb [example_u1] [] [] [] [].
Proof.
  pose proof (load_catchment_geometry_outcomes (example_env primary_key_engine)
                example_loader "/two/12345678/branches/u1"
                ["/two/12345678/branches/u1/gw_catchments_0.gpkg"%string]
                (initial_state (mkDb [example_u1] [] [] [] [])) eq_refl) as H.
  cbn [readable_geoms] in H.
  change (read_vector (example_env primary_key_engine)
            "/two/12345678/branches/u1/gw_catchments_0.gpkg")
    with (@VGeom string "POLYGON(/two/12345678/branches/u1/gw_catchments_0.gpkg)") in H.
  cbv zeta in H. destruct H as (r & s' & Hrun & _ & _ & Hif).
  exists r, s'. split; [exact Hrun |].
  replace (db_accepts (example_env primary_key_engine)
             (st_db (initial_state (mkDb [example_u1] [] [] [] []))) _)
    with false in Hif by (vm_compute; reflexivity).
  exact Hif.
Defined.

(* ===================================================================== *)
(** ** Loading rating tables *)
(* ===================================================================== *)

Section Hydrotables.

Variable E : Env.
Variable self : DatabaseLoader.

Lemma insert_hydro_records_eq (df : list (gmap string PyVal)) (cid : string) (s : State) :
  _insert_hydro_records E self df cid s
  = execute_all E
      (map InsertHydrotable (map (fun row => _prepare_hydro_params self row cid) df)) s.
Proof.
  unfold _insert_hydro_records. revert s. induction df as [| row df IH]; intros s.
  - reflexivity.
  - cbn [for_each map execute_all]. unfold bind, ret.
    destruct (execute E _ s) as [[n | e] s1]; [apply IH | reflexivity].
Qed.

Lemma apply_all_hydro (rows : list HydrotablesRow) (db : Database) :
  apply_all (map InsertHydrotable rows) db
  = mkDb (Catchments db) (Hydrotables db ++ rows) (HAND_REM_Rasters db)
         (HAND_Catchment_Rasters db) (NWM_Features db).
Proof.
  revert db. induction rows as [| r rows IH]; intros db.
  - destruct db; cbn. rewrite app_nil_r. reflexivity.
  - cbn [map]. change (apply_all (?x :: ?l) db) with (apply_all l (fst (apply_stmt x db))).
    rewrite IH. cbn. rewrite <- app_assoc. reflexivity.
Qed.

Lemma hydro_statements_plain (rows : list HydrotablesRow) (st : Statement) :
  In st (map InsertHydrotable rows) -> is_hydrotable_insert st = true.
Proof. rewrite in_map_iff. intros (r & <- & _). reflexivity. Qed.

(** The loop of [load_hydrotables] over the files: it ends normally only
    after every file was read and every row of every file was inserted;
    otherwise it stops at the first file that fails, prints that file with
    the error and re-raises the same error. *)
Lemma hydro_loop_outcome (cid : string) (files : list string) (s : State) (r : Res unit)
  (s' : State) :
  for_each files (fun csv_path =>
      try_except (bind (lift (_read_csv E csv_path))
                       (fun df => _insert_hydro_records E self df cid))
                 (fun e => bind (print (LHydrotableError csv_path e)) (fun _ => raise e)))
    s = (r, s') ->
  (r = Ok tt
   /\ (forall f, In f files -> read_csv E f <> None)
   /\ st_db s'
      = apply_all (map InsertHydrotable
                     (map (fun row => _prepare_hydro_params self row cid)
                        (all_csv_rows E files))) (st_db s)
   /\ st_sql s'
      = st_sql s ++ map InsertHydrotable
                      (map (fun row => _prepare_hydro_params self row cid)
                         (all_csv_rows E files))
   /\ st_log s' = st_log s)
  \/ (exists e csv,
        r = Raise e /\ In csv files
        /\ last (st_log s') = Some (LHydrotableError csv e)
        /\ (e = ReadError csv \/ exists row, e = DbError (InsertHydrotable row))).
Proof.
  revert s. induction files as [| f files IH]; intros s H.
  - cbn in H. inversion H; subst. left. split; [reflexivity |].
    split; [intros f [] |]. cbn. rewrite app_nil_r. repeat split.
  - cbn [for_each] in H. unfold bind at 1, try_except at 1, bind at 1, lift, _read_csv in H.
    cbn [all_csv_rows]. destruct (read_csv E f) as [df |] eqn:Hread.
    + rewrite insert_hydro_records_eq in H.
      destruct (execute_all E _ s) as [r1 s1] eqn:Hx.
      apply execute_all_outcome in Hx.
      2:{ intros st Hst. apply hydro_statements_plain in Hst. destruct st; cbn in *; congruence. }
      destruct Hx as (Hl & _ & [(-> & Hs & Hd) | (pre & st & post & He & -> & _ & _)]).
      * apply IH in H.
        destruct H as [(Hr & Hall & Hdb & Hsql & Hlog) | (e & csv & Hr & Hin & Hlast & He)].
        -- left. split; [exact Hr |]. split.
           { intros x [<- | Hx]; [congruence | apply Hall, Hx]. }
           rewrite !map_app, apply_all_app, <- Hd, Hdb, Hsql, Hs, Hlog, Hl, <- app_assoc.
           repeat split.
        -- right. exists e, csv. split; [exact Hr |]. split; [right; exact Hin |].
           split; assumption.
      * unfold bind, raise in H. rewrite print_eq in H. inversion H; subst.
        right. exists (DbError st), f. split; [reflexivity |]. split; [left; reflexivity |].
        split; [cbn [logged st_log]; apply last_snoc |].
        right. assert (Hin : In st (pre ++ st :: post)) by (apply in_elt).
        rewrite <- He in Hin. apply in_map_iff in Hin. destruct Hin as (row & <- & _).
        exists row. reflexivity.
    + unfold bind, raise in H. rewrite print_eq in H. inversion H; subst.
      right. exists (ReadError f), f. split; [reflexivity |]. split; [left; reflexivity |].
      split; [cbn [logged st_log]; apply last_snoc | left; reflexivity].
Qed.

Lemma load_hydrotables_loop (dir cid f : string) (files : list string) (s : State) :
  _get_files E dir ".csv" "hydroTable_" = Ok (f :: files) ->
  load_hydrotables E self dir cid s
  = for_each (f :: files) (fun csv_path =>
        try_except (bind (lift (_read_csv E csv_path))
                         (fun df => _insert_hydro_records E self df cid))
                   (fun e => bind (print (LHydrotableError csv_path e)) (fun _ => raise e)))
      (logged s [LLoadingHydrotables]).
Proof.
  intros Hls. unfold load_hydrotables. unfold bind at 1 2. rewrite print_eq.
  unfold lift at 1. rewrite Hls. reflexivity.
Qed.

End Hydrotables.

(** When [load_hydrotables] returns normally, every listed file was read
    and the [Hydrotables] table grew by exactly one row per row of every
    file, in listing order, each stamped with the catchment identity and
    the loader's two versions; no other table changed. *)
Theorem load_hydrotables_is_complete (E : Env) (self : DatabaseLoader)
  (dir cid : string) (files : list string) (s s' : State) :
  _get_files E dir ".csv" "hydroTable_" = Ok files ->
  load_hydrotables E self dir cid s = (Ok tt, s') ->
  (forall f, In f files -> read_csv E f <> None)
  /\ Hydrotables (st_db s')
     = Hydrotables (st_db s)
       ++ map (fun row => _prepare_hydro_params self row cid) (all_csv_rows E files)
  /\ (forall r, In r (map (fun row => _prepare_hydro_params self row cid)
                        (all_csv_rows E files)) ->
                hy_catchment_id r = cid /\ hy_hand_version_id r = hand_version_id self
                /\ hy_nwm_version_id r = nwm_version_id self)
  /\ Catchments (st_db s') = Catchments (st_db s)
  /\ HAND_REM_Rasters (st_db s') = HAND_REM_Rasters (st_db s)
  /\ HAND_Catchment_Rasters (st_db s') = HAND_Catchment_Rasters (st_db s)
  /\ NWM_Features (st_db s') = NWM_Features (st_db s).
Proof.
  intros Hls Hrun.
  assert (Hstamp : forall r, In r (map (fun row => _prepare_hydro_params self row cid)
                                     (all_csv_rows E files)) ->
                             hy_catchment_id r = cid
                             /\ hy_hand_version_id r = hand_version_id self
                             /\ hy_nwm_version_id r = nwm_version_id self).
  { intros r Hr. apply in_map_iff in Hr. destruct Hr as (row & <- & _). repeat split. }
  destruct files as [| f files].
  - rewrite (load_hydrotables_no_files E self dir cid s Hls) in Hrun.
    inversion Hrun; subst. cbn [logged st_db all_csv_rows map]. rewrite app_nil_r.
    split; [intros f [] |]. split; [reflexivity |]. split; [exact Hstamp |]. repeat split.
  - rewrite (load_hydrotables_loop E self dir cid f files s Hls) in Hrun.
    apply hydro_loop_outcome in Hrun.
    destruct Hrun as [(_ & Hall & Hdb & _ & _) | (e & csv & Hr & _)]; [| discriminate].
    rewrite apply_all_hydro in Hdb. cbn [logged st_db] in Hdb.
    split; [exact Hall |]. rewrite Hdb. cbn. split; [reflexivity |].
    split; [exact Hstamp |]. repeat split.
Qed.

Lemma load_hydrotables_is_complete_witness :
  exists s',
    load_hydrotables (example_env permissive_engine) example_loader
      "/data/12345678/branches/unitA" "c1" (initial_state empty_db) = (Ok tt, s')
    /\ length (Hydrotables (st_db s')) = 3.
Proof.
  pose (run := load_hydrotables (example_env permissive_engine) example_loader
                 "/data/12345678/branches/unitA" "c1" (initial_state empty_db)).
  exists (snd run).
  assert (Hrun : run = (Ok tt, snd run)) by (vm_compute; reflexivity).
  split; [exact Hrun |].
  destruct (load_hydrotables_is_complete (example_env permissive_engine) example_loader
              "/data/12345678/branches/unitA" "c1"
              ["/data/12345678/branches/unitA/hydroTable_0.csv"%string]
              (initial_state empty_db) (snd run)) as (_ & Hh & _).
  - vm_compute; reflexivity.
  - exact Hrun.
  - rewrite Hh. reflexivity.
Defined.

(** When [load_hydrotables] raises, either the listing of the unit's files
    raised, and then nothing but the first line was printed and the error
    is that of the listing; or the loop stopped at a file, the last line
    printed names that file together with the error, and the error raised
    is that same error: the file could not be read, or the engine refused
    one of its rows. *)
Theorem load_hydrotables_reports_and_reraises (E : Env) (self : DatabaseLoader)
  (dir cid : string) (s : State) (e : Exn) (s' : State) :
  load_hydrotables E self dir cid s = (Raise e, s') ->
  (_get_files E dir ".csv" "hydroTable_" = Raise e
   /\ s' = logged s [LLoadingHydrotables])
  \/ (exists files csv,
        _get_files E dir ".csv" "hydroTable_" = Ok files
        /\ In csv files
        /\ last (st_log s') = Some (LHydrotableError csv e)
        /\ (e = ReadError csv \/ exists row, e = DbError (InsertHydrotable row))).
Proof.
  intros Hrun.
  destruct (_get_files E dir ".csv" "hydroTable_") as [files | e0] eqn:Hls.
  - right. destruct files as [| f files].
    + rewrite (load_hydrotables_no_files E self dir cid s Hls) in Hrun. discriminate.
    + rewrite (load_hydrotables_loop E self dir cid f files s Hls) in Hrun.
      apply hydro_loop_outcome in Hrun.
      destruct Hrun as [(Hr & _) | (e' & csv & Hr & Hin & Hlast & He)]; [discriminate |].
      inversion Hr; subst e'. exists (f :: files), csv. repeat split; assumption.
  - left. unfold load_hydrotables in Hrun. unfold bind at 1 2 in Hrun.
    rewrite print_eq in Hrun. unfold lift in Hrun. rewrite Hls in Hrun.
    inversion Hrun; subst. split; reflexivity.
Qed.

Lemma load_hydrotables_reports_and_reraises_witness :
  exists csv,
    In csv ["/badhydro/hydroTable_corrupt.csv"%string]
    /\ last (st_log (snd (load_hydrotables (example_env permissive_engine) example_loader
                            "/badhydro" "c1" (initial_state empty_db))))
       = Some (LHydrotableError csv (ReadError "/badhydro/hydroTable_corrupt.csv")).
Proof.
  assert (Hls : _get_files (example_env permissive_engine) "/badhydro" ".csv" "hydroTable_"
                = Ok ["/badhydro/hydroTable_corrupt.csv"%string]) by (vm_compute; reflexivity).
  destruct (load_hydrotables_reports_and_reraises (example_env permissive_engine)
              example_loader "/badhydro" "c1"
              (initial_state empty_db) (ReadError "/badhydro/hydroTable_corrupt.csv")
              (snd (load_hydrotables (example_env permissive_engine) example_loader
                      "/badhydro" "c1" (initial_state empty_db))))
    as [[Hraise _] | (files & csv & Hfiles & Hin & Hlast & _)].
  - vm_compute; reflexivity.
  - rewrite Hls in Hraise. discriminate.
  - rewrite Hls in Hfiles. inversion Hfiles; subst files.
    exists csv. split; assumption.
Defined.

(** With every listed file readable and an engine that accepts hydrotable
    inserts, [load_hydrotables] returns normally. *)
Theorem load_hydrotables_succeeds (E : Env) (self : DatabaseLoader)
  (dir cid : string) (files : list string) (s : State) :
  _get_files E dir ".csv" "hydroTable_" = Ok files ->
  (forall f, In f files -> read_csv E f <> None) ->
  always_accepts E is_hydrotable_insert ->
  exists s', load_hydrotables E self dir cid s = (Ok tt, s').
Proof.
  intros Hls Hall Hacc. destruct files as [| f0 files0].
  { eexists. apply load_hydrotables_no_files, Hls. }
  rewrite (load_hydrotables_loop E self dir cid f0 files0 s Hls).
  generalize (logged s [LLoadingHydrotables]) as s0.
  revert Hall. generalize (f0 :: files0) as files. clear Hls f0 files0.
  induction files as [| f files IH]; intros Hall s0.
  - eexists. reflexivity.
  - cbn [for_each]. unfold bind at 1, try_except at 1, bind at 1, lift, _read_csv.
    destruct (read_csv E f) as [df |] eqn:Hread;
      [| exfalso; apply (Hall f); [left; reflexivity | exact Hread]].
    rewrite insert_hydro_records_eq, execute_all_accepted.
    + apply IH. intros x Hx. apply Hall. right. exact Hx.
    + intros st Hst. apply hydro_statements_plain in Hst. destruct st; cbn in *; congruence.
    + intros db st Hst. apply Hacc. eapply hydro_statements_plain, Hst.
Qed.

Lemma load_hydrotables_succeeds_witness :
  exists s',
    load_hydrotables (example_env permissive_engine) example_loader
      "/data/12345678/branches/unitA" "c1" (initial_state empty_db) = (Ok tt, s').
Proof.
  apply (load_hydrotables_succeeds (example_env permissive_engine) example_loader
           "/data/12345678/branches/unitA" "c1"
           ["/data/12345678/branches/unitA/hydroTable_0.csv"%string]).
  - vm_compute; reflexivity.
  - intros f [<- | []]. vm_compute. discriminate.
  - intros db st _. reflexivity.
Defined.

(* ===================================================================== *)
(** ** What the whole batch respects *)
(* ===================================================================== *)

(** A relation that printing, assigning [catchment_id], rolling back and
    the statements of a loader respect is respected by every step of
    [load_hand_data]. *)
Section Scoped.

Variable R : State -> State -> Prop.
Hypothesis R_refl : forall s, R s s.
Hypothesis R_trans : forall a b c, R a b -> R b c -> R a c.

Variable E : Env.
Variable self : DatabaseLoader.

Hypothesis R_print : forall l, respects R (print l).
Hypothesis R_execute : forall st, by_loader self st = true -> respects R (execute E st).
Hypothesis R_assign : forall v, respects R (set_catchment_id v).
Hypothesis R_rollback : forall s s', R s s' -> R s (rolled_back s s').

Lemma respects_with_transaction {A} (m : M A) :
  respects R m -> respects R (with_transaction m).
Proof.
  intros Hm s r s' H. unfold with_transaction in H.
  destruct (m s) as [[a | e] s1] eqn:Em; inversion H; subst.
  - eapply Hm, Em.
  - apply (R_rollback s s1). eapply Hm, Em.
Qed.

Lemma scoped_merge_files (files : list string) (acc : option (geom E)) :
  respects R (merge_files E files acc).
Proof.
  revert acc. induction files as [| f files IH]; intros acc; cbn [merge_files].
  - apply respects_ret, R_refl.
  - destruct (read_vector E f); [| apply IH | apply IH].
    apply respects_bind; [exact R_trans | apply R_print | intros _; apply IH].
Qed.

Lemma scoped_load_catchment_geometry (dir : string) :
  respects R (load_catchment_geometry E self dir).
Proof.
  unfold load_catchment_geometry.
  apply respects_bind; [exact R_trans | apply R_print | intros _].
  apply respects_bind; [exact R_trans | apply respects_lift, R_refl | intros files].
  assert (Hmain : respects R
    (bind (merge_files E files None) (fun merged_geom =>
       match merged_geom with
       | None => ret None
       | Some g =>
           bind (execute E (InsertCatchment
                   (mkCatchment (_generate_uuid self (geom_wkt E g)) (hand_version_id self)
                      (geom_wkt E g))))
                (fun _ => ret (Some (_generate_uuid self (geom_wkt E g))))
       end))).
  { apply respects_bind; [exact R_trans | apply scoped_merge_files | intros [g |]].
    - apply respects_bind; [exact R_trans | | intros _; apply respects_ret, R_refl].
      apply R_execute. cbn. apply bool_decide_eq_true. reflexivity.
    - apply respects_ret, R_refl. }
  destruct files; [| exact Hmain].
  apply respects_bind; [exact R_trans | apply R_print | intros _; apply respects_ret, R_refl].
Qed.

Lemma scoped_load_hydrotables (dir cid : string) :
  respects R (load_hydrotables E self dir cid).
Proof.
  unfold load_hydrotables.
  apply respects_bind; [exact R_trans | apply R_print | intros _].
  apply respects_bind; [exact R_trans | apply respects_lift, R_refl | intros files].
  assert (Hloop : respects R
    (for_each files (fun csv_path =>
       try_except (bind (lift (_read_csv E csv_path))
                        (fun df => _insert_hydro_records E self df cid))
                  (fun e => bind (print (LHydrotableError csv_path e))
                                 (fun _ => raise e))))).
  { apply respects_for_each; [exact R_refl | exact R_trans |]. intros csv.
    apply respects_try_except; [exact R_trans | |].
    - apply respects_bind; [exact R_trans | apply respects_lift, R_refl | intros df].
      unfold _insert_hydro_records.
      apply respects_for_each; [exact R_refl | exact R_trans |]. intros row.
      apply respects_bind; [exact R_trans | | intros _; apply respects_ret, R_refl].
      apply R_execute. cbn. apply bool_decide_eq_true. reflexivity.
    - intros e. apply respects_bind; [exact R_trans | apply R_print |].
      intros _. apply respects_raise, R_refl. }
  destruct files; [| exact Hloop].
  apply respects_bind; [exact R_trans | apply R_print | intros _; apply respects_ret, R_refl].
Qed.

Lemma scoped_insert_rem_rasters (files : list string) (cid : string) (acc : list string) :
  respects R (_insert_rem_rasters E self files cid acc).
Proof.
  revert acc. induction files as [| f files IH]; intros acc; cbn [_insert_rem_rasters].
  - apply respects_ret, R_refl.
  - apply respects_bind; [exact R_trans | | intros _; apply IH].
    apply R_execute. cbn. apply bool_decide_eq_true. reflexivity.
Qed.

Lemma scoped_load_rasters (dir cid : string) :
  respects R (load_rasters E self dir cid).
Proof.
  unfold load_rasters.
  apply respects_bind; [exact R_trans | apply R_print | intros _].
  apply respects_bind; [exact R_trans | apply respects_lift, R_refl | intros rem_files].
  assert (Hmain : respects R
    (bind (print LLoadingCatchmentRasters) (fun _ =>
     bind (lift (_get_files E dir ".tif" "gw_catchments")) (fun catchment_files =>
     try_except
       (bind (_insert_rem_rasters E self rem_files cid []) (fun rem_raster_ids =>
          match catchment_files with
          | [] => print LNoCatchmentRasterFiles
          | _ => _insert_catchment_rasters E self catchment_files rem_raster_ids
          end))
       (fun e => bind (print (LRasterError e)) (fun _ => raise e)))))).
  { apply respects_bind; [exact R_trans | apply R_print | intros _].
    apply respects_bind; [exact R_trans | apply respects_lift, R_refl | intros cfs].
    apply respects_try_except; [exact R_trans | |].
    - apply respects_bind; [exact R_trans | apply scoped_insert_rem_rasters |].
      intros ids. destruct cfs; [apply R_print |].
      apply respects_insert_catchment_rasters; [exact R_refl | exact R_trans |].
      intros r. apply R_execute. reflexivity.
    - intros e. apply respects_bind; [exact R_trans | apply R_print |].
      intros _. apply respects_raise, R_refl. }
  destruct rem_files; [| exact Hmain].
  apply respects_bind; [exact R_trans | apply R_print | intros _; apply respects_ret, R_refl].
Qed.

Lemma scoped_cleanup_catchment (v : option string) :
  respects R (_cleanup_catchment E self v).
Proof.
  destruct v as [cid |]; cbn [_cleanup_catchment]; [| apply respects_ret, R_refl].
  apply respects_bind; [exact R_trans | apply R_print | intros _].
  apply respects_with_transaction.
  repeat (apply respects_bind;
          [exact R_trans
          | apply R_execute; cbn; apply bool_decide_eq_true; reflexivity
          | intros _]).
  apply respects_ret, R_refl.
Qed.

Lemma scoped_catchment_transaction (dir : string) :
  respects R (with_transaction (catchment_transaction E self dir)).
Proof.
  apply respects_with_transaction. unfold catchment_transaction.
  apply respects_bind; [exact R_trans | apply scoped_load_catchment_geometry |].
  intros v. apply respects_bind; [exact R_trans | apply R_assign | intros _].
  destruct v as [cid |]; [| apply R_print].
  apply respects_bind; [exact R_trans | apply scoped_load_hydrotables |].
  intros _. apply scoped_load_rasters.
Qed.

Lemma scoped_guarded_transaction (dir : string) :
  respects R
    (try_except (with_transaction (catchment_transaction E self dir))
       (fun e => bind (print (LErrorProcessing dir e)) (fun _ =>
                 bind get_catchment_id (fun catchment_id =>
                 _cleanup_catchment E self catchment_id)))).
Proof.
  apply respects_try_except; [exact R_trans | apply scoped_catchment_transaction |].
  intros e. apply respects_bind; [exact R_trans | apply R_print | intros _].
  apply respects_bind; [exact R_trans | | intros v; apply scoped_cleanup_catchment].
  intros s r s' H. unfold get_catchment_id in H.
  destruct (st_catchment_id s); inversion H; subst; apply R_refl.
Qed.

Lemma scoped_process_catchment (idx total : nat) (dir : string) :
  respects R (process_catchment E self idx total dir).
Proof.
  unfold process_catchment.
  apply respects_bind; [exact R_trans | apply R_print | intros _].
  apply scoped_guarded_transaction.
Qed.

Lemma scoped_process_catchments (idx total : nat) (dirs : list string) :
  respects R (process_catchments E self idx total dirs).
Proof.
  revert idx. induction dirs as [| d dirs IH]; intros idx; cbn [process_catchments].
  - apply respects_ret, R_refl.
  - apply respects_bind; [exact R_trans | apply scoped_process_catchment |].
    intros _. apply IH.
Qed.

(** [load_hand_data] too, when unbinding its local does not matter. *)
Lemma scoped_load_hand_data (hand_dir : string) :
  (forall s, R s (mkState (st_db s) (st_log s) (st_sql s) Unbound)) ->
  respects R (load_hand_data E self hand_dir).
Proof.
  intros Hreset s r s' H. unfold load_hand_data in H.
  eapply R_trans; [apply Hreset |].
  revert H. generalize (mkState (st_db s) (st_log s) (st_sql s) Unbound) as s0.
  intros s0 H. revert s0 r s' H.
  change (respects R
    (bind (lift (_get_catchment_dirs E hand_dir)) (fun catchment_dirs =>
       bind (print (LFound (length catchment_dirs))) (fun _ =>
         process_catchments E self 1 (length catchment_dirs) catchment_dirs)))).
  apply respects_bind; [exact R_trans | apply respects_lift, R_refl | intros dirs].
  apply respects_bind; [exact R_trans | apply R_print | intros _].
  apply scoped_process_catchments.
Qed.

End Scoped.

Section BatchFrames.

Variable E : Env.
Variable self : DatabaseLoader.

Lemma execute_shape (st : Statement) (s : State) (r : Res nat) (s' : State) :
  execute E st s = (r, s') ->
  st_sql s' = st_sql s ++ [st] /\ st_log s' = st_log s
  /\ st_catchment_id s' = st_catchment_id s
  /\ (st_db s' = st_db s \/ st_db s' = fst (apply_stmt st (st_db s))).
Proof.
  unfold execute. intros H.
  destruct (suppressed st (st_db s)); [inversion H; subst; cbn; auto |].
  destruct (db_accepts E (st_db s) st); [| inversion H; subst; cbn; auto].
  destruct (apply_stmt st (st_db s)) as [db' n]. inversion H; subst. cbn. auto.
Qed.

Lemma filter_filter_sub {A} (p q : A -> bool) (l : list A) :
  (forall x, p x = true -> q x = true) ->
  List.filter p (List.filter q l) = List.filter p l.
Proof.
  intros Hpq. induction l as [| x l IH]; cbn; [reflexivity |].
  destruct (q x) eqn:Hq; cbn.
  - rewrite IH. reflexivity.
  - destruct (p x) eqn:Hp; [rewrite (Hpq x Hp) in Hq; discriminate | exact IH].
Qed.

Lemma filter_snoc_false {A} (p : A -> bool) (l : list A) (x : A) :
  p x = false -> List.filter p (l ++ [x]) = List.filter p l.
Proof. intros H. rewrite List.filter_app. cbn. rewrite H. apply app_nil_r. Qed.

Lemma other_version_not_owned (c hv cid h : string) :
  h <> hv -> negb (owned_by c hv cid h) = true.
Proof.
  intros Hne. unfold owned_by. rewrite (bool_decide_eq_false_2 (h = hv) Hne).
  rewrite andb_false_r. reflexivity.
Qed.

Lemma other_versions_kept_refl (hv : string) (s : State) : other_versions_kept hv s s.
Proof. repeat split; auto. Qed.

Lemma other_versions_kept_same_db (hv : string) (s s' : State) :
  st_db s' = st_db s -> other_versions_kept hv s s'.
Proof. intros H. unfold other_versions_kept. rewrite H. repeat split; auto. Qed.

Lemma other_versions_kept_trans (hv : string) (a b c : State) :
  other_versions_kept hv a b -> other_versions_kept hv b c -> other_versions_kept hv a c.
Proof.
  intros (H1 & H2 & H3) (H4 & H5 & H6). split; [| split].
  - intros h Hh. destruct (H1 h Hh) as (A1 & A2 & A3). destruct (H4 h Hh) as (B1 & B2 & B3).
    repeat split; congruence.
  - congruence.
  - auto.
Qed.

Lemma execute_keeps_other_versions (st : Statement) :
  by_loader self st = true ->
  respects (other_versions_kept (hand_version_id self)) (execute E st).
Proof.
  intros Hst s r s' H. apply execute_shape in H.
  destruct H as (_ & _ & _ & [Hdb | Hdb]); unfold other_versions_kept; rewrite Hdb.
  { repeat split; auto. }
  destruct st as [x | x | x | x | x | c h | c h | c h]; cbn in Hst |- *;
    try discriminate; try apply bool_decide_eq_true in Hst.
  - split; [| split; auto]. intros h Hh. repeat split.
    apply filter_snoc_false. apply bool_decide_eq_false. congruence.
  - split; [| split; auto]. intros h Hh. repeat split.
    apply filter_snoc_false. apply bool_decide_eq_false. congruence.
  - split; [| split; auto]. intros h Hh. repeat split.
    apply filter_snoc_false. apply bool_decide_eq_false. congruence.
  - split; [| split; [reflexivity |]]; [intros h Hh; repeat split |].
    intros y Hy. apply in_or_app. left. exact Hy.
  - subst h. split; [| split; auto]. intros h Hh. repeat split.
    apply filter_filter_sub. intros y Hy. apply bool_decide_eq_true in Hy.
    rewrite Hy. apply other_version_not_owned, Hh.
  - subst h. split; [| split; auto]. intros h Hh. repeat split.
    apply filter_filter_sub. intros y Hy. apply bool_decide_eq_true in Hy.
    rewrite Hy. apply other_version_not_owned, Hh.
  - subst h. split; [| split; auto]. intros h Hh. repeat split.
    apply filter_filter_sub. intros y Hy. apply bool_decide_eq_true in Hy.
    rewrite Hy. apply other_version_not_owned, Hh.
Qed.

Lemma submitted_only_trans (P : Statement -> bool) (a b c : State) :
  submitted_only P a b -> submitted_only P b c -> submitted_only P a c.
Proof.
  intros (l1 & H1 & F1) (l2 & H2 & F2). exists (l1 ++ l2). split.
  - rewrite H2, H1, app_assoc. reflexivity.
  - rewrite forallb_app, F1, F2. reflexivity.
Qed.

Lemma submitted_only_same_sql (P : Statement -> bool) (s s' : State) :
  st_sql s' = st_sql s -> submitted_only P s s'.
Proof. intros H. exists []. rewrite app_nil_r. split; [exact H | reflexivity]. Qed.

End BatchFrames.

(** Whatever a call of [load_hand_data] does, and however it ends, every
    statement it submits is an insert of a [Catchments], [Hydrotables] or
    [HAND_REM_Rasters] row stamped with the loader's hand version, an
    insert into [HAND_Catchment_Rasters], or a delete scoped to the
    loader's hand version. *)
Theorem load_hand_data_statements (E : Env) (self : DatabaseLoader) (hand_dir : string)
  (s : State) :
  submitted_only (by_loader self) s (snd (load_hand_data E self hand_dir s)).
Proof.
  destruct (load_hand_data E self hand_dir s) as [r s'] eqn:H. cbn [snd].
  revert s r s' H. apply scoped_load_hand_data.
  - intros s. apply submitted_only_same_sql. reflexivity.
  - apply submitted_only_trans.
  - intros l s r s' H. inversion H; subst. apply submitted_only_same_sql. reflexivity.
  - intros st Hst s r s' H. apply execute_shape in H. destruct H as (Hsql & _).
    exists [st]. split; [exact Hsql |]. cbn. rewrite Hst. reflexivity.
  - intros v s r s' H. inversion H; subst. apply submitted_only_same_sql. reflexivity.
  - intros s s' (l & Hl & Hf). exists l. split; assumption.
  - intros s. apply submitted_only_same_sql. reflexivity.
Qed.

(** Whatever a call of [load_hand_data] does, and however it ends, the
    rows of every other hand version in [Catchments], [Hydrotables] and
    [HAND_REM_Rasters] are as they were, [NWM_Features] is unchanged and
    no [HAND_Catchment_Rasters] row is removed. *)
Theorem load_hand_data_keeps_other_versions (E : Env) (self : DatabaseLoader)
  (hand_dir : string) (s : State) :
  other_versions_kept (hand_version_id self) s (snd (load_hand_data E self hand_dir s)).
Proof.
  destruct (load_hand_data E self hand_dir s) as [r s'] eqn:H. cbn [snd].
  revert s r s' H. apply scoped_load_hand_data.
  - apply other_versions_kept_refl.
  - apply other_versions_kept_trans.
  - intros l s r s' H. inversion H; subst. apply other_versions_kept_same_db. reflexivity.
  - apply execute_keeps_other_versions.
  - intros v s r s' H. inversion H; subst. apply other_versions_kept_same_db. reflexivity.
  - intros s s' _. apply other_versions_kept_same_db. reflexivity.
  - intros s. apply other_versions_kept_same_db. reflexivity.
Qed.

(* ===================================================================== *)
(** ** The handler of the batch loop *)
(* ===================================================================== *)

Section Handler.

Variable E : Env.
Variable self : DatabaseLoader.

Lemma load_catchment_geometry_keeps_catchment_id (dir : string) :
  respects keeps_catchment_id (load_catchment_geometry E self dir).
Proof.
  apply scoped_load_catchment_geometry.
  - reflexivity.
  - apply keeps_catchment_id_trans.
  - apply print_keeps_catchment_id.
  - intros st _. apply execute_keeps_catchment_id.
Qed.

Lemma stays_bound_trans (a b c : State) : stays_bound a b -> stays_bound b c -> stays_bound a c.
Proof. unfold stays_bound. auto. Qed.

Lemma stays_bound_same (s s' : State) :
  st_catchment_id s' = st_catchment_id s -> stays_bound s s'.
Proof. unfold stays_bound. intros ->. auto. Qed.

Lemma guarded_transaction_stays_bound (dir : string) :
  respects stays_bound
    (try_except (with_transaction (catchment_transaction E self dir))
       (fun e => bind (print (LErrorProcessing dir e)) (fun _ =>
                 bind get_catchment_id (fun catchment_id =>
                 _cleanup_catchment E self catchment_id)))).
Proof.
  apply scoped_guarded_transaction.
  - intros s. apply stays_bound_same. reflexivity.
  - apply stays_bound_trans.
  - intros l s r s' H. inversion H; subst. apply stays_bound_same. reflexivity.
  - intros st _ s r s' H. apply execute_shape in H. apply stays_bound_same. tauto.
  - intros v s r s' H. inversion H; subst. intros _. discriminate.
  - intros s s' H. exact H.
Qed.

Lemma transaction_stays_bound (dir : string) :
  respects stays_bound (with_transaction (catchment_transaction E self dir)).
Proof.
  apply scoped_catchment_transaction.
  - intros s. apply stays_bound_same. reflexivity.
  - apply stays_bound_trans.
  - intros l s r s' H. inversion H; subst. apply stays_bound_same. reflexivity.
  - intros st _ s r s' H. apply execute_shape in H. apply stays_bound_same. tauto.
  - intros v s r s' H. inversion H; subst. intros _. discriminate.
  - intros s s' H. exact H.
Qed.

Lemma log_extends_trans (a b c : State) : log_extends a b -> log_extends b c -> log_extends a c.
Proof.
  intros (l1 & H1) (l2 & H2). exists (l1 ++ l2). rewrite H2, H1, app_assoc. reflexivity.
Qed.

Lemma log_extends_same (s s' : State) : st_log s' = st_log s -> log_extends s s'.
Proof. intros H. exists []. rewrite app_nil_r. exact H. Qed.

Lemma guarded_transaction_log_extends (dir : string) :
  respects log_extends
    (try_except (with_transaction (catchment_transaction E self dir))
       (fun e => bind (print (LErrorProcessing dir e)) (fun _ =>
                 bind get_catchment_id (fun catchment_id =>
                 _cleanup_catchment E self catchment_id)))).
Proof.
  apply scoped_guarded_transaction.
  - intros s. apply log_extends_same. reflexivity.
  - apply log_extends_trans.
  - intros l s r s' H. inversion H; subst. exists [l]. reflexivity.
  - intros st _ s r s' H. apply execute_shape in H. apply log_extends_same. tauto.
  - intros v s r s' H. inversion H; subst. apply log_extends_same. reflexivity.
  - intros s s' H. exact H.
Qed.

Lemma process_catchments_log_extends (idx total : nat) (dirs : list string) :
  respects log_extends (process_catchments E self idx total dirs).
Proof.
  apply scoped_process_catchments.
  - intros s. apply log_extends_same. reflexivity.
  - apply log_extends_trans.
  - intros l s r s' H. inversion H; subst. exists [l]. reflexivity.
  - intros st _ s r s' H. apply execute_shape in H. apply log_extends_same. tauto.
  - intros v s r s' H. inversion H; subst. apply log_extends_same. reflexivity.
  - intros s s' H. exact H.
Qed.

Lemma cleanup_returns (v : option string) (s : State) :
  always_accepts E is_delete ->
  exists s', _cleanup_catchment E self v s = (Ok tt, s').
Proof.
  intros Hacc. destruct v as [cid |]; cbn [_cleanup_catchment]; [| eexists; reflexivity].
  unfold bind at 1. rewrite print_eq. unfold with_transaction.
  change (bind (execute E ?a) (fun _ => bind (execute E ?b)
            (fun _ => bind (execute E ?c) (fun _ => ret tt))))
    with (execute_all E [a; b; c]).
  rewrite execute_all_accepted.
  - eexists. reflexivity.
  - intros st [<- | [<- | [<- | []]]]; reflexivity.
  - intros db st [<- | [<- | [<- | []]]]; apply Hacc; reflexivity.
Qed.

(** One iteration returns normally whenever [catchment_id] is bound on
    entry and the engine accepts the deletes of the cleanup; its first
    line on the console names the unit. *)
Lemma process_catchment_returns (idx total : nat) (dir : string) (s : State) :
  always_accepts E is_delete ->
  st_catchment_id s <> Unbound ->
  exists s',
    process_catchment E self idx total dir s = (Ok tt, s')
    /\ st_catchment_id s' <> Unbound
    /\ exists l, st_log s' = st_log s ++ LProcessing idx total dir :: l.
Proof.
  intros Hacc Hb. unfold process_catchment. unfold bind at 1. rewrite print_eq.
  set (s0 := logged s [LProcessing idx total dir]).
  destruct (try_except (with_transaction (catchment_transaction E self dir)) _ s0)
    as [r s'] eqn:Hrun.
  pose proof (guarded_transaction_stays_bound dir _ _ _ Hrun Hb) as Hb'.
  pose proof (guarded_transaction_log_extends dir _ _ _ Hrun) as (l & Hl).
  assert (Hr : r = Ok tt).
  { unfold try_except in Hrun.
    destruct (with_transaction (catchment_transaction E self dir) s0) as [[[] | e] s2] eqn:Htx.
    - inversion Hrun; reflexivity.
    - pose proof (transaction_stays_bound dir _ _ _ Htx Hb) as Hb2.
      unfold bind at 1 in Hrun. rewrite print_eq in Hrun.
      unfold bind at 1, get_catchment_id in Hrun. cbn [logged st_catchment_id] in Hrun.
      destruct (st_catchment_id s2) as [| v] eqn:Hv; [contradiction |].
      destruct (cleanup_returns v (logged s2 [LErrorProcessing dir e]) Hacc) as (s3 & Hc).
      rewrite Hc in Hrun. inversion Hrun; reflexivity. }
  subst r. exists s'. split; [reflexivity |]. split; [exact Hb' |].
  exists l. rewrite Hl. subst s0. cbn [logged st_log]. rewrite <- app_assoc. reflexivity.
Qed.

End Handler.

(** When the geometry step of a unit raises, the handler acts on whatever
    [catchment_id] held before the unit: if it was never assigned the
    handler itself raises [UnboundLocalError] and the iteration ends with
    it; otherwise the cleanup runs on the value left by an earlier unit
    (nothing for [None], that unit's rows for an identity).  In each case
    the tables the handler starts from are those from before the unit. *)
Theorem geometry_failure_uses_earlier_catchment_id (E : Env) (self : DatabaseLoader)
  (idx total : nat) (dir : string) (s : State) (e : Exn) (s1 : State) :
  load_catchment_geometry E self dir (logged s [LProcessing idx total dir]) = (Raise e, s1) ->
  let s2 := mkState (st_db s) (st_log s1 ++ [LErrorProcessing dir e]) (st_sql s1)
              (st_catchment_id s) in
  process_catchment E self idx total dir s
  = match st_catchment_id s with
    | Unbound => (Raise (UnboundLocalError "catchment_id"), s2)
    | Bound v => _cleanup_catchment E self v s2
    end.
Proof.
  intros Hgeom s2.
  pose proof (load_catchment_geometry_keeps_catchment_id E self dir _ _ _ Hgeom) as Hv.
  unfold keeps_catchment_id in Hv. cbn [logged st_catchment_id] in Hv.
  unfold process_catchment. unfold bind at 1. rewrite print_eq.
  unfold try_except, with_transaction, catchment_transaction.
  unfold bind at 1. rewrite Hgeom. cbn [logged st_db].
  unfold bind at 1. rewrite print_eq. unfold logged. cbn [st_db st_log st_sql st_catchment_id].
  unfold bind at 1, get_catchment_id. cbn [st_catchment_id]. subst s2. rewrite Hv.
  destruct (st_catchment_id s); reflexivity.
Qed.

Lemma geometry_failure_uses_earlier_catchment_id_witness :
  fst (process_catchment (example_env primary_key_engine) example_loader 1 2
         "/two/12345678/branches/u1" (initial_state (mkDb [example_u1] [] [] [] [])))
  = Raise (UnboundLocalError "catchment_id").
Proof.
  rewrite (geometry_failure_uses_earlier_catchment_id (example_env primary_key_engine)
             example_loader 1 2 "/two/12345678/branches/u1"
             (initial_state (mkDb [example_u1] [] [] [] []))
             (DbError (InsertCatchment example_u1))
             (snd (load_catchment_geometry (example_env primary_key_engine) example_loader
                     "/two/12345678/branches/u1"
                     (logged (initial_state (mkDb [example_u1] [] [] [] []))
                        [LProcessing 1 2 "/two/12345678/branches/u1"])))).
  - reflexivity.
  - vm_compute; reflexivity.
Defined.

(** Once [catchment_id] is bound, nothing a unit does stops the batch as
    long as the engine accepts the deletes of the cleanup: the loop
    returns normally and every unit is attempted, in order, under its
    1-based index. *)
Theorem batch_continues_once_bound (E : Env) (self : DatabaseLoader)
  (idx total : nat) (dirs : list string) (s : State) :
  always_accepts E is_delete ->
  st_catchment_id s <> Unbound ->
  exists s',
    process_catchments E self idx total dirs s = (Ok tt, s')
    /\ forall k d, nth_error dirs k = Some d -> In (LProcessing (idx + k) total d) (st_log s').
Proof.
  intros Hacc. revert idx s. induction dirs as [| d dirs IH]; intros idx s Hb.
  - exists s. split; [reflexivity |]. intros k x H. destruct k; discriminate.
  - cbn [process_catchments]. unfold bind.
    destruct (process_catchment_returns E self idx total d s Hacc Hb)
      as (s1 & Hrun & Hb1 & l & Hl).
    rewrite Hrun. destruct (IH (S idx) s1 Hb1) as (s' & Hrest & Hlog).
    exists s'. split; [exact Hrest |].
    intros k x Hk. destruct k as [| k]; cbn [nth_error] in Hk.
    + inversion Hk; subst x. rewrite Nat.add_0_r.
      destruct (process_catchments_log_extends E self _ _ _ _ _ _ Hrest) as (l' & Hl').
      rewrite Hl', Hl. apply in_or_app. left. apply in_or_app. right. left. reflexivity.
    + replace (idx + S k) with (S idx + k) by lia. apply Hlog, Hk.
Qed.

Lemma batch_continues_once_bound_witness :
  exists s',
    process_catchments (example_env primary_key_engine) example_loader 1 2
      ["/badhydro"; "/nohydro"]%string
      (mkState empty_db [] [] (Bound None)) = (Ok tt, s')
    /\ In (LProcessing 2 2 "/nohydro") (st_log s').
Proof.
  destruct (batch_continues_once_bound (example_env primary_key_engine) example_loader 1 2
              ["/badhydro"; "/nohydro"]%string (mkState empty_db [] [] (Bound None)))
    as (s' & Hrun & Hlog).
  - intros db st Hst. destruct st; try discriminate; reflexivity.
  - discriminate.
  - exists s'. split; [exact Hrun |]. apply (Hlog 1). reflexivity.
Defined.

(* ===================================================================== *)
(** ** The cleanup on its own *)
(* ===================================================================== *)

Lemma purge_idempotent (cid hv : string) (db : Database) :
  purge cid hv (purge cid hv db) = purge cid hv db.
Proof.
  unfold purge. cbn. f_equal; apply filter_filter_sub; auto.
Qed.

(** [_cleanup_catchment] on an identity is all or nothing: either the
    three deletes went through and exactly the rows of that identity under
    the loader's hand version are gone from [Hydrotables],
    [HAND_REM_Rasters] and [Catchments], or a delete was refused, the
    exception leaves and the tables are as before.  Either way every row
    of another identity or hand version is kept, and
    [HAND_Catchment_Rasters] and [NWM_Features] are not touched, so
    catchment-raster rows linked to a deleted REM row stay behind. *)
Theorem cleanup_is_all_or_nothing (E : Env) (self : DatabaseLoader) (cid : string)
  (s : State) (r : Res unit) (s' : State) :
  _cleanup_catchment E self (Some cid) s = (r, s') ->
  ((r = Ok tt /\ st_db s' = purge cid (hand_version_id self) (st_db s))
   \/ (exists st, r = Raise (DbError st) /\ st_db s' = st_db s))
  /\ HAND_Catchment_Rasters (st_db s') = HAND_Catchment_Rasters (st_db s)
  /\ NWM_Features (st_db s') = NWM_Features (st_db s)
  /\ (forall x, In x (Catchments (st_db s)) ->
                owned_by cid (hand_version_id self) (cat_catchment_id x)
                  (cat_hand_version_id x) = false ->
                In x (Catchments (st_db s')))
  /\ (forall x, In x (Hydrotables (st_db s)) ->
                owned_by cid (hand_version_id self) (hy_catchment_id x)
                  (hy_hand_version_id x) = false ->
                In x (Hydrotables (st_db s')))
  /\ (forall x, In x (HAND_REM_Rasters (st_db s)) ->
                owned_by cid (hand_version_id self) (rem_catchment_id x)
                  (rem_hand_version_id x) = false ->
                In x (HAND_REM_Rasters (st_db s'))).
Proof.
  intros H. apply cleanup_catchment_outcome in H.
  destruct H as (_ & _ & [(Hr & Hdb & _) | (st & Hr & Hdb)]).
  - split; [left; split; assumption |]. rewrite Hdb.
    destruct (purge_keeps_other_rows cid (hand_version_id self) (st_db s))
      as (H1 & H2 & H3 & H4 & H5).
    repeat split; assumption.
  - split; [right; exists st; split; assumption |]. rewrite Hdb.
    repeat split; auto.
Qed.

Lemma cleanup_is_all_or_nothing_witness :
  let run := _cleanup_catchment (example_env primary_key_engine) example_loader
               (Some (cat_catchment_id example_u1))
               (initial_state (mkDb [example_u1; example_u2] [] [] [] [])) in
  In example_u2 (Catchments (st_db (snd run))).
Proof.
  cbv zeta.
  destruct (_cleanup_catchment (example_env primary_key_engine) example_loader
              (Some (cat_catchment_id example_u1))
              (initial_state (mkDb [example_u1; example_u2] [] [] [] []))) as [r s'] eqn:Hrun.
  destruct (cleanup_is_all_or_nothing _ _ _ _ _ _ Hrun) as (_ & _ & _ & Hc & _).
  apply Hc.
  - right. left. reflexivity.
  - vm_compute. reflexivity.
Defined.

(** The cleanup deletes only what exists: after a cleanup that went
    through, running it again on the same identity changes no table,
    whether the second run goes through or is refused. *)
Theorem cleanup_twice_changes_nothing (E : Env) (self : DatabaseLoader) (cid : string)
  (s s' : State) (r : Res unit) (s'' : State) :
  _cleanup_catchment E self (Some cid) s = (Ok tt, s') ->
  _cleanup_catchment E self (Some cid) s' = (r, s'') ->
  st_db s'' = st_db s'.
Proof.
  intros H1 H2. apply cleanup_catchment_outcome in H1, H2.
  destruct H1 as (_ & _ & [(_ & Hdb1 & _) | (st & Hr & _)]); [| discriminate].
  destruct H2 as (_ & _ & [(_ & Hdb2 & _) | (st & _ & Hdb2)]); [| exact Hdb2].
  rewrite Hdb2, Hdb1. apply purge_idempotent.
Qed.

Lemma cleanup_twice_changes_nothing_witness :
  let once := _cleanup_catchment (example_env primary_key_engine) example_loader
                (Some (cat_catchment_id example_u1))
                (initial_state (mkDb [example_u1; example_u2] [] [] [] [])) in
  let twice := _cleanup_catchment (example_env primary_key_engine) example_loader
                 (Some (cat_catchment_id example_u1)) (snd once) in
  st_db (snd twice) = st_db (snd once).
Proof.
  cbv zeta.
  eapply (cleanup_twice_changes_nothing (example_env primary_key_engine) example_loader
            (cat_catchment_id example_u1)
            (initial_state (mkDb [example_u1; example_u2] [] [] [] []))).
  - vm_compute; reflexivity.
  - apply surjective_pairing.
Defined.

(* ===================================================================== *)
(** ** What each step may touch, and a unit loaded whole *)
(* ===================================================================== *)

Section StepFrames.

Variable E : Env.
Variable self : DatabaseLoader.

Lemma only_appends_hydrotables_trans (a b c : State) :
  only_appends_hydrotables a b -> only_appends_hydrotables b c ->
  only_appends_hydrotables a c.
Proof.
  intros (A1 & A2 & A3 & A4 & x & A5) (B1 & B2 & B3 & B4 & y & B5).
  repeat split; try congruence. exists (x ++ y). rewrite B5, A5, app_assoc. reflexivity.
Qed.

Lemma only_appends_hydrotables_same (s s' : State) :
  st_db s' = st_db s -> only_appends_hydrotables s s'.
Proof.
  intros H. unfold only_appends_hydrotables. rewrite H. repeat split.
  exists []. rewrite app_nil_r. reflexivity.
Qed.

Lemma only_appends_rasters_trans (a b c : State) :
  only_appends_rasters a b -> only_appends_rasters b c -> only_appends_rasters a c.
Proof.
  intros (A1 & A2 & A3 & (x & A4) & (y & A5)) (B1 & B2 & B3 & (x' & B4) & (y' & B5)).
  repeat split; try congruence.
  - exists (x ++ x'). rewrite B4, A4, app_assoc. reflexivity.
  - exists (y ++ y'). rewrite B5, A5, app_assoc. reflexivity.
Qed.

Lemma only_appends_rasters_same (s s' : State) :
  st_db s' = st_db s -> only_appends_rasters s s'.
Proof.
  intros H. unfold only_appends_rasters. rewrite H. repeat split.
  - exists []. rewrite app_nil_r. reflexivity.
  - exists []. rewrite app_nil_r. reflexivity.
Qed.







End StepFrames.

(** [load_hydrotables], however it ends, leaves [Catchments],
    [HAND_REM_Rasters], [HAND_Catchment_Rasters] and [NWM_Features] as they
    were and only adds rows at the end of [Hydrotables]. *)
Theorem load_hydrotables_only_appends (E : Env) (self : DatabaseLoader)
  (dir cid : string) (s : State) :
  only_appends_hydrotables s (snd (load_hydrotables E self dir cid s)).
Proof.
  destruct (load_hydrotables E self dir cid s) as [r s'] eqn:H. cbn [snd].
  revert s r s' H. apply respects_load_hydrotables.
  - intros s. apply only_appends_hydrotables_same. reflexivity.
  - apply only_appends_hydrotables_trans.
  - intros l s r s' H. inversion H; subst. apply only_appends_hydrotables_same. reflexivity.
  - intros row s r s' H. apply execute_shape in H.
    destruct H as (_ & _ & _ & [Hdb | Hdb]).
    + apply only_appends_hydrotables_same, Hdb.
    + unfold only_appends_hydrotables. rewrite Hdb. cbn. repeat split.
      exists [row]. reflexivity.
Qed.

(** [load_rasters], however it ends, leaves [Catchments], [Hydrotables]
    and [NWM_Features] as they were and only adds rows at the end of the
    two raster tables. *)
Theorem load_rasters_only_appends (E : Env) (self : DatabaseLoader)
  (dir cid : string) (s : State) :
  only_appends_rasters s (snd (load_rasters E self dir cid s)).
Proof.
  destruct (load_rasters E self dir cid s) as [r s'] eqn:H. cbn [snd].
  revert s r s' H. apply respects_load_rasters.
  - intros s. apply only_appends_rasters_same. reflexivity.
  - apply only_appends_rasters_trans.
  - intros l s r s' H. inversion H; subst. apply only_appends_rasters_same. reflexivity.
  - intros st Hst s r s' H. apply execute_shape in H.
    destruct H as (_ & _ & _ & [Hdb | Hdb]).
    + apply only_appends_rasters_same, Hdb.
    + unfold only_appends_rasters. rewrite Hdb.
      destruct st as [x | x | x | x | x | c h | c h | c h]; try discriminate; cbn.
      * repeat split; [exists [x] | exists []]; rewrite ?app_nil_r; reflexivity.
      * repeat split; [exists [] | exists [x]]; rewrite ?app_nil_r; reflexivity.
Qed.





(* ===================================================================== *)
(** ** Errors that leave the batch *)
(* ===================================================================== *)

Section Escaping.

Variable E : Env.
Variable self : DatabaseLoader.

(** The cleanup raises only when the engine refuses one of its deletes. *)
Lemma cleanup_catchment_raises (v : option string) (s : State) (e : Exn) (s' : State) :
  _cleanup_catchment E self v s = (Raise e, s') ->
  exists cid,
    v = Some cid
    /\ In e [DbError (DeleteHydrotables cid (hand_version_id self));
             DbError (DeleteRemRasters cid (hand_version_id self));
             DbError (DeleteCatchments cid (hand_version_id self))].
Proof.
  destruct v as [cid |]; cbn [_cleanup_catchment]; [| discriminate].
  intros H. exists cid. split; [reflexivity |].
  unfold bind at 1 in H. rewrite print_eq in H. unfold with_transaction in H.
  change (bind (execute E ?a) (fun _ => bind (execute E ?b)
            (fun _ => bind (execute E ?c) (fun _ => ret tt))))
    with (execute_all E [a; b; c]) in H.
  destruct (execute_all E _ _) as [r0 s0] eqn:Hx.
  apply execute_all_outcome in Hx.
  2:{ intros st [<- | [<- | [<- | []]]]; reflexivity. }
  destruct Hx as (_ & _ & [(-> & _) | (pre & st & post & Hsts & -> & _)]); [discriminate |].
  inversion H; subst e.
  assert (Hin : In st [DeleteHydrotables cid (hand_version_id self);
                       DeleteRemRasters cid (hand_version_id self);
                       DeleteCatchments cid (hand_version_id self)])
    by (rewrite Hsts; apply in_elt).
  destruct Hin as [<- | [<- | [<- | []]]]; cbn; auto.
Qed.

Lemma process_catchment_raises (idx total : nat) (dir : string) (s : State) (e : Exn)
  (s' : State) :
  process_catchment E self idx total dir s = (Raise e, s') ->
  e = UnboundLocalError "catchment_id"
  \/ exists cid,
       In e [DbError (DeleteHydrotables cid (hand_version_id self));
             DbError (DeleteRemRasters cid (hand_version_id self));
             DbError (DeleteCatchments cid (hand_version_id self))].
Proof.
  unfold process_catchment. unfold bind at 1. rewrite print_eq. unfold try_except.
  destruct (with_transaction (catchment_transaction E self dir) _) as [[[] | e0] s1];
    [discriminate |].
  unfold bind at 1. rewrite print_eq. unfold bind at 1, get_catchment_id.
  destruct (st_catchment_id (logged s1 [LErrorProcessing dir e0])) as [| v].
  - intros H. inversion H. left. reflexivity.
  - intros H. apply cleanup_catchment_raises in H. destruct H as (cid & _ & Hin).
    right. exists cid. exact Hin.
Qed.

Lemma process_catchments_raises (idx total : nat) (dirs : list string) (s : State) (e : Exn)
  (s' : State) :
  process_catchments E self idx total dirs s = (Raise e, s') ->
  e = UnboundLocalError "catchment_id"
  \/ exists cid,
       In e [DbError (DeleteHydrotables cid (hand_version_id self));
             DbError (DeleteRemRasters cid (hand_version_id self));
             DbError (DeleteCatchments cid (hand_version_id self))].
Proof.
  revert idx s. induction dirs as [| d dirs IH]; intros idx s H; [discriminate |].
  cbn [process_catchments] in H. unfold bind in H.
  destruct (process_catchment E self idx total d s) as [[[] | e0] s1] eqn:Hd.
  - eapply IH, H.
  - inversion H; subst e0. eapply process_catchment_raises, Hd.
Qed.

End Escaping.

(** Whatever a listing, a read or the engine raises, an error leaves
    [load_hand_data] in one of three ways only: it is the error of the
    discovery of the units, raised before anything is printed or submitted;
    it is [UnboundLocalError], raised by the handler of the loop when a unit
    fails while [catchment_id] was never assigned; or it is the refusal of
    one of the three deletes of a cleanup.  An error raised while a unit is
    loaded never leaves the loop as it is. *)
Theorem load_hand_data_escaping_errors (E : Env) (self : DatabaseLoader) (hand_dir : string)
  (s : State) (e : Exn) (s' : State) :
  load_hand_data E self hand_dir s = (Raise e, s') ->
  (_get_catchment_dirs E hand_dir = Raise e
   /\ st_db s' = st_db s /\ st_log s' = st_log s /\ st_sql s' = st_sql s)
  \/ e = UnboundLocalError "catchment_id"
  \/ exists cid,
       In e [DbError (DeleteHydrotables cid (hand_version_id self));
             DbError (DeleteRemRasters cid (hand_version_id self));
             DbError (DeleteCatchments cid (hand_version_id self))].
Proof.
  unfold load_hand_data. unfold bind at 1, lift.
  destruct (_get_catchment_dirs E hand_dir) as [dirs | e0].
  - unfold bind at 1. rewrite print_eq. intros H. right.
    eapply process_catchments_raises, H.
  - intros H. inversion H; subst. left. repeat split.
Qed.

Lemma load_hand_data_escaping_errors_witness :
  _get_catchment_dirs flat_env "s3://[flat" = Raise (ValueError "s3://[flat").
Proof.
  destruct (load_hand_data_escaping_errors flat_env example_loader "s3://[flat"
              (initial_state empty_db) (ValueError "s3://[flat")
              (snd (load_hand_data flat_env example_loader "s3://[flat"
                      (initial_state empty_db))))
    as [[H _] | [H | (cid & H)]].
  - vm_compute; reflexivity.
  - exact H.
  - discriminate.
  - destruct H as [H | [H | [H | []]]]; discriminate.
Defined.
